(** * The task store of app/crud.py and the worker of app/background_worker.py

    The two tables declared in app/models.py are finite maps from the
    primary key [id] to a row.  Every function of [TaskCRUD] and
    [ConversationCRUD] that the properties below talk about is a function
    from a store to a result and a store; [NOW()] is the argument [now].

    Conventions of the embedding:
    - [Integer] columns are [Z]; [DateTime] columns are [Z] (a point on the
      time line); [String]/[Text] columns are [string], one [ascii] per
      character, and a column that may hold NULL is an [option].
    - what the database checks when a row is written through the ORM is
      part of the functions that write: the range of an [Integer], the
      width of a [String(n)], the NUL character, [nullable=False], the
      primary and the foreign key.
    - a SQL comparison with NULL is not true: [status = 'pending'] on a row
      whose status is NULL does not select the row.
    - the store a function returns is the committed state.  A function
      that runs a statement after its commit can raise with the commit in
      place; where it does is an argument of the function ([db_fault]) or
      a call site of the worker ([CallClaimReload]). *)

From stdpp Require Import base option list gmap strings fin_maps functions sorting.

Local Open Scope string_scope.
Local Open Scope Z_scope.

(** ** app/models.py *)

(** [class Task(Base)]: a row of [tasks], without its primary key. *)
Record Task := mkTask {
  t_title : string;                          (* String(255), nullable=False *)
  t_description : option string;             (* Text *)
  t_status : option string;                  (* String(50), default "pending" *)
  t_created_at : Z;                          (* server_default now() *)
  t_updated_at : Z;                          (* server_default now(), onupdate now() *)
  t_processed_at : option Z;                 (* nullable=True *)
  t_processing_instance_id : option string   (* String(255), nullable=True *)
}.

(** [class Conversation(Base)]: a row of [conversations]. *)
Record Conversation := mkConversation {
  c_task_id : Z;                             (* ForeignKey("tasks.id"), nullable=False *)
  c_content : string;                        (* Text, nullable=False *)
  c_status : option string;                  (* String(50), default "active" *)
  c_created_at : Z;
  c_updated_at : Z
}.

Global Instance Task_eq_dec : EqDecision Task.
Proof. solve_decision. Defined.
Global Instance Conversation_eq_dec : EqDecision Conversation.
Proof. solve_decision. Defined.

(** The database: both tables, keyed by [id]. *)
Record Store := mkStore {
  tasks : gmap Z Task;
  conversations : gmap Z Conversation
}.

(** ** Column types *)

(** [Integer]: four bytes, signed.  The driver refuses a parameter outside
    of this range before the statement is sent, and the database refuses
    such a value for the column. *)
Definition int32 (z : Z) : Prop := -2147483648 ≤ z ≤ 2147483647.

Global Instance int32_dec z : Decision (int32 z).
Proof. unfold int32. apply _. Defined.

(** PostgreSQL stores no NUL character in a text value. *)
Fixpoint has_nul (v : string) : bool :=
  match v with
  | EmptyString => false
  | String a v' => bool_decide (a = Ascii.zero) || has_nul v'
  end.

Fixpoint only_spaces (v : string) : bool :=
  match v with
  | EmptyString => true
  | String a v' => bool_decide (a = Ascii.Space) && only_spaces v'
  end.

(** The value a column stores for [v], or [None] when the database
    refuses [v] and the statement raises. *)

(** [Text] *)
Definition pg_text (v : string) : option string :=
  if has_nul v then None else Some v.

(** [String(n)], that is [VARCHAR(n)]: a value of more than [n]
    characters is refused, unless the characters beyond the [n]-th are
    all spaces; then the first [n] characters are stored. *)
Definition pg_varchar (n : nat) (v : string) : option string :=
  if has_nul v then None
  else if decide (String.length v ≤ n)%nat then Some v
  else if only_spaces (String.substring n (String.length v - n) v)
       then Some (String.substring 0 n v)
       else None.

(** A column that may hold NULL. *)
Definition pg_nullable (column : string → option string) (v : option string)
    : option (option string) :=
  match v with
  | None => Some None
  | Some x => Some <$> column x
  end.

(** A column declared [nullable=False]. *)
Definition pg_not_null (column : string → option string) (v : option string)
    : option (option string) :=
  x ← v; Some <$> column x.

(** Values that a column stores as they are. *)
Definition fits_text (v : string) : Prop := has_nul v = false.

Definition fits_varchar (n : nat) (v : string) : Prop :=
  has_nul v = false ∧ (String.length v ≤ n)%nat.

Global Instance fits_text_dec v : Decision (fits_text v).
Proof. unfold fits_text. apply _. Defined.
Global Instance fits_varchar_dec n v : Decision (fits_varchar n v).
Proof. unfold fits_varchar. apply _. Defined.

(** A value that [String(n)] does not shorten: it is stored as it is or
    refused. *)
Definition not_truncated (n : nat) (v : string) : Prop :=
  pg_varchar n v = Some v ∨ pg_varchar n v = None.

(** ** SQL statements on one table *)

Section sql.
Context {A : Type}.
Context (P : Z → A → Prop) `{!∀ k r, Decision (P k r)}.

(** The rows selected by a WHERE clause. *)
Definition sql_where (tbl : gmap Z A) : gmap Z A :=
  filter (λ kr, P kr.1 kr.2) tbl.

(** [UPDATE tbl SET ... WHERE P]: the new table and [rowcount]. *)
Definition sql_update (f : A → A) (tbl : gmap Z A) : gmap Z A * nat :=
  (map_imap (λ k r, Some (if decide (P k r) then f r else r)) tbl,
   size (sql_where tbl)).
End sql.

Global Arguments sql_update : simpl never.
Global Arguments sql_where : simpl never.

(** [ORDER BY created_at ASC LIMIT 1] over the selected rows.  SQL leaves
    the choice among rows of equal [created_at] open; here the first such
    row in the enumeration of the table is taken. *)
Fixpoint oldest (l : list (Z * Task)) : option (Z * Task) :=
  match l with
  | [] => None
  | x :: l' =>
      match oldest l' with
      | None => Some x
      | Some y => if decide (t_created_at x.2 ≤ t_created_at y.2) then Some x else Some y
      end
  end.

(** ** app/crud.py, class TaskCRUD *)

Definition is_pending (t : Task) : Prop := t_status t = Some "pending".
Definition is_processing (t : Task) : Prop := t_status t = Some "processing".

Global Instance is_pending_dec t : Decision (is_pending t).
Proof. unfold is_pending. apply _. Defined.
Global Instance is_processing_dec t : Decision (is_processing t).
Proof. unfold is_processing. apply _. Defined.

(** [SELECT id FROM tasks WHERE status = 'pending' ORDER BY created_at ASC
    FOR UPDATE SKIP LOCKED LIMIT 1]; [locked] holds the ids of the rows that
    other open transactions have locked. *)
Definition select_next_pending (locked : gset Z) (ts : gmap Z Task) : option Z :=
  fst <$> oldest (map_to_list (sql_where (λ k t, is_pending t ∧ k ∉ locked) ts)).

(** [SET status = 'processing', processing_instance_id = :instance_id,
    updated_at = NOW()] *)
Definition set_processing (instance_id : string) (now : Z) (t : Task) : Task :=
  mkTask (t_title t) (t_description t) (Some "processing") (t_created_at t)
         now (t_processed_at t) (Some instance_id).

(** [UPDATE tasks SET ... WHERE id = :task_id AND status = 'pending'] *)
Definition update_to_processing (task_id : Z) (instance_id : string) (now : Z)
    (ts : gmap Z Task) : gmap Z Task * nat :=
  sql_update (λ k t, k = task_id ∧ is_pending t) (set_processing instance_id now) ts.

(** [TaskCRUD.get_next_pending_task], run by one session with no other
    transaction open: select, update, commit, and reload the task when
    [rowcount > 0]. *)
Definition get_next_pending_task (instance_id : string) (now : Z) (s : Store)
    : option (Z * Task) * Store :=
  match select_next_pending ∅ (tasks s) with
  | None => (None, s)
  | Some task_id =>
      let '(ts', rowcount) := update_to_processing task_id instance_id now (tasks s) in
      let s' := mkStore ts' (conversations s) in
      if decide (0 < rowcount)%nat
      then ((λ t, (task_id, t)) <$> ts' !! task_id, s')
      else (None, s')
  end.

(** [SET status = 'completed', processed_at = NOW(), updated_at = NOW()] *)
Definition set_completed (now : Z) (t : Task) : Task :=
  mkTask (t_title t) (t_description t) (Some "completed") (t_created_at t)
         now (Some now) (t_processing_instance_id t).

(** [SET status = 'failed', updated_at = NOW()] *)
Definition set_failed (now : Z) (t : Task) : Task :=
  mkTask (t_title t) (t_description t) (Some "failed") (t_created_at t)
         now (t_processed_at t) (t_processing_instance_id t).

(** [WHERE id = :task_id AND processing_instance_id = :instance_id AND
    status = 'processing'], the guard of both [complete_task] and
    [fail_task]. *)
Definition owned_by (task_id : Z) (instance_id : string) (k : Z) (t : Task) : Prop :=
  k = task_id ∧ t_processing_instance_id t = Some instance_id ∧ is_processing t.

Global Instance owned_by_dec task_id instance_id k t :
  Decision (owned_by task_id instance_id k t).
Proof. unfold owned_by. apply _. Defined.

(** [TaskCRUD.complete_task] *)
Definition complete_task (task_id : Z) (instance_id : string) (now : Z) (s : Store)
    : bool * Store :=
  let '(ts', rowcount) :=
    sql_update (owned_by task_id instance_id) (set_completed now) (tasks s) in
  (bool_decide (0 < rowcount)%nat, mkStore ts' (conversations s)).

(** [TaskCRUD.fail_task] *)
Definition fail_task (task_id : Z) (instance_id : string) (now : Z) (s : Store)
    : bool * Store :=
  let '(ts', rowcount) :=
    sql_update (owned_by task_id instance_id) (set_failed now) (tasks s) in
  (bool_decide (0 < rowcount)%nat, mkStore ts' (conversations s)).

(** *** Updates through the ORM *)

(** What a call can do: return, or raise. *)
Inductive result (A : Type) : Type :=
  | Returned (a : A)
  | Raised.
Global Arguments Returned {A} a.
Global Arguments Raised {A}.

(** [class TaskUpdate(BaseModel)] with its set of supplied fields
    ([model_fields_set]): [None] is a field the request did not supply,
    [Some None] one supplied as [null], [Some (Some v)] one supplied as [v]. *)
Record TaskUpdate := mkTaskUpdate {
  u_title : option (option string);
  u_description : option (option string);
  u_status : option (option string)
}.

(** The attributes of a [Task] object that a request sets: Python
    values, which no column has checked. *)
Record TaskAttrs := mkTaskAttrs {
  a_title : option string;
  a_description : option string;
  a_status : option string
}.

Global Instance TaskAttrs_eq_dec : EqDecision TaskAttrs.
Proof. solve_decision. Defined.

(** The attributes of a row as it is loaded. *)
Definition task_attrs (t : Task) : TaskAttrs :=
  mkTaskAttrs (Some (t_title t)) (t_description t) (t_status t).

(** [for field, value in model_dump(exclude_unset=True).items():
      setattr(db_task, field, value)] *)
Definition apply_task_update (u : TaskUpdate) (t : Task) : TaskAttrs :=
  mkTaskAttrs (default (Some (t_title t)) (u_title u))
              (default (t_description t) (u_description u))
              (default (t_status t) (u_status u)).

(** One column of the UPDATE that a flush emits: an attribute that has
    the loaded value is not in the SET clause, and the column keeps what
    it holds; the value of a changed attribute is checked by the column. *)
Definition flush_column {A} `{EqDecision A} (column : A → option A) (old new : A)
    : option A :=
  if decide (new = old) then Some old else column new.

(** The flush of a loaded row at the commit.  Attributes without a net
    change emit no UPDATE.  An emitted UPDATE also sets [updated_at]
    ([onupdate=func.now()]); it is refused ([None]) when [title], declared
    [nullable=False], is [None], or when a column refuses its value. *)
Definition flush_task (now : Z) (old : Task) (a : TaskAttrs) : option Task :=
  if decide (a = task_attrs old) then Some old
  else
    title ← (if decide (a_title a = Some (t_title old)) then Some (t_title old)
             else a_title a ≫= pg_varchar 255);
    description ← flush_column (pg_nullable pg_text)
                     (t_description old) (a_description a);
    status ← flush_column (pg_nullable (pg_varchar 50)) (t_status old) (a_status a);
    Some (mkTask title description status (t_created_at old) now
                 (t_processed_at old) (t_processing_instance_id old)).

(** The object that the reload after the commit returns is the object of
    the session, which is not expired by the commit
    ([expire_on_commit=False]): the attributes set in Python are as they
    were set, and the reload fills in [updated_at], which the flush has
    expired. *)
Definition reloaded_task (a : TaskAttrs) (stored : Task) : Task :=
  mkTask (default (t_title stored) (a_title a)) (a_description a) (a_status a)
         (t_created_at stored) (t_updated_at stored) (t_processed_at stored)
         (t_processing_instance_id stored).

Definition belongs_to (task_id : Z) (k : Z) (c : Conversation) : Prop :=
  c_task_id c = task_id.

Global Instance belongs_to_dec task_id k c : Decision (belongs_to task_id k c).
Proof. unfold belongs_to. apply _. Defined.

(** [selectinload(Task.conversations)]: the rows of the relationship. *)
Definition conversations_of (task_id : Z) (s : Store) : gmap Z Conversation :=
  sql_where (belongs_to task_id) (conversations s).

(** A failure of the database that is not an answer to the statement
    (the connection is lost): none, one at a statement up to and
    including the commit, so that nothing is written, or one at a
    statement that follows the commit. *)
Inductive db_fault :=
  | NoFault
  | FaultBeforeCommit
  | FaultAfterCommit.

Global Instance db_fault_eq_dec : EqDecision db_fault.
Proof. solve_decision. Defined.

(** [TaskCRUD.update_task]: [Returned None] is the not-found answer,
    [Raised] an exception.  The SELECT raises for a [task_id] that is no
    [Integer]; a commit that is refused writes nothing; the reload runs
    after the commit. *)
Definition update_task (fault : db_fault) (task_id : Z) (task_update : TaskUpdate)
    (now : Z) (s : Store)
    : result (option (Z * Task * gmap Z Conversation)) * Store :=
  if decide (fault = FaultBeforeCommit ∨ ¬ int32 task_id) then (Raised, s)
  else
    match tasks s !! task_id with
    | None => (Returned None, s)
    | Some db_task =>
        let attrs := apply_task_update task_update db_task in
        match flush_task now db_task attrs with
        | None => (Raised, s)
        | Some stored =>
            let s' := mkStore (<[task_id := stored]> (tasks s)) (conversations s) in
            if decide (fault = FaultAfterCommit) then (Raised, s')
            else (Returned (Some (task_id, reloaded_task attrs stored,
                                  conversations_of task_id s')), s')
        end
    end.

(** [TaskCRUD.delete_task]: [db.delete] follows the relationship
    [cascade="all, delete-orphan"] of [Task.conversations].  The SELECT
    raises for a [task_id] that is no [Integer]. *)
Definition delete_task (task_id : Z) (s : Store) : result bool * Store :=
  if decide (int32 task_id) then
    match tasks s !! task_id with
    | None => (Returned false, s)
    | Some _ =>
        (Returned true,
         mkStore (delete task_id (tasks s))
                 (sql_where (λ k c, ¬ belongs_to task_id k c) (conversations s)))
    end
  else (Raised, s).

(** ** app/crud.py, class ConversationCRUD *)

(** [class ConversationUpdate(BaseModel)], as [TaskUpdate]. *)
Record ConversationUpdate := mkConversationUpdate {
  u_content : option (option string);
  u_conv_status : option (option string)
}.

(** The attributes of a [Conversation] object that a request sets. *)
Record ConversationAttrs := mkConversationAttrs {
  a_content : option string;
  a_conv_status : option string
}.

Global Instance ConversationAttrs_eq_dec : EqDecision ConversationAttrs.
Proof. solve_decision. Defined.

Definition conversation_attrs (c : Conversation) : ConversationAttrs :=
  mkConversationAttrs (Some (c_content c)) (c_status c).

(** [setattr(db_conversation, field, value)] for the supplied fields. *)
Definition apply_conversation_update (u : ConversationUpdate) (c : Conversation)
    : ConversationAttrs :=
  mkConversationAttrs (default (Some (c_content c)) (u_content u))
                      (default (c_status c) (u_conv_status u)).

(** The flush of a loaded conversation, as [flush_task]; [content] is
    declared [nullable=False]. *)
Definition flush_conversation (now : Z) (old : Conversation) (a : ConversationAttrs)
    : option Conversation :=
  if decide (a = conversation_attrs old) then Some old
  else
    content ← (if decide (a_content a = Some (c_content old)) then Some (c_content old)
               else a_content a ≫= pg_text);
    status ← flush_column (pg_nullable (pg_varchar 50)) (c_status old) (a_conv_status a);
    Some (mkConversation (c_task_id old) content status (c_created_at old) now).

(** [ConversationCRUD.update_conversation]: [db.refresh] after the commit
    loads the row as it is stored. *)
Definition update_conversation (fault : db_fault) (conversation_id : Z)
    (conversation_update : ConversationUpdate) (now : Z) (s : Store)
    : result (option (Z * Conversation)) * Store :=
  if decide (fault = FaultBeforeCommit ∨ ¬ int32 conversation_id) then (Raised, s)
  else
    match conversations s !! conversation_id with
    | None => (Returned None, s)
    | Some db_conversation =>
        match flush_conversation now db_conversation
                (apply_conversation_update conversation_update db_conversation) with
        | None => (Raised, s)
        | Some stored =>
            let s' := mkStore (tasks s) (<[conversation_id := stored]> (conversations s)) in
            if decide (fault = FaultAfterCommit) then (Raised, s')
            else (Returned (Some (conversation_id, stored)), s')
        end
    end.

(** [SET status = :status, updated_at = NOW()] *)
Definition set_conversation_status (status : string) (now : Z) (c : Conversation)
    : Conversation :=
  mkConversation (c_task_id c) (c_content c) (Some status) (c_created_at c) now.

(** [ConversationCRUD.update_conversations_by_task]:
    [UPDATE conversations SET ... WHERE task_id = :task_id], returning
    [rowcount]. *)
Definition update_conversations_by_task (task_id : Z) (status : string) (now : Z)
    (s : Store) : nat * Store :=
  let '(cs', rowcount) :=
    sql_update (belongs_to task_id) (set_conversation_status status now)
               (conversations s) in
  (rowcount, mkStore (tasks s) cs').

(** ** app/background_worker.py *)

(** The places at which the worker can meet an [Exception] (the database
    is unreachable, the statement is refused).  [update_conversations_by_task],
    [complete_task] and [fail_task] end with their commit, so one of them
    that raises has written nothing.  [get_next_pending_task] runs one more
    SELECT after its commit: it can raise before the commit, with nothing
    written, or in that SELECT, with the row already claimed.
    Cancellation of the task, which [except Exception] does not catch, is
    not modelled. *)
Inductive call :=
  | CallClaim          (* TaskCRUD.get_next_pending_task, up to its commit *)
  | CallClaimReload    (* TaskCRUD.get_next_pending_task, the SELECT after it *)
  | CallSleep          (* asyncio.sleep(6.5) *)
  | CallBulkUpdate     (* ConversationCRUD.update_conversations_by_task *)
  | CallComplete       (* TaskCRUD.complete_task *)
  | CallFail.          (* TaskCRUD.fail_task *)

(** The surroundings of one loop iteration: which calls raise, and the
    value of [NOW()] in each of them. *)
Record Env := mkEnv {
  raises : call → bool;
  now_at : call → Z
}.

(** Worker code: reads the surroundings, changes the store, returns or
    raises. *)
Definition W (A : Type) : Type := Env → Store → result A * Store.

Global Instance W_ret : MRet W := λ A a _ s, (Returned a, s).

Global Instance W_bind : MBind W := λ A B k m e s,
  match m e s with
  | (Returned a, s') => k a e s'
  | (Raised, s') => (Raised, s')
  end.

(** [try: body except Exception: handler] *)
Definition try_except {A} (body handler : W A) : W A :=
  λ e s, match body e s with
         | (Returned a, s') => (Returned a, s')
         | (Raised, s') => handler e s'
         end.

(** [await f(...)] at call site [c], for an [f] that ends with its
    commit. *)
Definition await {A} (c : call) (f : Z → Store → A * Store) : W A :=
  λ e s, if raises e c then (Raised, s)
         else let '(a, s') := f (now_at e c) s in (Returned a, s').

(** [await TaskCRUD.get_next_pending_task(db, self.instance_id)]: the
    SELECT after the commit is run when the UPDATE has claimed a row. *)
Definition await_claim (instance_id : string) : W (option (Z * Task)) :=
  λ e s, if raises e CallClaim then (Raised, s)
         else
           match get_next_pending_task instance_id (now_at e CallClaim) s with
           | (Some task, s') =>
               if raises e CallClaimReload then (Raised, s')
               else (Returned (Some task), s')
           | (None, s') => (Returned None, s')
           end.

(** [BackgroundTaskProcessor.process_task] *)
Definition process_task (instance_id : string) (task_id : Z) : W bool :=
  try_except
    (await CallSleep (λ _ s, (tt, s));;
     updated_count ← await CallBulkUpdate
                       (update_conversations_by_task task_id "processed");
     success ← await CallComplete (complete_task task_id instance_id);
     if success : bool then mret true else mret false)
    (_ ← await CallFail (fail_task task_id instance_id);
     mret false).

(** What one iteration of the loop did. *)
Inductive tick :=
  | Processed (task_id : Z) (ok : bool)
  | IdleSleep (seconds : nat)
  | ErrorSleep (seconds : nat).

(** The body of [while self.is_running] in
    [BackgroundTaskProcessor.worker_loop]. *)
Definition worker_iteration (instance_id : string) : Env → Store → tick * Store :=
  λ e s,
    match (task ← await_claim instance_id;
           match task with
           | Some (task_id, _) =>
               ok ← process_task instance_id task_id; mret (Processed task_id ok)
           | None => mret (IdleSleep 5)
           end) e s with
    | (Returned t, s') => (t, s')
    | (Raised, s') => (ErrorSleep 10, s')
    end.

(** [worker_loop] for as many iterations as [is_running] stays set: one
    element of [envs] per iteration. *)
Fixpoint worker_loop (instance_id : string) (envs : list Env) (s : Store)
    : list tick * Store :=
  match envs with
  | [] => ([], s)
  | e :: envs' =>
      let '(t, s') := worker_iteration instance_id e s in
      let '(ts, s'') := worker_loop instance_id envs' s' in
      (t :: ts, s'')
  end.

(** ** Several workers on one store *)

(** The operations the task engine itself performs on the store. *)
Inductive engine_op :=
  | OpClaim (instance_id : string) (now : Z)
  | OpComplete (task_id : Z) (instance_id : string) (now : Z)
  | OpFail (task_id : Z) (instance_id : string) (now : Z)
  | OpBulkUpdate (task_id : Z) (status : string) (now : Z).

Definition run_engine_op (op : engine_op) (s : Store) : Store :=
  match op with
  | OpClaim instance_id now => (get_next_pending_task instance_id now s).2
  | OpComplete task_id instance_id now => (complete_task task_id instance_id now s).2
  | OpFail task_id instance_id now => (fail_task task_id instance_id now s).2
  | OpBulkUpdate task_id status now =>
      (update_conversations_by_task task_id status now s).2
  end.

Definition run_engine_ops (ops : list engine_op) (s : Store) : Store :=
  foldl (λ s op, run_engine_op op s) s ops.

(** Where a worker stands between two statements. *)
Inductive position :=
  | Polling                    (* no transaction open, no task held *)
  | Selected (task_id : Z)     (* the SELECT returned a row, now locked *)
  | Owning (task_id : Z).      (* get_next_pending_task returned the task *)

Global Instance position_eq_dec : EqDecision position.
Proof. solve_decision. Defined.

(** The shared store, the row locks taken by [FOR UPDATE] (row id to the
    worker holding it), every worker's position, and the record of the
    tasks that [get_next_pending_task] has returned, newest first. *)
Record System := mkSystem {
  db : Store;
  row_locks : gmap Z nat;
  at_worker : nat → position;
  claimed : list (nat * Z)
}.

(** One statement of one worker [w]. *)
Inductive action :=
  | DoSelect (w : nat)
  | DoUpdateCommit (w : nat) (now : Z)
  | DoBulkUpdate (w : nat) (status : string) (now : Z)
  | DoComplete (w : nat) (now : Z)
  | DoFail (w : nat) (now : Z).

Definition release (w : nat) (locks : gmap Z nat) : gmap Z nat :=
  filter (λ kh, kh.2 ≠ w) locks.

Section system.
(** [self.instance_id] of each worker. *)
Context (instance_of : nat → string).

(** The statement takes effect, or is not the worker's next statement
    ([None]).  The SELECT skips the rows locked by open transactions;
    the UPDATE and the COMMIT that follows it take effect together and
    release the worker's locks. *)
Definition sys_step (a : action) (σ : System) : option System :=
  match a with
  | DoSelect w =>
      match at_worker σ w with
      | Polling =>
          match select_next_pending (dom (row_locks σ)) (tasks (db σ)) with
          | None => Some σ
          | Some task_id =>
              Some (mkSystem (db σ) (<[task_id := w]> (row_locks σ))
                             (<[w := Selected task_id]> (at_worker σ)) (claimed σ))
          end
      | _ => None
      end
  | DoUpdateCommit w now =>
      match at_worker σ w with
      | Selected task_id =>
          let '(ts', rowcount) :=
            update_to_processing task_id (instance_of w) now (tasks (db σ)) in
          let db' := mkStore ts' (conversations (db σ)) in
          if decide (0 < rowcount)%nat
          then Some (mkSystem db' (release w (row_locks σ))
                              (<[w := Owning task_id]> (at_worker σ))
                              ((w, task_id) :: claimed σ))
          else Some (mkSystem db' (release w (row_locks σ))
                              (<[w := Polling]> (at_worker σ)) (claimed σ))
      | _ => None
      end
  | DoBulkUpdate w status now =>
      match at_worker σ w with
      | Owning task_id =>
          Some (mkSystem (update_conversations_by_task task_id status now (db σ)).2
                         (row_locks σ) (at_worker σ) (claimed σ))
      | _ => None
      end
  | DoComplete w now =>
      match at_worker σ w with
      | Owning task_id =>
          Some (mkSystem (complete_task task_id (instance_of w) now (db σ)).2
                         (row_locks σ) (<[w := Polling]> (at_worker σ)) (claimed σ))
      | _ => None
      end
  | DoFail w now =>
      match at_worker σ w with
      | Owning task_id =>
          Some (mkSystem (fail_task task_id (instance_of w) now (db σ)).2
                         (row_locks σ) (<[w := Polling]> (at_worker σ)) (claimed σ))
      | _ => None
      end
  end.

(** A schedule: the statements of all workers in the order in which
    the database executes them. *)
Fixpoint sys_run (schedule : list action) (σ : System) : option System :=
  match schedule with
  | [] => Some σ
  | a :: schedule' => σ' ← sys_step a σ; sys_run schedule' σ'
  end.

(** The statements of one call of [get_next_pending_task] by worker [w],
    with no statement of another worker in between. *)
Definition sys_claim (w : nat) (now : Z) (σ : System) : option System :=
  σ1 ← sys_step (DoSelect w) σ;
  match at_worker σ1 w with
  | Selected _ => sys_step (DoUpdateCommit w now) σ1
  | _ => Some σ1
  end.
End system.

Definition sys_init (s : Store) : System := mkSystem s ∅ (λ _, Polling) [].

(** Claims of one session in a row, one per reading of the clock. *)
Fixpoint claim_repeatedly (instance_id : string) (nows : list Z) (s : Store)
    : list (option (Z * Task)) * Store :=
  match nows with
  | [] => ([], s)
  | now :: nows' =>
      let '(r, s') := get_next_pending_task instance_id now s in
      let '(rs, s'') := claim_repeatedly instance_id nows' s' in
      (r :: rs, s'')
  end.

(** * Notions used in the statements *)

(** The change of a row of [tasks] under one engine operation. *)
Inductive task_step (t : Task) : Task → Prop :=
  | task_untouched : task_step t t
  | task_claimed instance_id now :
      is_pending t → task_step t (set_processing instance_id now t)
  | task_completed now :
      is_processing t → task_step t (set_completed now t)
  | task_failed now :
      is_processing t → task_step t (set_failed now t).

(** [completed] and [failed], the two final statuses. *)
Definition is_terminal (t : Task) : Prop :=
  t_status t = Some "completed" ∨ t_status t = Some "failed".

(** The arrows of the lifecycle [pending → processing → {completed, failed}]. *)
Inductive status_transition : option string → option string → Prop :=
  | pending_to_processing :
      status_transition (Some "pending") (Some "processing")
  | processing_to_completed :
      status_transition (Some "processing") (Some "completed")
  | processing_to_failed :
      status_transition (Some "processing") (Some "failed").

(** The rows with [status = 'pending']. *)
Definition pending_tasks (s : Store) : gmap Z Task :=
  sql_where (λ _ t, is_pending t) (tasks s).

(** The tasks handed out by a run of claims, in the order of the calls. *)
Definition handed_out (rs : list (option (Z * Task))) : list (Z * Task) :=
  omap id rs.

Definition created_before (a b : Z * Task) : Prop :=
  t_created_at a.2 ≤ t_created_at b.2.

(** The number of conversations that belong to a task. *)
Definition conversation_count (task_id : Z) (s : Store) : nat :=
  length (filter (λ kc, c_task_id kc.2 = task_id) (map_to_list (conversations s))).

(** The value of a column after a partial update: the old one when the
    field was not supplied, otherwise what the column stores for the
    supplied value; a supplied value that is the old one is not written
    again. *)
Definition supplied_or_kept {A} (column : A → option A) (field : option A)
    (old new : A) : Prop :=
  match field with
  | None => new = old
  | Some v => column v = Some new ∨ (v = old ∧ new = old)
  end.

(** The update supplies a new value that the column refuses. *)
Definition refused {A} (column : A → option A) (field : option A) (old : A) : Prop :=
  ∃ v, field = Some v ∧ v ≠ old ∧ column v = None.

Definition task_update_refused (u : TaskUpdate) (t : Task) : Prop :=
  refused (pg_not_null (pg_varchar 255)) (u_title u) (Some (t_title t))
  ∨ refused (pg_nullable pg_text) (u_description u) (t_description t)
  ∨ refused (pg_nullable (pg_varchar 50)) (u_status u) (t_status t).

Definition conversation_update_refused (u : ConversationUpdate) (c : Conversation)
    : Prop :=
  refused (pg_not_null pg_text) (u_content u) (Some (c_content c))
  ∨ refused (pg_nullable (pg_varchar 50)) (u_conv_status u) (c_status c).

(** Every supplied value is one that its column stores as it is. *)
Definition task_update_fits (u : TaskUpdate) : Prop :=
  (∀ v, u_title u = Some v → ∃ x, v = Some x ∧ fits_varchar 255 x)
  ∧ (∀ x, u_description u = Some (Some x) → fits_text x)
  ∧ (∀ x, u_status u = Some (Some x) → fits_varchar 50 x).

Definition conversation_update_fits (u : ConversationUpdate) : Prop :=
  (∀ v, u_content u = Some v → ∃ x, v = Some x ∧ fits_text x)
  ∧ (∀ x, u_conv_status u = Some (Some x) → fits_varchar 50 x).


(** What holds of every state the workers can reach: no task was handed
    out twice; a worker that holds a task was handed it and finds the
    row [processing] under its own id; a task once handed out is never
    pending and bears the id of the worker it was handed to. *)
Definition sys_inv (instance_of : nat → string) (σ : System) : Prop :=
  NoDup (claimed σ).*2
  ∧ (∀ w task_id, at_worker σ w = Owning task_id →
       (w, task_id) ∈ claimed σ
       ∧ ∃ t, tasks (db σ) !! task_id = Some t ∧ is_processing t
              ∧ t_processing_instance_id t = Some (instance_of w))
  ∧ (∀ w task_id, (w, task_id) ∈ claimed σ →
       ∃ t, tasks (db σ) !! task_id = Some t ∧ ¬ is_pending t
            ∧ t_processing_instance_id t = Some (instance_of w)).

(** * The rest of the program *)

(** ** app/schemas.py, the create and response models *)

(** [class ConversationCreate(ConversationBase)]: [status] is
    [Optional[str] = "active"], so a request that leaves it out carries
    [Some "active"] and one that sends [null] carries [None]. *)
Record ConversationCreate := mkConversationCreate {
  cc_content : string;
  cc_status : option string
}.

(** [class TaskCreate(TaskBase)]: [conversations] is
    [Optional[List[ConversationCreate]] = []]. *)
Record TaskCreate := mkTaskCreate {
  tc_title : string;
  tc_description : option string;
  tc_conversations : option (list ConversationCreate)
}.

(** [class Task(TaskBase)], the response model: [status] is a [str], and
    [processing_instance_id] is not a field. *)
Record TaskResponse := mkTaskResponse {
  r_id : Z;
  r_title : string;
  r_description : option string;
  r_status : string;
  r_created_at : Z;
  r_updated_at : Z;
  r_processed_at : option Z;
  r_conversations : gmap Z Conversation
}.

(** [class TaskList(BaseModel)] *)
Record TaskList := mkTaskList {
  tl_id : Z;
  tl_title : string;
  tl_status : string;
  tl_created_at : Z;
  tl_conversation_count : nat
}.

(** ** app/crud.py, the remaining functions *)

(** The primary keys come from the database: the id it assigns to a new
    row is an argument of the function that inserts the row, as [NOW()]
    is.  An id that the table already holds violates [primary_key=True],
    one that is no [Integer] is out of the range of the column, and the
    statement raises. *)

(** [TaskCRUD.get_task]: the SELECT raises for a [task_id] that is no
    [Integer]. *)
Definition get_task (task_id : Z) (s : Store)
    : result (option (Z * Task * gmap Z Conversation)) :=
  if decide (int32 task_id)
  then Returned ((λ t, (task_id, t, conversations_of task_id s)) <$> tasks s !! task_id)
  else Raised.

(** [Conversation(task_id=..., content=..., status=...)], the object: a
    [status] of [None] is left out of the INSERT, and the object takes
    the [default="active"] of the column; [created_at] and [updated_at]
    are [server_default=func.now()]. *)
Definition new_conversation (task_id : Z) (now : Z) (c : ConversationCreate)
    : Conversation :=
  mkConversation task_id (cc_content c) (Some (default "active" (cc_status c)))
                 now now.

(** The row that the INSERT of the object writes, or [None] when a
    column refuses its value. *)
Definition stored_conversation (task_id : Z) (now : Z) (c : ConversationCreate)
    : option Conversation :=
  content ← pg_text (cc_content c);
  status ← pg_varchar 50 (default "active" (cc_status c));
  Some (mkConversation task_id content (Some status) now now).

(** The inserts of the conversations of a new task, in the order of the
    request; [new_ids i] is the id of the [i]-th of them. *)
Fixpoint insert_conversations (task_id now : Z) (new_ids : nat → Z) (i : nat)
    (cs : list ConversationCreate) (tbl : gmap Z Conversation)
    : option (gmap Z Conversation) :=
  match cs with
  | [] => Some tbl
  | c :: cs' =>
      if decide (int32 (new_ids i)) then
        match tbl !! new_ids i with
        | Some _ => None
        | None =>
            row ← stored_conversation task_id now c;
            insert_conversations task_id now new_ids (S i) cs'
              (<[new_ids i := row]> tbl)
        end
      else None
  end.

(** The [Conversation] objects of the session, by id. *)
Fixpoint session_conversations (task_id now : Z) (new_ids : nat → Z) (i : nat)
    (cs : list ConversationCreate) : gmap Z Conversation :=
  match cs with
  | [] => ∅
  | c :: cs' =>
      <[new_ids i := new_conversation task_id now c]>
        (session_conversations task_id now new_ids (S i) cs')
  end.

(** The row that the INSERT of [Task(title=..., description=...,
    status="pending")] writes. *)
Definition stored_task (task : TaskCreate) (now : Z) : option Task :=
  title ← pg_varchar 255 (tc_title task);
  description ← pg_nullable pg_text (tc_description task);
  Some (mkTask title description (Some "pending") now now None None).

(** [TaskCRUD.create_task]: the task is flushed, the conversations are
    added, and one commit writes all of them; an exception up to the
    commit leaves nothing written.  [for conv_data in task.conversations]
    raises on [None].  The reload runs after the commit; what it returns
    are the objects of the session with the attributes they were
    constructed with, and as [task.conversations] the rows with the
    [task_id] of the new task. *)
Definition create_task (fault : db_fault) (new_id : Z) (new_conversation_ids : nat → Z)
    (task : TaskCreate) (now : Z) (s : Store)
    : result (Z * Task * gmap Z Conversation) * Store :=
  if decide (fault = FaultBeforeCommit ∨ ¬ int32 new_id) then (Raised, s)
  else
    match tasks s !! new_id with
    | Some _ => (Raised, s)
    | None =>
        match stored_task task now with
        | None => (Raised, s)
        | Some row =>
            match tc_conversations task with
            | None => (Raised, s)
            | Some cs =>
                match insert_conversations new_id now new_conversation_ids 0 cs
                        (conversations s) with
                | None => (Raised, s)
                | Some convs' =>
                    let s' := mkStore (<[new_id := row]> (tasks s)) convs' in
                    let db_task :=
                      mkTask (tc_title task) (tc_description task) (Some "pending")
                             now now None None in
                    if decide (fault = FaultAfterCommit) then (Raised, s')
                    else
                      (Returned
                         (new_id, db_task,
                          session_conversations new_id now new_conversation_ids 0 cs
                          ∪ conversations_of new_id s'),
                       s')
                end
            end
        end
    end.

(** [ORDER BY created_at DESC] *)
Definition newer_first (a b : Z * Task) : Prop :=
  t_created_at b.2 ≤ t_created_at a.2.

Global Instance newer_first_dec a b : Decision (newer_first a b).
Proof. unfold newer_first. apply _. Defined.

(** [TaskCRUD.get_tasks]: every task with [count(Conversation.id)] over
    the outer join, newest first, then [OFFSET skip LIMIT limit]; the
    database refuses a negative [OFFSET] or [LIMIT].  Rows of equal
    [created_at] come in an order that SQL leaves open, and that can
    differ from one query to the next; the function gives them in the
    order of the sort of the enumeration.  What holds of the answer is
    stated below for every order the database may choose ([listing]). *)
Definition get_tasks (skip limit : Z) (s : Store) : result (list (Z * Task * nat)) :=
  if decide (skip < 0 ∨ limit < 0) then Raised
  else
    Returned
      (take (Z.to_nat limit)
         (drop (Z.to_nat skip)
            ((λ kt, (kt.1, kt.2, conversation_count kt.1 s))
               <$> merge_sort newer_first (map_to_list (tasks s))))).

(** [ConversationCRUD.create_conversation]: [task_id] is declared
    [ForeignKey("tasks.id")], so the insert raises when no such task
    exists.  [db.refresh] after the commit loads the row as it is
    stored. *)
Definition create_conversation (fault : db_fault) (new_id : Z)
    (conversation : ConversationCreate) (task_id : Z) (now : Z) (s : Store)
    : result (Z * Conversation) * Store :=
  if decide (fault = FaultBeforeCommit ∨ ¬ int32 new_id ∨ ¬ int32 task_id)
  then (Raised, s)
  else
    match conversations s !! new_id with
    | Some _ => (Raised, s)
    | None =>
        match tasks s !! task_id with
        | None => (Raised, s)
        | Some _ =>
            match stored_conversation task_id now conversation with
            | None => (Raised, s)
            | Some db_conversation =>
                let s' := mkStore (tasks s)
                            (<[new_id := db_conversation]> (conversations s)) in
                if decide (fault = FaultAfterCommit) then (Raised, s')
                else (Returned (new_id, db_conversation), s')
            end
        end
    end.

(** [ORDER BY created_at ASC] *)
Definition older_first (a b : Z * Conversation) : Prop :=
  c_created_at a.2 ≤ c_created_at b.2.

Global Instance older_first_dec a b : Decision (older_first a b).
Proof. unfold older_first. apply _. Defined.

(** [ConversationCRUD.get_conversations_by_task] *)
Definition get_conversations_by_task (task_id : Z) (s : Store)
    : list (Z * Conversation) :=
  merge_sort older_first (map_to_list (conversations_of task_id s)).

(** ** app/main.py, the endpoints *)

(** The answer of an endpoint: the body with status 200, the
    [HTTPException(status_code=404, detail=...)] of the endpoint, or the
    500 of [general_exception_handler] for any other exception. *)
Inductive http (A : Type) : Type :=
  | Ok200 (body : A)
  | NotFound404 (detail : string)
  | ServerError500.
Global Arguments Ok200 {A} body.
Global Arguments NotFound404 {A} detail.
Global Arguments ServerError500 {A}.

(** [response_model=Task]: the returned row is validated against the
    response model, which has no place for a [status] of [None]. *)
Definition task_response (r : Z * Task * gmap Z Conversation) : option TaskResponse :=
  status ← t_status r.1.2;
  Some (mkTaskResponse r.1.1 (t_title r.1.2) (t_description r.1.2) status
          (t_created_at r.1.2) (t_updated_at r.1.2) (t_processed_at r.1.2) r.2).

Definition respond_task (r : Z * Task * gmap Z Conversation) : http TaskResponse :=
  match task_response r with
  | Some body => Ok200 body
  | None => ServerError500
  end.

(** [TaskList(id=task.id, title=task.title, status=task.status,
    created_at=task.created_at, conversation_count=conversation_count or 0)] *)
Definition task_list_entry (row : Z * Task * nat) : option TaskList :=
  status ← t_status row.1.2;
  Some (mkTaskList row.1.1 (t_title row.1.2) status (t_created_at row.1.2) row.2).

Module main.

(** [POST /tasks/] *)
Definition create_task (fault : db_fault) (task : TaskCreate) (new_id : Z)
    (new_conversation_ids : nat → Z) (now : Z) (s : Store)
    : http TaskResponse * Store :=
  match create_task fault new_id new_conversation_ids task now s with
  | (Returned r, s') => (respond_task r, s')
  | (Raised, s') => (ServerError500, s')
  end.

(** [GET /tasks/] *)
Definition get_tasks (skip limit : Z) (s : Store) : http (list TaskList) :=
  match get_tasks skip limit s with
  | Returned tasks_with_counts =>
      match mapM task_list_entry tasks_with_counts with
      | Some body => Ok200 body
      | None => ServerError500
      end
  | Raised => ServerError500
  end.

(** [POST /tasks/{task_id}/conversations/] *)
Definition create_conversation (fault : db_fault) (task_id : Z)
    (conversation : ConversationCreate) (new_id : Z) (now : Z) (s : Store)
    : http (Z * Conversation) * Store :=
  match get_task task_id s with
  | Raised => (ServerError500, s)
  | Returned None => (NotFound404 "Task not found", s)
  | Returned (Some _) =>
      match create_conversation fault new_id conversation task_id now s with
      | (Returned c, s') => (Ok200 c, s')
      | (Raised, s') => (ServerError500, s')
      end
  end.

(** [GET /tasks/{task_id}/conversations/] *)
Definition get_conversations (task_id : Z) (s : Store)
    : http (list (Z * Conversation)) :=
  match get_task task_id s with
  | Raised => ServerError500
  | Returned None => NotFound404 "Task not found"
  | Returned (Some _) => Ok200 (get_conversations_by_task task_id s)
  end.

(** [GET /tasks/{task_id}] *)
Definition get_task (task_id : Z) (s : Store) : http TaskResponse :=
  match get_task task_id s with
  | Raised => ServerError500
  | Returned None => NotFound404 "Task not found"
  | Returned (Some r) => respond_task r
  end.

(** [PUT /tasks/{task_id}] *)
Definition update_task (fault : db_fault) (task_id : Z) (task_update : TaskUpdate)
    (now : Z) (s : Store) : http TaskResponse * Store :=
  match update_task fault task_id task_update now s with
  | (Returned None, s') => (NotFound404 "Task not found", s')
  | (Returned (Some r), s') => (respond_task r, s')
  | (Raised, s') => (ServerError500, s')
  end.

(** [DELETE /tasks/{task_id}] *)
Definition delete_task (task_id : Z) (s : Store) : http string * Store :=
  match delete_task task_id s with
  | (Returned true, s') => (Ok200 "Task deleted successfully", s')
  | (Returned false, s') => (NotFound404 "Task not found", s')
  | (Raised, s') => (ServerError500, s')
  end.

(** [PUT /conversations/{conversation_id}] *)
Definition update_conversation (fault : db_fault) (conversation_id : Z)
    (conversation_update : ConversationUpdate) (now : Z) (s : Store)
    : http (Z * Conversation) * Store :=
  match update_conversation fault conversation_id conversation_update now s with
  | (Returned None, s') => (NotFound404 "Conversation not found", s')
  | (Returned (Some c), s') => (Ok200 c, s')
  | (Raised, s') => (ServerError500, s')
  end.

End main.

(** Every conversation belongs to a stored task (the foreign key
    [conversations.task_id → tasks.id]). *)
Definition no_orphans (s : Store) : Prop :=
  map_Forall (λ _ c, is_Some (tasks s !! c_task_id c)) (conversations s).

(** A call of any of the functions that write to the store. *)
Inductive store_call :=
  | DoCreateTask (fault : db_fault) (new_id : Z) (new_conversation_ids : nat → Z)
      (task : TaskCreate) (now : Z)
  | DoUpdateTask (fault : db_fault) (task_id : Z) (task_update : TaskUpdate) (now : Z)
  | DoDeleteTask (task_id : Z)
  | DoCreateConversation (fault : db_fault) (new_id : Z)
      (conversation : ConversationCreate) (task_id : Z) (now : Z)
  | DoUpdateConversation (fault : db_fault) (conversation_id : Z)
      (conversation_update : ConversationUpdate) (now : Z)
  | DoEngine (op : engine_op)
  | DoWorkerIteration (instance_id : string) (e : Env).

Definition run_store_call (c : store_call) (s : Store) : Store :=
  match c with
  | DoCreateTask fault new_id new_conversation_ids task now =>
      (create_task fault new_id new_conversation_ids task now s).2
  | DoUpdateTask fault task_id task_update now =>
      (update_task fault task_id task_update now s).2
  | DoDeleteTask task_id => (delete_task task_id s).2
  | DoCreateConversation fault new_id conversation task_id now =>
      (create_conversation fault new_id conversation task_id now s).2
  | DoUpdateConversation fault conversation_id conversation_update now =>
      (update_conversation fault conversation_id conversation_update now s).2
  | DoEngine op => run_engine_op op s
  | DoWorkerIteration instance_id e => (worker_iteration instance_id e s).2
  end.

Definition run_store_calls (cs : list store_call) (s : Store) : Store :=
  foldl (λ s c, run_store_call c s) s cs.

(** No call of the iteration raises. *)
Definition quiet (e : Env) : Prop := ∀ c, raises e c = false.

(** The operation is not a [complete_task] or [fail_task] of the task
    with the instance id. *)
Definition spares (instance_id : string) (task_id : Z) (op : engine_op) : Prop :=
  match op with
  | OpComplete k i _ | OpFail k i _ => ¬ (k = task_id ∧ i = instance_id)
  | _ => True
  end.

(** A worker between its SELECT and its UPDATE holds the lock of the row
    it selected, and the row is still pending. *)
Definition selection_inv (σ : System) : Prop :=
  ∀ w task_id, at_worker σ w = Selected task_id →
    row_locks σ !! task_id = Some w
    ∧ ∃ t, tasks (db σ) !! task_id = Some t ∧ is_pending t.




(** The values of a request that the columns store as they are. *)
Definition conversation_fits (c : ConversationCreate) : Prop :=
  fits_text (cc_content c) ∧ fits_varchar 50 (default "active" (cc_status c)).

Definition task_create_fits (task : TaskCreate) : Prop :=
  fits_varchar 255 (tc_title task)
  ∧ (∀ x, tc_description task = Some x → fits_text x)
  ∧ (∀ cs, tc_conversations task = Some cs → Forall conversation_fits cs).

(** The ids that the database hands out for the [n] conversations of a
    request: [Integer]s, pairwise distinct, that the table does not hold. *)
Definition fresh_ids (new_ids : nat → Z) (n : nat) (s : Store) : Prop :=
  (∀ j, (j < n)%nat → int32 (new_ids j) ∧ conversations s !! new_ids j = None)
  ∧ (∀ j1 j2, (j1 < n)%nat → (j2 < n)%nat → new_ids j1 = new_ids j2 → j1 = j2).

(** All rows of [get_tasks], before the page is cut out. *)
Definition task_rows (s : Store) : list (Z * Task * nat) :=
  (λ kt, (kt.1, kt.2, conversation_count kt.1 s))
    <$> merge_sort newer_first (map_to_list (tasks s)).

(** * Scenarios *)

(** Three pending tasks created at 10 < 20 < 30 (ids 2, 3, 1), two active
    conversations of task 2 and one of task 1. *)
Definition demo_store : Store :=
  mkStore
    (<[1 := mkTask "report" None (Some "pending") 30 30 None None]>
       (<[2 := mkTask "import" (Some "nightly") (Some "pending") 10 10 None None]>
          (<[3 := mkTask "export" None (Some "pending") 20 20 None None]> ∅)))
    (<[7 := mkConversation 2 "hello" (Some "active") 11 11]>
       (<[8 := mkConversation 2 "again" (Some "archived") 12 12]>
          (<[9 := mkConversation 1 "other" (Some "active") 31 31]> ∅))).

Definition quiet_env : Env := mkEnv (λ _, false) (λ _, 50).


(** [process_task] with a fault raised by [complete_task]: the bulk
    update has been committed by then, and the task is marked failed all
    the same. *)
Definition late_fault_env : Env :=
  mkEnv (λ c, match c with CallComplete => true | _ => false end) (λ _, 50).

Definition late_fault_store : Store :=
  mkStore {[ 1 := mkTask "export" None (Some "pending") 10 10 None None ]}
          {[ 7 := mkConversation 1 "hello" (Some "active") 11 11 ]}.

(** Two workers race for the tasks of [demo_store]: both select before
    either updates. *)
Definition race_ids (w : nat) : string :=
  match w with O => "A" | _ => "B" end.

Definition race_schedule : list action :=
  [DoSelect 0; DoSelect 1; DoUpdateCommit 1 101; DoUpdateCommit 0 102;
   DoBulkUpdate 0 "processed" 103; DoComplete 0 104; DoFail 1 105; DoSelect 1].

Definition race_final : System :=
  default (sys_init demo_store)
          (sys_run race_ids race_schedule (sys_init demo_store)).

(** Task 2 after the worker has completed it. *)
Definition done_store : Store := (worker_iteration "X" quiet_env demo_store).2.

Definition done_task : Task :=
  mkTask "import" (Some "nightly") (Some "completed") 10 50 (Some 50) (Some "X").

(** A request with two conversations, one of them without a status, and
    the ids the database hands out for them. *)
Definition demo_request : TaskCreate :=
  mkTaskCreate "audit" None
    (Some [mkConversationCreate "first" (Some "archived");
           mkConversationCreate "second" None]).

Definition demo_new_ids (j : nat) : Z := 100 + Z.of_nat j.

(** Processing and [fail_task] both raise. *)
Definition stranding_env : Env :=
  mkEnv (λ c, match c with CallSleep | CallFail => true | _ => false end)
        (λ _, 50).

Definition stranded_store : Store := (worker_iteration "X" stranding_env demo_store).2.

(** A status of 51 characters. *)
Definition long_status : string :=
  "a-status-that-has-more-than-fifty-characters-in-it!".

(** [demo_store] after a worker has completed all three tasks. *)
Definition drained_store : Store :=
  (worker_loop "X" [quiet_env; quiet_env; quiet_env] demo_store).2.

(** * Properties *)

(** ** SQL statements *)

Section sql_facts.
Context {A : Type}.
Context (P : Z → A → Prop) `{!∀ k r, Decision (P k r)}.
Implicit Types (tbl : gmap Z A) (f : A → A).

Lemma sql_where_lookup tbl k r :
  sql_where P tbl !! k = Some r ↔ tbl !! k = Some r ∧ P k r.
Proof. unfold sql_where. by rewrite map_lookup_filter_Some. Qed.

Lemma sql_update_lookup f tbl k :
  (sql_update P f tbl).1 !! k
  = (λ r, if decide (P k r) then f r else r) <$> tbl !! k.
Proof.
  unfold sql_update; simpl. rewrite map_lookup_imap.
  by destruct (tbl !! k).
Qed.

Lemma rowcount_pos f tbl :
  (0 < (sql_update P f tbl).2)%nat ↔ ∃ k r, tbl !! k = Some r ∧ P k r.
Proof.
  unfold sql_update; simpl. split.
  - intros Hpos.
    assert (sql_where P tbl ≠ ∅) as Hne.
    { apply map_size_non_empty_iff. lia. }
    apply map_choose in Hne as (k & r & Hkr).
    exists k, r. by apply sql_where_lookup.
  - intros (k & r & Hk & HP).
    assert (size (sql_where P tbl) ≠ 0%nat); [|lia].
    apply map_size_non_empty_iff. intros Hempty.
    assert (sql_where P tbl !! k = Some r) as Hin by by apply sql_where_lookup.
    rewrite Hempty in Hin. by rewrite lookup_empty in Hin.
Qed.

Lemma sql_update_none f tbl :
  (∀ k r, tbl !! k = Some r → ¬ P k r) → (sql_update P f tbl).1 = tbl.
Proof.
  intros Hno. apply map_eq; intros k. rewrite sql_update_lookup.
  destruct (tbl !! k) as [r|] eqn:Hk; simpl; [|done].
  case_decide; [|done]. by destruct (Hno k r).
Qed.

Lemma sql_update_one f tbl k r :
  tbl !! k = Some r → P k r → (∀ k' r', P k' r' → k' = k) →
  (sql_update P f tbl).1 = <[k := f r]> tbl.
Proof.
  intros Hk HP Hkey. apply map_eq; intros k'. rewrite sql_update_lookup.
  destruct (decide (k' = k)) as [->|Hne].
  - rewrite lookup_insert_eq, Hk; simpl. by rewrite decide_True.
  - rewrite lookup_insert_ne by done.
    destruct (tbl !! k') as [r'|]; simpl; [|done].
    case_decide as HP'; [|done]. by apply Hkey in HP'.
Qed.

(** [rowcount] is the number of rows of the table that satisfy the
    WHERE clause. *)
Lemma rowcount_counts f tbl :
  (sql_update P f tbl).2
  = length (filter (λ kr, P kr.1 kr.2) (map_to_list tbl)).
Proof.
  unfold sql_update, sql_where; cbn [snd].
  induction tbl as [|k r tbl Hk IH] using map_ind.
  { by rewrite map_filter_empty, map_size_empty, map_to_list_empty. }
  rewrite map_to_list_insert by done. rewrite filter_cons.
  destruct (decide (P k r)) as [HP|HP]; cbn [fst snd].
  - rewrite map_filter_insert_True by done. rewrite decide_True by done.
    rewrite map_size_insert_None; [simpl; by rewrite IH|].
    apply map_lookup_filter_None. by left.
  - rewrite map_filter_insert_not' by (done || by rewrite Hk).
    by rewrite decide_False.
Qed.

Lemma rowcount_zero f tbl :
  ¬ (0 < (sql_update P f tbl).2)%nat → (sql_update P f tbl).1 = tbl.
Proof.
  intros Hz. apply sql_update_none. intros k r Hk HP.
  apply Hz, rowcount_pos. eauto.
Qed.
End sql_facts.

(** ** The ownership guard of [complete_task] and [fail_task] *)

Lemma store_eta s : mkStore (tasks s) (conversations s) = s.
Proof. by destruct s. Qed.

Section guarded.
Context (f : Task → Task) (task_id : Z) (instance_id : string) (s : Store).
Local Abbreviation upd := (sql_update (owned_by task_id instance_id) f (tasks s)).

Lemma guarded_rowcount :
  (0 < upd.2)%nat ↔
  ∃ t, tasks s !! task_id = Some t ∧ t_status t = Some "processing"
       ∧ t_processing_instance_id t = Some instance_id.
Proof.
  rewrite rowcount_pos. split.
  - intros (k & t & Hk & -> & Hown & Hproc). by exists t.
  - intros (t & Hk & Hproc & Hown). exists task_id, t. by repeat split.
Qed.

Lemma guarded_hit t :
  tasks s !! task_id = Some t → (0 < upd.2)%nat →
  upd.1 = <[task_id := f t]> (tasks s).
Proof.
  intros Hk Hpos. apply guarded_rowcount in Hpos as (t' & Hk' & Hproc & Hown).
  assert (t' = t) as -> by congruence.
  apply sql_update_one; [done|by repeat split|].
  by intros k' r' [-> _].
Qed.

Lemma guarded_miss : ¬ (0 < upd.2)%nat → upd.1 = tasks s.
Proof. apply rowcount_zero. Qed.
End guarded.

Lemma complete_task_unfold task_id instance_id now s :
  complete_task task_id instance_id now s
  = (bool_decide (0 < (sql_update (owned_by task_id instance_id)
                                  (set_completed now) (tasks s)).2)%nat,
     mkStore (sql_update (owned_by task_id instance_id)
                         (set_completed now) (tasks s)).1 (conversations s)).
Proof. reflexivity. Qed.

Lemma fail_task_unfold task_id instance_id now s :
  fail_task task_id instance_id now s
  = (bool_decide (0 < (sql_update (owned_by task_id instance_id)
                                  (set_failed now) (tasks s)).2)%nat,
     mkStore (sql_update (owned_by task_id instance_id)
                         (set_failed now) (tasks s)).1 (conversations s)).
Proof. reflexivity. Qed.

Lemma complete_task_true task_id instance_id now s :
  (complete_task task_id instance_id now s).1 = true ↔
  ∃ t, tasks s !! task_id = Some t ∧ t_status t = Some "processing"
       ∧ t_processing_instance_id t = Some instance_id.
Proof.
  rewrite complete_task_unfold; cbn [fst snd].
  rewrite bool_decide_eq_true. exact (guarded_rowcount _ _ _ _).
Qed.

Lemma fail_task_true task_id instance_id now s :
  (fail_task task_id instance_id now s).1 = true ↔
  ∃ t, tasks s !! task_id = Some t ∧ t_status t = Some "processing"
       ∧ t_processing_instance_id t = Some instance_id.
Proof.
  rewrite fail_task_unfold; cbn [fst snd].
  rewrite bool_decide_eq_true. exact (guarded_rowcount _ _ _ _).
Qed.

Lemma complete_task_hit task_id instance_id now s t :
  tasks s !! task_id = Some t →
  (complete_task task_id instance_id now s).1 = true →
  (complete_task task_id instance_id now s).2
  = mkStore (<[task_id := set_completed now t]> (tasks s)) (conversations s).
Proof.
  rewrite complete_task_unfold; cbn [fst snd]. intros Hk Hok.
  apply bool_decide_eq_true in Hok. by rewrite (guarded_hit _ _ _ _ t).
Qed.

Lemma fail_task_hit task_id instance_id now s t :
  tasks s !! task_id = Some t →
  (fail_task task_id instance_id now s).1 = true →
  (fail_task task_id instance_id now s).2
  = mkStore (<[task_id := set_failed now t]> (tasks s)) (conversations s).
Proof.
  rewrite fail_task_unfold; cbn [fst snd]. intros Hk Hok.
  apply bool_decide_eq_true in Hok. by rewrite (guarded_hit _ _ _ _ t).
Qed.

Lemma complete_task_miss task_id instance_id now s :
  (complete_task task_id instance_id now s).1 = false →
  (complete_task task_id instance_id now s).2 = s.
Proof.
  rewrite complete_task_unfold; cbn [fst snd]. intros Hok.
  apply bool_decide_eq_false in Hok.
  rewrite guarded_miss by done. apply store_eta.
Qed.

Lemma fail_task_miss task_id instance_id now s :
  (fail_task task_id instance_id now s).1 = false →
  (fail_task task_id instance_id now s).2 = s.
Proof.
  rewrite fail_task_unfold; cbn [fst snd]. intros Hok.
  apply bool_decide_eq_false in Hok.
  rewrite guarded_miss by done. apply store_eta.
Qed.

(** C2. [complete_task] returns [True] exactly when the row [task_id] has
    status [processing] and [processing_instance_id = instance_id]; it then
    sets the status to [completed] and [processed_at] to [NOW()], and
    otherwise returns [False] and leaves the store as it was.  Hence an
    instance that does not own the task is refused without any change, and
    after a successful completion [fail_task] by the same instance returns
    [False]. *)
Theorem complete_task_ownership_guard task_id instance_id now s :
  let ok := (complete_task task_id instance_id now s).1 in
  let s' := (complete_task task_id instance_id now s).2 in
  (ok = true ↔
     ∃ t, tasks s !! task_id = Some t ∧ t_status t = Some "processing"
          ∧ t_processing_instance_id t = Some instance_id)
  ∧ (ok = true →
     ∃ t t', tasks s !! task_id = Some t
          ∧ s' = mkStore (<[task_id := t']> (tasks s)) (conversations s)
          ∧ t_status t = Some "processing" ∧ t_status t' = Some "completed"
          ∧ t_processed_at t' = Some now
          ∧ t_processing_instance_id t' = Some instance_id)
  ∧ (ok = false → s' = s)
  ∧ (∀ t, tasks s !! task_id = Some t →
          t_processing_instance_id t ≠ Some instance_id → ok = false ∧ s' = s)
  ∧ (ok = true → ∀ now', fail_task task_id instance_id now' s' = (false, s')).
Proof.
  intros ok s'. subst ok s'.
  assert (∀ t, tasks s !! task_id = Some t →
               t_processing_instance_id t ≠ Some instance_id →
               (complete_task task_id instance_id now s).1 = false) as Hother.
  { intros t Hk Hne. apply not_true_is_false. intros Hok.
    apply complete_task_true in Hok as (t' & Hk' & _ & Hown). congruence. }
  split_and!.
  - apply complete_task_true.
  - intros Hok. pose proof Hok as Hex.
    apply complete_task_true in Hex as (t & Hk & Hproc & Hown).
    exists t, (set_completed now t). split_and!; try done.
    by apply complete_task_hit.
  - apply complete_task_miss.
  - intros t Hk Hne. split; [eauto|]. apply complete_task_miss. eauto.
  - intros Hok now'. pose proof Hok as Hex.
    apply complete_task_true in Hex as (t & Hk & Hproc & Hown).
    rewrite (complete_task_hit _ _ _ _ t) by done.
    set (s' := mkStore _ _).
    assert ((fail_task task_id instance_id now' s').1 = false) as Hf.
    { apply not_true_is_false. intros Hfail.
      apply fail_task_true in Hfail as (t' & Hk' & Hproc' & _).
      subst s'; simpl in Hk'. rewrite lookup_insert_eq in Hk'.
      by simplify_eq. }
    rewrite <- (fail_task_miss _ _ _ _ Hf) at 2.
    rewrite <- Hf at 1. by destruct (fail_task _ _ _ _).
Qed.

(** C6. [fail_task] has the guard of [complete_task]: it returns [True]
    exactly when the row [task_id] has status [processing] and
    [processing_instance_id = instance_id]; it then sets the status to
    [failed] and keeps [processed_at] (and every other column but
    [updated_at]); otherwise it returns [False] and changes nothing. *)
Theorem fail_task_same_guard task_id instance_id now s :
  let ok := (fail_task task_id instance_id now s).1 in
  let s' := (fail_task task_id instance_id now s).2 in
  (ok = true ↔
     ∃ t, tasks s !! task_id = Some t ∧ t_status t = Some "processing"
          ∧ t_processing_instance_id t = Some instance_id)
  ∧ (ok = (complete_task task_id instance_id now s).1)
  ∧ (ok = true →
     ∃ t t', tasks s !! task_id = Some t
          ∧ s' = mkStore (<[task_id := t']> (tasks s)) (conversations s)
          ∧ t_status t' = Some "failed"
          ∧ t_processed_at t' = t_processed_at t
          ∧ t_processing_instance_id t' = t_processing_instance_id t
          ∧ t_title t' = t_title t ∧ t_description t' = t_description t
          ∧ t_created_at t' = t_created_at t ∧ t_updated_at t' = now)
  ∧ (ok = false → s' = s).
Proof.
  intros ok s'. subst ok s'. split_and!.
  - apply fail_task_true.
  - destruct (complete_task task_id instance_id now s).1 eqn:Hc.
    + apply fail_task_true. by apply (complete_task_true _ _ now).
    + apply not_true_is_false. intros Hf.
      apply fail_task_true, (complete_task_true _ _ now) in Hf. congruence.
  - intros Hok. pose proof Hok as Hex.
    apply fail_task_true in Hex as (t & Hk & Hproc & Hown).
    exists t, (set_failed now t). split_and!; try done.
    by apply fail_task_hit.
  - apply fail_task_miss.
Qed.

(** ** Selecting and claiming the oldest pending task *)

Lemma oldest_None l : oldest l = None ↔ l = [].
Proof.
  destruct l as [|x l]; simpl; [done|].
  destruct (oldest l); [case_decide|]; done.
Qed.

Lemma oldest_Some l x :
  oldest l = Some x →
  x ∈ l ∧ ∀ y, y ∈ l → t_created_at x.2 ≤ t_created_at y.2.
Proof.
  revert x. induction l as [|a l IH]; intros x; simpl; [done|].
  destruct (oldest l) as [b|] eqn:Hb.
  - destruct (IH b eq_refl) as [Hin Hmin].
    case_decide as Hle; intros [= <-].
    + split; [left|]. intros y [->|Hy]%elem_of_cons; [lia|].
      specialize (Hmin y Hy). lia.
    + split; [by right|]. intros y [->|Hy]%elem_of_cons; [lia|by apply Hmin].
  - intros [= <-]. apply oldest_None in Hb as ->.
    split; [left|]. intros y Hy. apply list_elem_of_singleton in Hy as ->. lia.
Qed.

Lemma select_next_pending_Some locked ts task_id :
  select_next_pending locked ts = Some task_id →
  ∃ t, ts !! task_id = Some t ∧ is_pending t ∧ (task_id ∉ locked)
       ∧ ∀ k t', ts !! k = Some t' → is_pending t' → k ∉ locked →
                 t_created_at t ≤ t_created_at t'.
Proof.
  unfold select_next_pending. intros Hsel.
  apply fmap_Some in Hsel as ([k t] & Hold & ->); simpl.
  apply oldest_Some in Hold as [Hin Hmin].
  apply elem_of_map_to_list, sql_where_lookup in Hin as (Hk & Hpend & Hfree).
  exists t. split_and!; try done.
  intros k' t' Hk' Hpend' Hfree'.
  apply (Hmin (k', t')), elem_of_map_to_list, sql_where_lookup. done.
Qed.

Lemma select_next_pending_None locked ts :
  select_next_pending locked ts = None ↔
  ∀ k t, ts !! k = Some t → is_pending t → k ∈ locked.
Proof.
  unfold select_next_pending.
  rewrite fmap_None, oldest_None, map_to_list_empty_iff. split.
  - intros Hempty k t Hk Hpend.
    destruct (decide (k ∈ locked)) as [|Hfree]; [done|].
    assert (sql_where (λ k t, is_pending t ∧ k ∉ locked) ts !! k = Some t) as Hin
      by by apply sql_where_lookup.
    rewrite Hempty in Hin. by rewrite lookup_empty in Hin.
  - intros Hnone. apply map_empty; intros k.
    destruct (sql_where _ ts !! k) as [t|] eqn:Hin; [|done].
    apply sql_where_lookup in Hin as (Hk & Hpend & Hfree).
    destruct Hfree. eauto.
Qed.

Lemma update_to_processing_hit task_id instance_id now ts t :
  ts !! task_id = Some t → is_pending t →
  (update_to_processing task_id instance_id now ts).1
    = <[task_id := set_processing instance_id now t]> ts
  ∧ (0 < (update_to_processing task_id instance_id now ts).2)%nat.
Proof.
  intros Hk Hpend. unfold update_to_processing. split.
  - apply sql_update_one; [done..|]. by intros k' r' [-> _].
  - apply rowcount_pos. by exists task_id, t.
Qed.

Lemma update_to_processing_miss task_id instance_id now ts :
  (∀ t, ts !! task_id = Some t → ¬ is_pending t) →
  (update_to_processing task_id instance_id now ts).1 = ts
  ∧ ¬ (0 < (update_to_processing task_id instance_id now ts).2)%nat.
Proof.
  intros Hno. unfold update_to_processing.
  assert (¬ (0 < (sql_update (λ k t, k = task_id ∧ is_pending t)
                    (set_processing instance_id now) ts).2)%nat) as Hz.
  { rewrite rowcount_pos. intros (k & t & Hk & -> & Hpend). by eapply Hno. }
  split; [|done]. by apply rowcount_zero.
Qed.

Lemma get_next_pending_task_unfold instance_id now s :
  get_next_pending_task instance_id now s =
  match select_next_pending ∅ (tasks s) with
  | None => (None, s)
  | Some task_id =>
      let u := update_to_processing task_id instance_id now (tasks s) in
      if decide (0 < u.2)%nat
      then ((λ t, (task_id, t)) <$> u.1 !! task_id, mkStore u.1 (conversations s))
      else (None, mkStore u.1 (conversations s))
  end.
Proof.
  unfold get_next_pending_task.
  destruct (select_next_pending ∅ (tasks s)); [|done].
  by destruct (update_to_processing _ _ _ _).
Qed.

(** With no pending row the claim returns [None] and writes nothing. *)
Lemma get_next_pending_task_idle instance_id now s :
  (∀ k t, tasks s !! k = Some t → ¬ is_pending t) →
  get_next_pending_task instance_id now s = (None, s).
Proof.
  intros Hno. rewrite get_next_pending_task_unfold.
  destruct (select_next_pending ∅ (tasks s)) as [task_id|] eqn:Hsel; [|done].
  apply select_next_pending_Some in Hsel as (t & Hk & Hpend & _).
  by destruct (Hno _ _ Hk).
Qed.

(** With a pending row the claim returns the selected row, updated. *)
Lemma get_next_pending_task_claims instance_id now s task_id :
  select_next_pending ∅ (tasks s) = Some task_id →
  ∃ t, tasks s !! task_id = Some t ∧ is_pending t
       ∧ (∀ k t', tasks s !! k = Some t' → is_pending t' →
                  t_created_at t ≤ t_created_at t')
       ∧ get_next_pending_task instance_id now s
         = (Some (task_id, set_processing instance_id now t),
            mkStore (<[task_id := set_processing instance_id now t]> (tasks s))
                    (conversations s)).
Proof.
  intros Hsel. rewrite get_next_pending_task_unfold, Hsel.
  apply select_next_pending_Some in Hsel as (t & Hk & Hpend & _ & Hmin).
  exists t. split_and!; try done.
  { intros k t' Hk' Hpend'. apply (Hmin k); [done..|set_solver]. }
  destruct (update_to_processing_hit task_id instance_id now _ _ Hk Hpend)
    as [Hupd Hpos].
  cbv zeta. rewrite decide_True by done.
  by rewrite Hupd, lookup_insert_eq.
Qed.

(** The two outcomes of a claim by a single session. *)
Lemma get_next_pending_task_cases instance_id now s :
  ((∀ k t, tasks s !! k = Some t → ¬ is_pending t)
   ∧ get_next_pending_task instance_id now s = (None, s))
  ∨ (∃ task_id t,
       tasks s !! task_id = Some t ∧ is_pending t
       ∧ (∀ k t', tasks s !! k = Some t' → is_pending t' →
                  t_created_at t ≤ t_created_at t')
       ∧ get_next_pending_task instance_id now s
         = (Some (task_id, set_processing instance_id now t),
            mkStore (<[task_id := set_processing instance_id now t]> (tasks s))
                    (conversations s))).
Proof.
  destruct (select_next_pending ∅ (tasks s)) as [task_id|] eqn:Hsel.
  - right. exists task_id.
    by apply (get_next_pending_task_claims instance_id now) in Hsel.
  - left. assert (∀ k t, tasks s !! k = Some t → ¬ is_pending t) as Hno.
    { intros k t Hk Hpend.
      pose proof (proj1 (select_next_pending_None ∅ (tasks s)) Hsel k t Hk Hpend).
      set_solver. }
    split; [done|]. by apply get_next_pending_task_idle.
Qed.

(** ** What the engine does to one row *)

Lemma run_engine_op_task op s task_id t :
  tasks s !! task_id = Some t →
  ∃ t', tasks (run_engine_op op s) !! task_id = Some t' ∧ task_step t t'.
Proof.
  intros Hk. destruct op as [iid now|tid iid now|tid iid now|tid st now];
    cbn [run_engine_op].
  - destruct (get_next_pending_task_cases iid now s)
      as [[_ ->]|(k & t0 & Hk0 & Hpend & _ & ->)]; simpl.
    + exists t. split; [done|constructor].
    + destruct (decide (task_id = k)) as [->|Hne].
      * rewrite lookup_insert_eq. assert (t0 = t) as -> by congruence.
        eexists. split; [done|by constructor].
      * rewrite lookup_insert_ne by done. exists t. split; [done|constructor].
  - rewrite complete_task_unfold; cbn [fst snd tasks].
    rewrite sql_update_lookup, Hk; simpl.
    eexists. split; [done|].
    case_decide as Hown; [|constructor]. destruct Hown as (_ & _ & Hproc).
    by constructor.
  - rewrite fail_task_unfold; cbn [fst snd tasks].
    rewrite sql_update_lookup, Hk; simpl.
    eexists. split; [done|].
    case_decide as Hown; [|constructor]. destruct Hown as (_ & _ & Hproc).
    by constructor.
  - exists t. split; [|constructor].
    unfold update_conversations_by_task.
    by destruct (sql_update _ _ _).
Qed.

Lemma run_engine_op_absent op s task_id :
  tasks s !! task_id = None → tasks (run_engine_op op s) !! task_id = None.
Proof.
  intros Hk. destruct op as [iid now|tid iid now|tid iid now|tid st now];
    cbn [run_engine_op].
  - destruct (get_next_pending_task_cases iid now s)
      as [[_ ->]|(k & t0 & Hk0 & Hpend & _ & ->)]; simpl; [done|].
    rewrite lookup_insert_ne; [done|]. intros ->. congruence.
  - rewrite complete_task_unfold; cbn [fst snd tasks].
    by rewrite sql_update_lookup, Hk.
  - rewrite fail_task_unfold; cbn [fst snd tasks].
    by rewrite sql_update_lookup, Hk.
  - unfold update_conversations_by_task. by destruct (sql_update _ _ _).
Qed.

(** A row that is neither pending nor processing is out of the engine's
    reach. *)
Lemma task_step_settled t t' :
  task_step t t' → ¬ is_pending t → ¬ is_processing t → t' = t.
Proof. by destruct 1. Qed.

Lemma run_engine_ops_settled ops s task_id t :
  tasks s !! task_id = Some t → ¬ is_pending t → ¬ is_processing t →
  tasks (run_engine_ops ops s) !! task_id = Some t.
Proof.
  revert s. induction ops as [|op ops IH]; intros s Hk Hnp Hnr; simpl; [done|].
  apply IH; [|done..].
  destruct (run_engine_op_task op s task_id t Hk) as (t' & Hk' & Hstep).
  by rewrite (task_step_settled _ _ Hstep) in Hk'.
Qed.

Lemma is_terminal_settled t : is_terminal t → ¬ is_pending t ∧ ¬ is_processing t.
Proof. unfold is_pending, is_processing. intros [Hs|Hs]; rewrite Hs; by split. Qed.

(** C3. A row whose status is [completed] or [failed] is left as it is,
    in every column, by any sequence of claim, complete and fail calls
    (and bulk conversation updates); and one such call changes the status
    of a row either not at all or along [pending → processing],
    [processing → completed] or [processing → failed]. *)
Theorem terminal_state_immutable s task_id t :
  tasks s !! task_id = Some t →
  (is_terminal t → ∀ ops, tasks (run_engine_ops ops s) !! task_id = Some t)
  ∧ (∀ op, ∃ t', tasks (run_engine_op op s) !! task_id = Some t'
                 ∧ (t_status t' = t_status t
                    ∨ status_transition (t_status t) (t_status t'))).
Proof.
  intros Hk. split.
  - intros [Hnp Hnr]%is_terminal_settled ops. by apply run_engine_ops_settled.
  - intros op. destruct (run_engine_op_task op s task_id t Hk) as (t' & Hk' & Hstep).
    exists t'. split; [done|].
    destruct Hstep as [|iid now Hp|now Hp|now Hp]; [by left|right..];
      simpl; rewrite Hp; constructor.
Qed.

(** ** First in, first out *)

Lemma pending_tasks_lookup s k t :
  pending_tasks s !! k = Some t ↔ tasks s !! k = Some t ∧ is_pending t.
Proof. apply sql_where_lookup. Qed.

Lemma pending_tasks_empty s :
  (∀ k t, tasks s !! k = Some t → ¬ is_pending t) → pending_tasks s = ∅.
Proof.
  intros Hno. apply map_empty; intros k.
  destruct (pending_tasks s !! k) as [t|] eqn:Hin; [|done].
  apply pending_tasks_lookup in Hin as [Hk Hpend]. by destruct (Hno k t).
Qed.

Lemma pending_tasks_after_claim instance_id now s task_id t :
  pending_tasks (mkStore (<[task_id := set_processing instance_id now t]> (tasks s))
                         (conversations s))
  = delete task_id (pending_tasks s).
Proof.
  apply map_eq; intros k.
  destruct (decide (k = task_id)) as [->|Hne].
  - rewrite lookup_delete_eq.
    destruct (pending_tasks _ !! task_id) as [t'|] eqn:Hin; [|done].
    apply pending_tasks_lookup in Hin as [Hk Hpend]; simpl in Hk.
    rewrite lookup_insert_eq in Hk. by simplify_eq.
  - rewrite lookup_delete_ne by done. apply option_eq; intros t'.
    rewrite !pending_tasks_lookup; simpl. by rewrite lookup_insert_ne.
Qed.

Lemma claim_repeatedly_cons instance_id now nows s :
  claim_repeatedly instance_id (now :: nows) s
  = ((get_next_pending_task instance_id now s).1
       :: (claim_repeatedly instance_id nows
             (get_next_pending_task instance_id now s).2).1,
     (claim_repeatedly instance_id nows
        (get_next_pending_task instance_id now s).2).2).
Proof.
  simpl. destruct (get_next_pending_task _ _ _) as [r s']; simpl.
  by destruct (claim_repeatedly _ _ _).
Qed.

(** Every task handed out was pending at the start, and the tasks come in
    the order of [created_at]. *)
Lemma claim_repeatedly_sorted instance_id nows s :
  StronglySorted created_before
    (handed_out (claim_repeatedly instance_id nows s).1)
  ∧ Forall (λ a, ∃ t, tasks s !! a.1 = Some t ∧ is_pending t
                      ∧ t_created_at a.2 = t_created_at t)
      (handed_out (claim_repeatedly instance_id nows s).1).
Proof.
  revert s. induction nows as [|now nows IH]; intros s.
  { split; constructor. }
  rewrite claim_repeatedly_cons; cbn [fst].
  destruct (get_next_pending_task_cases instance_id now s)
    as [[_ ->]|(k & t & Hk & Hpend & Hmin & ->)]; cbn [fst snd].
  { apply IH. }
  set (s' := mkStore _ _). destruct (IH s') as [Hsorted Hall].
  assert (Forall (λ a, ∃ t0, tasks s !! a.1 = Some t0 ∧ is_pending t0
                             ∧ t_created_at a.2 = t_created_at t0)
            (handed_out (claim_repeatedly instance_id nows s').1)) as Hall'.
  { eapply Forall_impl; [exact Hall|]. intros a (t0 & Hk0 & Hpend0 & Hcr).
    exists t0. split_and!; try done. subst s'; simpl in Hk0.
    destruct (decide (a.1 = k)) as [Heq|Hne].
    - rewrite Heq, lookup_insert_eq in Hk0. by simplify_eq.
    - by rewrite lookup_insert_ne in Hk0. }
  unfold handed_out in *; simpl. split.
  - constructor; [done|].
    eapply Forall_impl; [exact Hall'|]. intros a (t0 & Hk0 & Hpend0 & Hcr).
    unfold created_before; simpl. rewrite Hcr. by eapply Hmin.
  - constructor; [|done]. exists t. by split_and!.
Qed.

(** With at least as many claims as pending tasks, exactly the pending
    tasks are handed out, each once. *)
Lemma claim_repeatedly_all instance_id nows s :
  (size (pending_tasks s) ≤ length nows)%nat →
  (handed_out (claim_repeatedly instance_id nows s).1).*1
  ≡ₚ (map_to_list (pending_tasks s)).*1.
Proof.
  revert s. induction nows as [|now nows IH]; intros s Hlen.
  { simpl in *. assert (pending_tasks s = ∅) as ->.
    { apply map_size_empty_iff. lia. }
    by rewrite map_to_list_empty. }
  rewrite claim_repeatedly_cons; cbn [fst].
  destruct (get_next_pending_task_cases instance_id now s)
    as [[Hno ->]|(k & t & Hk & Hpend & Hmin & ->)]; cbn [fst snd].
  { unfold handed_out; simpl. apply IH.
    rewrite (pending_tasks_empty s Hno), map_size_empty. lia. }
  assert (pending_tasks s !! k = Some t) as Hin by by apply pending_tasks_lookup.
  unfold handed_out in *; simpl.
  rewrite <- (map_to_list_delete _ _ _ Hin); simpl. constructor.
  rewrite <- (pending_tasks_after_claim instance_id now s k t).
  apply IH. rewrite pending_tasks_after_claim.
  rewrite map_size_delete, Hin. simpl in Hlen. lia.
Qed.

(** The claim hands out the pending row that is strictly older than every
    other pending row. *)
Lemma get_next_pending_task_oldest instance_id now s task_id t :
  tasks s !! task_id = Some t → is_pending t →
  (∀ k t', tasks s !! k = Some t' → is_pending t' → k ≠ task_id →
           t_created_at t < t_created_at t') →
  get_next_pending_task instance_id now s
  = (Some (task_id, set_processing instance_id now t),
     mkStore (<[task_id := set_processing instance_id now t]> (tasks s))
             (conversations s)).
Proof.
  intros Hk Hpend Hlt.
  destruct (get_next_pending_task_cases instance_id now s)
    as [[Hno _]|(k & t0 & Hk0 & Hpend0 & Hmin & ->)].
  { by destruct (Hno _ _ Hk). }
  destruct (decide (k = task_id)) as [->|Hne].
  - by simplify_eq.
  - specialize (Hlt _ _ Hk0 Hpend0 Hne). specialize (Hmin _ _ Hk Hpend). lia.
Qed.

(** C5, as the code has it.  The SELECT of a claim takes the pending row
    with the least [created_at] among the rows that no other open
    transaction has locked ([FOR UPDATE SKIP LOCKED]), and finds no row
    exactly when every pending row is locked.  Hence a claim by a single
    session (no other transaction open) hands out a pending task whose
    [created_at] is the least among all pending tasks, and returns [None]
    exactly when no task is pending; claims made in a row hand out tasks
    in the order of [created_at], as many claims as there are pending
    tasks hand out each of them once, and three pending tasks created at
    [t1 < t2 < t3] are handed out in that order. *)
Theorem claim_is_fifo instance_id s :
  (∀ locked task_id,
     select_next_pending locked (tasks s) = Some task_id →
     ∃ t, tasks s !! task_id = Some t ∧ is_pending t ∧ (task_id ∉ locked)
          ∧ ∀ k r, tasks s !! k = Some r → is_pending r → k ∉ locked →
                   t_created_at t ≤ t_created_at r)
  ∧ (∀ locked,
       select_next_pending locked (tasks s) = None ↔
       ∀ k t, tasks s !! k = Some t → is_pending t → k ∈ locked)
  ∧ (∀ now task_id t',
     (get_next_pending_task instance_id now s).1 = Some (task_id, t') →
     ∃ t, tasks s !! task_id = Some t ∧ is_pending t
          ∧ t' = set_processing instance_id now t
          ∧ ∀ k r, tasks s !! k = Some r → is_pending r →
                   t_created_at t ≤ t_created_at r)
  ∧ (∀ now, (get_next_pending_task instance_id now s).1 = None ↔
            ∀ k t, tasks s !! k = Some t → ¬ is_pending t)
  ∧ (∀ nows,
       StronglySorted created_before
         (handed_out (claim_repeatedly instance_id nows s).1)
       ∧ ((size (pending_tasks s) ≤ length nows)%nat →
          (handed_out (claim_repeatedly instance_id nows s).1).*1
          ≡ₚ (map_to_list (pending_tasks s)).*1))
  ∧ (∀ i1 i2 i3 r1 r2 r3 n1 n2 n3 n4,
       tasks s !! i1 = Some r1 → tasks s !! i2 = Some r2 →
       tasks s !! i3 = Some r3 →
       is_pending r1 → is_pending r2 → is_pending r3 →
       t_created_at r1 < t_created_at r2 → t_created_at r2 < t_created_at r3 →
       (∀ k r, tasks s !! k = Some r → is_pending r → k ∈ [i1; i2; i3]) →
       (claim_repeatedly instance_id [n1; n2; n3; n4] s).1
       = [Some (i1, set_processing instance_id n1 r1);
          Some (i2, set_processing instance_id n2 r2);
          Some (i3, set_processing instance_id n3 r3);
          None]).
Proof.
  split_and!.
  - intros locked task_id. apply select_next_pending_Some.
  - intros locked. apply select_next_pending_None.
  - intros now task_id t' Hres.
    destruct (get_next_pending_task_cases instance_id now s)
      as [[_ Heq]|(k & t & Hk & Hpend & Hmin & Heq)];
      rewrite Heq in Hres; simplify_eq/=.
    exists t. by split_and!.
  - intros now. split.
    + intros Hres.
      destruct (get_next_pending_task_cases instance_id now s)
        as [[Hno _]|(k & t & Hk & Hpend & Hmin & Heq)]; [done|].
      by rewrite Heq in Hres.
    + intros Hno. by rewrite get_next_pending_task_idle.
  - intros nows. split; [apply claim_repeatedly_sorted|apply claim_repeatedly_all].
  - intros i1 i2 i3 r1 r2 r3 n1 n2 n3 n4 H1 H2 H3 Hp1 Hp2 Hp3 Hlt12 Hlt23 Honly.
    assert (i1 ≠ i2) by (intros ->; simplify_eq; lia).
    assert (i2 ≠ i3) by (intros ->; simplify_eq; lia).
    assert (i1 ≠ i3) by (intros ->; simplify_eq; lia).
    rewrite !claim_repeatedly_cons; cbn [fst].
    rewrite (get_next_pending_task_oldest instance_id n1 s i1 r1); [|done..|]; last first.
    { intros k r Hk Hp Hne. specialize (Honly _ _ Hk Hp).
      set_unfold. destruct Honly as [->|[->|[->|[]]]]; simplify_eq; lia. }
    cbn [fst snd]. set (s1 := mkStore _ _).
    assert (∀ k r, tasks s1 !! k = Some r → is_pending r →
                   k ≠ i1 ∧ tasks s !! k = Some r) as Hs1.
    { intros k r Hk Hp. subst s1; simpl in Hk.
      destruct (decide (k = i1)) as [->|Hne].
      - rewrite lookup_insert_eq in Hk. by simplify_eq.
      - by rewrite lookup_insert_ne in Hk. }
    rewrite (get_next_pending_task_oldest instance_id n2 s1 i2 r2); [| |done|]; last first.
    { intros k r Hk Hp Hne. destruct (Hs1 _ _ Hk Hp) as [Hne1 Hk'].
      specialize (Honly _ _ Hk' Hp).
      set_unfold. destruct Honly as [->|[->|[->|[]]]]; simplify_eq; lia. }
    { subst s1; simpl. by rewrite lookup_insert_ne. }
    cbn [fst snd]. set (s2 := mkStore _ _).
    assert (∀ k r, tasks s2 !! k = Some r → is_pending r →
                   k ≠ i1 ∧ k ≠ i2 ∧ tasks s !! k = Some r) as Hs2.
    { intros k r Hk Hp. subst s2; simpl in Hk.
      destruct (decide (k = i2)) as [->|Hne].
      - rewrite lookup_insert_eq in Hk. by simplify_eq.
      - rewrite lookup_insert_ne in Hk by done.
        destruct (Hs1 _ _ Hk Hp). done. }
    rewrite (get_next_pending_task_oldest instance_id n3 s2 i3 r3); [| |done|]; last first.
    { intros k r Hk Hp Hne. destruct (Hs2 _ _ Hk Hp) as (Hne1 & Hne2 & Hk').
      specialize (Honly _ _ Hk' Hp).
      set_unfold. destruct Honly as [->|[->|[->|[]]]]; simplify_eq; lia. }
    { subst s2 s1; simpl. by rewrite !lookup_insert_ne. }
    cbn [fst snd]. set (s3 := mkStore _ _).
    rewrite (get_next_pending_task_idle instance_id n4 s3); [done|].
    intros k r Hk Hp. subst s3; simpl in Hk.
    destruct (decide (k = i3)) as [->|Hne].
    + rewrite lookup_insert_eq in Hk. by simplify_eq.
    + rewrite lookup_insert_ne in Hk by done.
      destruct (Hs2 _ _ Hk Hp) as (Hne1 & Hne2 & Hk').
      specialize (Honly _ _ Hk' Hp).
      set_unfold. destruct Honly as [->|[->|[->|[]]]]; simplify_eq; lia.
Qed.

(** ** The bulk update of a task's conversations *)

Lemma sql_where_update {A} (P : Z → A → Prop) `{!∀ k r, Decision (P k r)}
    (f : A → A) (tbl : gmap Z A) :
  (∀ k r, P k r → P k (f r)) →
  sql_where P (sql_update P f tbl).1 = f <$> sql_where P tbl.
Proof.
  intros Hkeep. apply map_eq; intros k. apply option_eq; intros r'.
  rewrite sql_where_lookup, sql_update_lookup, lookup_fmap, !fmap_Some.
  setoid_rewrite sql_where_lookup. split.
  - intros [(r & Hk & ->) HP]. exists r. case_decide; naive_solver.
  - intros (r & [Hk HP] & ->). split; [|by apply Hkeep].
    exists r. by rewrite decide_True.
Qed.

Lemma update_conversations_by_task_unfold task_id status now s :
  update_conversations_by_task task_id status now s
  = ((sql_update (belongs_to task_id) (set_conversation_status status now)
                 (conversations s)).2,
     mkStore (tasks s)
             (sql_update (belongs_to task_id) (set_conversation_status status now)
                         (conversations s)).1).
Proof. reflexivity. Qed.

Lemma update_conversations_by_task_lookup task_id status now s k :
  conversations (update_conversations_by_task task_id status now s).2 !! k
  = (λ c, if decide (c_task_id c = task_id)
          then set_conversation_status status now c else c)
    <$> conversations s !! k.
Proof.
  rewrite update_conversations_by_task_unfold; cbn [snd conversations].
  rewrite sql_update_lookup. destruct (conversations s !! k) as [c|]; [|done].
  simpl. unfold belongs_to. by repeat case_decide.
Qed.

Lemma conversations_of_after_update task_id status now s :
  conversations_of task_id (update_conversations_by_task task_id status now s).2
  = set_conversation_status status now <$> conversations_of task_id s.
Proof.
  rewrite update_conversations_by_task_unfold. unfold conversations_of; simpl.
  by apply sql_where_update.
Qed.

Lemma conversation_count_size task_id s :
  conversation_count task_id s = size (conversations_of task_id s).
Proof.
  symmetry. exact (rowcount_counts (belongs_to task_id) id (conversations s)).
Qed.

Lemma update_conversations_by_task_count task_id status now s :
  (update_conversations_by_task task_id status now s).1
  = conversation_count task_id s.
Proof. by rewrite conversation_count_size, update_conversations_by_task_unfold. Qed.

(** C7. [update_conversations_by_task] sets [status] on every
    conversation of the task, whatever its status was, touches no other
    conversation and no task, and returns the number of the task's
    conversations.  A second call with the same status returns the same
    number, and after either call every conversation of the task has that
    status. *)
Theorem bulk_update_idempotent task_id status now now' s :
  let first := update_conversations_by_task task_id status now s in
  let second := update_conversations_by_task task_id status now' first.2 in
  (∀ k c, conversations s !! k = Some c → c_task_id c = task_id →
          ∃ c', conversations first.2 !! k = Some c'
                ∧ c_status c' = Some status ∧ c_task_id c' = task_id
                ∧ c_content c' = c_content c ∧ c_created_at c' = c_created_at c)
  ∧ (∀ k c, conversations s !! k = Some c → c_task_id c ≠ task_id →
            conversations first.2 !! k = Some c
            ∧ conversations second.2 !! k = Some c)
  ∧ (∀ k, conversations s !! k = None →
          conversations first.2 !! k = None ∧ conversations second.2 !! k = None)
  ∧ tasks first.2 = tasks s ∧ tasks second.2 = tasks s
  ∧ first.1 = conversation_count task_id s
  ∧ second.1 = first.1
  ∧ second.1 = conversation_count task_id second.2
  ∧ (∀ k c, conversations first.2 !! k = Some c → c_task_id c = task_id →
            c_status c = Some status)
  ∧ (∀ k c, conversations second.2 !! k = Some c → c_task_id c = task_id →
            c_status c = Some status).
Proof.
  intros first second.
  assert (∀ n s0 k c,
            conversations (update_conversations_by_task task_id status n s0).2 !! k
              = Some c →
            c_task_id c = task_id → c_status c = Some status) as Hafter.
  { intros n s0 k c Hk Hc.
    rewrite update_conversations_by_task_lookup in Hk.
    apply fmap_Some in Hk as (c0 & _ & ->).
    case_decide; [done|]. by simpl in Hc. }
  assert (first.1 = size (conversations_of task_id s)) as Hfirst by done.
  assert (second.1 = size (conversations_of task_id first.2)) as Hsecond by done.
  assert (size (conversations_of task_id first.2)
          = size (conversations_of task_id s)) as Hsame.
  { subst first. by rewrite conversations_of_after_update, map_size_fmap. }
  split_and!.
  - intros k c Hk Hc. subst first.
    rewrite update_conversations_by_task_lookup, Hk; simpl.
    rewrite decide_True by done. eexists. by split_and!.
  - intros k c Hk Hc. subst second first.
    rewrite !update_conversations_by_task_lookup, Hk; simpl.
    rewrite decide_False by done; simpl. by rewrite decide_False.
  - intros k Hk. subst second first.
    by rewrite !update_conversations_by_task_lookup, Hk.
  - done.
  - done.
  - apply update_conversations_by_task_count.
  - congruence.
  - rewrite conversation_count_size, Hsecond. subst second.
    by rewrite conversations_of_after_update, map_size_fmap.
  - apply Hafter.
  - apply Hafter.
Qed.

(** ** Partial updates *)

Lemma pg_text_fits v : fits_text v → pg_text v = Some v.
Proof. unfold fits_text, pg_text. by intros ->. Qed.

Lemma pg_varchar_fits n v : fits_varchar n v → pg_varchar n v = Some v.
Proof. unfold pg_varchar. intros [-> Hlen]. by rewrite decide_True. Qed.

Lemma fits_not_truncated n v : fits_varchar n v → not_truncated n v.
Proof. intros Hfits. left. by apply pg_varchar_fits. Qed.

Lemma flush_column_Some {A} `{EqDecision A} (column : A → option A) field old new :
  flush_column column old (default old field) = Some new →
  supplied_or_kept column field old new.
Proof.
  unfold flush_column. destruct field as [v|]; simpl.
  - case_decide; [|by left]. intros [= <-]. by right.
  - rewrite decide_True by done. by intros [= <-].
Qed.

Lemma flush_column_None {A} `{EqDecision A} (column : A → option A) field old :
  flush_column column old (default old field) = None → refused column field old.
Proof.
  unfold flush_column. destruct field as [v|]; simpl.
  - case_decide; [done|]. intros Hnone. by exists v.
  - by rewrite decide_True.
Qed.

(** A column declared [nullable=False], as [flush_column]. *)
Lemma flush_not_null_Some column (field : option (option string)) old new :
  (if decide (default (Some old) field = Some old) then Some old
   else default (Some old) field ≫= column) = Some new →
  supplied_or_kept (pg_not_null column) field (Some old) (Some new)
  ∧ default (Some old) field = Some new ∨
  supplied_or_kept (pg_not_null column) field (Some old) (Some new)
  ∧ ∃ v, default (Some old) field = Some v ∧ column v = Some new.
Proof.
  destruct field as [[v|]|]; simpl.
  - case_decide as Hsame.
    + intros [= <-]. left. split; [by right|done].
    + intros Hcol. right. split; [left; simpl; by rewrite Hcol|by exists v].
  - done.
  - case_decide; [|done]. intros [= <-]. by left.
Qed.

Lemma flush_not_null_None column (field : option (option string)) old :
  (if decide (default (Some old) field = Some old) then Some old
   else default (Some old) field ≫= column) = None →
  refused (pg_not_null column) field (Some old).
Proof.
  destruct field as [[v|]|]; simpl.
  - case_decide as Hsame; [done|]. intros Hcol.
    exists (Some v). split_and!; [done..|]. simpl. by rewrite Hcol.
  - intros _. by exists None.
  - by case_decide.
Qed.

Lemma supplied_or_kept_same {A} (column : A → option A) field old :
  default old field = old → supplied_or_kept column field old old.
Proof. destruct field as [v|]; simpl; [|done]. intros ->. by right. Qed.

(** What the flush of an updated task gives. *)
Lemma flush_task_cases now u t :
  match flush_task now t (apply_task_update u t) with
  | Some t' =>
      supplied_or_kept (pg_not_null (pg_varchar 255)) (u_title u)
        (Some (t_title t)) (Some (t_title t'))
      ∧ supplied_or_kept (pg_nullable pg_text) (u_description u)
          (t_description t) (t_description t')
      ∧ supplied_or_kept (pg_nullable (pg_varchar 50)) (u_status u)
          (t_status t) (t_status t')
      ∧ t_created_at t' = t_created_at t
      ∧ t_processed_at t' = t_processed_at t
      ∧ t_processing_instance_id t' = t_processing_instance_id t
      ∧ (t' = t ∨ t_updated_at t' = now)
      ∧ is_Some (a_title (apply_task_update u t))
  | None => task_update_refused u t
  end.
Proof.
  unfold flush_task. case_decide as Hsame.
  - unfold apply_task_update, task_attrs in Hsame. injection Hsame as Ht Hd Hs.
    split_and!; try done; try by apply supplied_or_kept_same.
    by left.
  - clear Hsame. unfold apply_task_update; cbn [a_title a_description a_status].
    destruct (if decide (default (Some (t_title t)) (u_title u) = Some (t_title t))
              then Some (t_title t)
              else default (Some (t_title t)) (u_title u) ≫= pg_varchar 255)
      as [title|] eqn:Htitle; simpl.
    2: { left. by apply flush_not_null_None in Htitle. }
    destruct (flush_column (pg_nullable pg_text) _ _) as [description|] eqn:Hd; simpl.
    2: { right; left. by apply flush_column_None in Hd. }
    destruct (flush_column (pg_nullable (pg_varchar 50)) _ _) as [status|] eqn:Hs; simpl.
    2: { right; right. by apply flush_column_None in Hs. }
    apply flush_column_Some in Hd, Hs.
    split_and!; try done.
    + by destruct (flush_not_null_Some _ _ _ _ Htitle) as [[? _]|[? _]].
    + by right.
    + by destruct (flush_not_null_Some _ _ _ _ Htitle) as [[_ ->]|[_ (v & -> & _)]].
Qed.

Lemma flush_conversation_cases now u c :
  match flush_conversation now c (apply_conversation_update u c) with
  | Some c' =>
      supplied_or_kept (pg_not_null pg_text) (u_content u)
        (Some (c_content c)) (Some (c_content c'))
      ∧ supplied_or_kept (pg_nullable (pg_varchar 50)) (u_conv_status u)
          (c_status c) (c_status c')
      ∧ c_task_id c' = c_task_id c
      ∧ c_created_at c' = c_created_at c
      ∧ (c' = c ∨ c_updated_at c' = now)
  | None => conversation_update_refused u c
  end.
Proof.
  unfold flush_conversation. case_decide as Hsame.
  - unfold apply_conversation_update, conversation_attrs in Hsame.
    injection Hsame as Hc Hs.
    split_and!; try done; try by apply supplied_or_kept_same.
    by left.
  - clear Hsame. unfold apply_conversation_update; cbn [a_content a_conv_status].
    destruct (if decide (default (Some (c_content c)) (u_content u) = Some (c_content c))
              then Some (c_content c)
              else default (Some (c_content c)) (u_content u) ≫= pg_text)
      as [content|] eqn:Hcontent; simpl.
    2: { left. by apply flush_not_null_None in Hcontent. }
    destruct (flush_column (pg_nullable (pg_varchar 50)) _ _) as [status|] eqn:Hs; simpl.
    2: { right. by apply flush_column_None in Hs. }
    apply flush_column_Some in Hs.
    split_and!; try done.
    + by destruct (flush_not_null_Some _ _ _ _ Hcontent) as [[? _]|[? _]].
    + by right.
Qed.

(** A supplied value that fits is what the column holds afterwards. *)
Lemma supplied_or_kept_fits {A} (column : A → option A) field old new :
  supplied_or_kept column field old new →
  (∀ v, field = Some v → column v = Some v) →
  new = default old field.
Proof.
  destruct field as [v|]; simpl; [|done].
  intros [Hcol|[-> ->]] Hfits; [|done].
  rewrite (Hfits v eq_refl) in Hcol. congruence.
Qed.

Lemma refused_fits {A} (column : A → option A) field old :
  refused column field old → (∀ v, field = Some v → column v = Some v) → False.
Proof. intros (v & -> & _ & Hnone) Hfits. rewrite (Hfits v eq_refl) in Hnone. done. Qed.

Lemma task_update_fits_columns u :
  task_update_fits u →
  (∀ v, u_title u = Some v → pg_not_null (pg_varchar 255) v = Some v)
  ∧ (∀ v, u_description u = Some v → pg_nullable pg_text v = Some v)
  ∧ (∀ v, u_status u = Some v → pg_nullable (pg_varchar 50) v = Some v).
Proof.
  intros (Ht & Hd & Hs). split_and!.
  - intros v Hv. destruct (Ht v Hv) as (x & -> & Hx). simpl.
    by rewrite pg_varchar_fits.
  - intros [x|] Hv; [|done]. simpl. by rewrite pg_text_fits by by apply Hd.
  - intros [x|] Hv; [|done]. simpl. by rewrite pg_varchar_fits by by apply Hs.
Qed.

Lemma conversation_update_fits_columns u :
  conversation_update_fits u →
  (∀ v, u_content u = Some v → pg_not_null pg_text v = Some v)
  ∧ (∀ v, u_conv_status u = Some v → pg_nullable (pg_varchar 50) v = Some v).
Proof.
  intros (Hc & Hs). split_and!.
  - intros v Hv. destruct (Hc v Hv) as (x & -> & Hx). simpl.
    by rewrite pg_text_fits.
  - intros [x|] Hv; [|done]. simpl. by rewrite pg_varchar_fits by by apply Hs.
Qed.

(** The flush of an update whose values fit: the row with the supplied
    values, which is also the object that is returned. *)
Lemma flush_task_fits now u t :
  task_update_fits u →
  ∃ t', flush_task now t (apply_task_update u t) = Some t'
        ∧ reloaded_task (apply_task_update u t) t' = t'
        ∧ Some (t_title t') = default (Some (t_title t)) (u_title u)
        ∧ t_description t' = default (t_description t) (u_description u)
        ∧ t_status t' = default (t_status t) (u_status u)
        ∧ t_created_at t' = t_created_at t
        ∧ t_processed_at t' = t_processed_at t
        ∧ t_processing_instance_id t' = t_processing_instance_id t
        ∧ (t' = t ∨ t_updated_at t' = now).
Proof.
  intros Hfits. destruct (task_update_fits_columns u Hfits) as (Hft & Hfd & Hfs).
  pose proof (flush_task_cases now u t) as Hcases.
  destruct (flush_task now t (apply_task_update u t)) as [t'|].
  2: { destruct Hcases as [H|[H|H]]; by eapply refused_fits in H. }
  destruct Hcases as (Ht & Hd & Hs & Hc & Hp & Ho & Hu & _).
  apply supplied_or_kept_fits in Ht, Hd, Hs; [|done..].
  exists t'. split_and!; try done.
  unfold reloaded_task, apply_task_update; cbn [a_title a_description a_status].
  rewrite <- Ht, <- Hd, <- Hs. by destruct t'.
Qed.

Lemma flush_conversation_fits now u c :
  conversation_update_fits u →
  ∃ c', flush_conversation now c (apply_conversation_update u c) = Some c'
        ∧ Some (c_content c') = default (Some (c_content c)) (u_content u)
        ∧ c_status c' = default (c_status c) (u_conv_status u)
        ∧ c_task_id c' = c_task_id c
        ∧ c_created_at c' = c_created_at c
        ∧ (c' = c ∨ c_updated_at c' = now).
Proof.
  intros Hfits. destruct (conversation_update_fits_columns u Hfits) as (Hfc & Hfs).
  pose proof (flush_conversation_cases now u c) as Hcases.
  destruct (flush_conversation now c (apply_conversation_update u c)) as [c'|].
  2: { destruct Hcases as [H|H]; by eapply refused_fits in H. }
  destruct Hcases as (Hc & Hs & Hk & Hcr & Hu).
  apply supplied_or_kept_fits in Hc, Hs; [|done..].
  by exists c'.
Qed.

Lemma update_task_unfold fault task_id u now s :
  fault ≠ FaultBeforeCommit → int32 task_id →
  update_task fault task_id u now s
  = match tasks s !! task_id with
    | None => (Returned None, s)
    | Some t =>
        match flush_task now t (apply_task_update u t) with
        | None => (Raised, s)
        | Some t' =>
            (if decide (fault = FaultAfterCommit) then Raised
             else Returned (Some (task_id, reloaded_task (apply_task_update u t) t',
                                  conversations_of task_id s)),
             mkStore (<[task_id := t']> (tasks s)) (conversations s))
        end
    end.
Proof.
  intros Hfault Hid. unfold update_task. rewrite decide_False by tauto.
  destruct (tasks s !! task_id) as [t|]; [|done].
  destruct (flush_task _ _ _) as [t'|]; [|done]. by case_decide.
Qed.

Lemma update_conversation_unfold fault conversation_id u now s :
  fault ≠ FaultBeforeCommit → int32 conversation_id →
  update_conversation fault conversation_id u now s
  = match conversations s !! conversation_id with
    | None => (Returned None, s)
    | Some c =>
        match flush_conversation now c (apply_conversation_update u c) with
        | None => (Raised, s)
        | Some c' =>
            (if decide (fault = FaultAfterCommit) then Raised
             else Returned (Some (conversation_id, c')),
             mkStore (tasks s) (<[conversation_id := c']> (conversations s)))
        end
    end.
Proof.
  intros Hfault Hid. unfold update_conversation. rewrite decide_False by tauto.
  destruct (conversations s !! conversation_id) as [c|]; [|done].
  destruct (flush_conversation _ _ _) as [c'|]; [|done]. by case_decide.
Qed.

(** C8, as the code has it.  [update_task] and [update_conversation] on
    an existing row whose id is an [Integer] either raise with nothing
    written, when the update supplies a new value that its column refuses
    ([null] for a column declared [nullable=False], a string that is too
    long for a [String(n)], a NUL character), or write: a field that is
    not supplied keeps its value, a supplied one holds what the column
    stores for the supplied value ([null] as NULL), every other column of
    the row, every other row and the other table are kept, and only
    [updated_at] is refreshed, by the flush of a changed row.
    [update_task] returns the task with the supplied values as they were
    sent, [update_conversation] the row as it is stored.  When every
    supplied value fits its column, the update is written and returned as
    supplied.  An id that is no [Integer] raises, and so does a failure
    before the commit, with nothing written; a failure after the commit
    raises with the update written.  An [Integer] id that does not exist
    gives the not-found answer and changes nothing. *)
Theorem partial_update_frame now s :
  (∀ fault task_id u,
     (fault = FaultBeforeCommit ∨ ¬ int32 task_id →
      update_task fault task_id u now s = (Raised, s))
     ∧ (fault ≠ FaultBeforeCommit → int32 task_id → tasks s !! task_id = None →
        update_task fault task_id u now s = (Returned None, s))
     ∧ ∀ t, fault ≠ FaultBeforeCommit → int32 task_id →
         tasks s !! task_id = Some t →
         (task_update_refused u t
          ∧ update_task fault task_id u now s = (Raised, s)
          ∨ ∃ t' r,
              update_task fault task_id u now s
              = (if decide (fault = FaultAfterCommit) then Raised
                 else Returned (Some (task_id, r, conversations_of task_id s)),
                 mkStore (<[task_id := t']> (tasks s)) (conversations s))
              ∧ supplied_or_kept (pg_not_null (pg_varchar 255)) (u_title u)
                  (Some (t_title t)) (Some (t_title t'))
              ∧ supplied_or_kept (pg_nullable pg_text) (u_description u)
                  (t_description t) (t_description t')
              ∧ supplied_or_kept (pg_nullable (pg_varchar 50)) (u_status u)
                  (t_status t) (t_status t')
              ∧ t_created_at t' = t_created_at t
              ∧ t_processed_at t' = t_processed_at t
              ∧ t_processing_instance_id t' = t_processing_instance_id t
              ∧ (t' = t ∨ t_updated_at t' = now)
              ∧ Some (t_title r) = default (Some (t_title t)) (u_title u)
              ∧ t_description r = default (t_description t) (u_description u)
              ∧ t_status r = default (t_status t) (u_status u)
              ∧ t_created_at r = t_created_at t'
              ∧ t_updated_at r = t_updated_at t'
              ∧ t_processed_at r = t_processed_at t'
              ∧ t_processing_instance_id r = t_processing_instance_id t')
         ∧ (task_update_fits u →
            ∃ t', update_task NoFault task_id u now s
                  = (Returned (Some (task_id, t', conversations_of task_id s)),
                     mkStore (<[task_id := t']> (tasks s)) (conversations s))
                  ∧ Some (t_title t') = default (Some (t_title t)) (u_title u)
                  ∧ t_description t' = default (t_description t) (u_description u)
                  ∧ t_status t' = default (t_status t) (u_status u)
                  ∧ t_created_at t' = t_created_at t
                  ∧ t_processed_at t' = t_processed_at t
                  ∧ t_processing_instance_id t' = t_processing_instance_id t
                  ∧ (t' = t ∨ t_updated_at t' = now)))
  ∧ (∀ fault conversation_id u,
     (fault = FaultBeforeCommit ∨ ¬ int32 conversation_id →
      update_conversation fault conversation_id u now s = (Raised, s))
     ∧ (fault ≠ FaultBeforeCommit → int32 conversation_id →
        conversations s !! conversation_id = None →
        update_conversation fault conversation_id u now s = (Returned None, s))
     ∧ ∀ c, fault ≠ FaultBeforeCommit → int32 conversation_id →
         conversations s !! conversation_id = Some c →
         (conversation_update_refused u c
          ∧ update_conversation fault conversation_id u now s = (Raised, s)
          ∨ ∃ c',
              update_conversation fault conversation_id u now s
              = (if decide (fault = FaultAfterCommit) then Raised
                 else Returned (Some (conversation_id, c')),
                 mkStore (tasks s) (<[conversation_id := c']> (conversations s)))
              ∧ supplied_or_kept (pg_not_null pg_text) (u_content u)
                  (Some (c_content c)) (Some (c_content c'))
              ∧ supplied_or_kept (pg_nullable (pg_varchar 50)) (u_conv_status u)
                  (c_status c) (c_status c')
              ∧ c_task_id c' = c_task_id c
              ∧ c_created_at c' = c_created_at c
              ∧ (c' = c ∨ c_updated_at c' = now))
         ∧ (conversation_update_fits u →
            ∃ c', update_conversation NoFault conversation_id u now s
                  = (Returned (Some (conversation_id, c')),
                     mkStore (tasks s) (<[conversation_id := c']> (conversations s)))
                  ∧ Some (c_content c') = default (Some (c_content c)) (u_content u)
                  ∧ c_status c' = default (c_status c) (u_conv_status u)
                  ∧ c_task_id c' = c_task_id c
                  ∧ c_created_at c' = c_created_at c
                  ∧ (c' = c ∨ c_updated_at c' = now))).
Proof.
  split.
  - intros fault task_id u. split_and!.
    + intros Hbad. unfold update_task. by rewrite decide_True.
    + intros Hfault Hid Hk. by rewrite update_task_unfold, Hk.
    + intros t Hfault Hid Hk. split.
      * rewrite update_task_unfold, Hk by done.
        pose proof (flush_task_cases now u t) as Hcases.
        destruct (flush_task now t (apply_task_update u t)) as [t'|]; [|by left].
        destruct Hcases as (Ht & Hd & Hs & Hc & Hp & Ho & Hu & [x Hx]).
        right. exists t', (reloaded_task (apply_task_update u t) t').
        split_and!; try done.
        unfold reloaded_task; cbn [t_title]. rewrite Hx; simpl.
        by rewrite <- Hx.
      * intros Hfits.
        destruct (flush_task_fits now u t Hfits) as (t' & Hflush & Hr & Hrest).
        exists t'. split; [|done].
        rewrite update_task_unfold, Hk, Hflush by done.
        rewrite decide_False by done. by rewrite Hr.
  - intros fault conversation_id u. split_and!.
    + intros Hbad. unfold update_conversation. by rewrite decide_True.
    + intros Hfault Hid Hk. by rewrite update_conversation_unfold, Hk.
    + intros c Hfault Hid Hk. split.
      * rewrite update_conversation_unfold, Hk by done.
        pose proof (flush_conversation_cases now u c) as Hcases.
        destruct (flush_conversation now c (apply_conversation_update u c)) as [c'|];
          [|by left].
        right. by exists c'.
      * intros Hfits.
        destruct (flush_conversation_fits now u c Hfits) as (c' & Hflush & Hrest).
        exists c'. split; [|done].
        rewrite update_conversation_unfold, Hk, Hflush by done.
        by rewrite decide_False by done.
Qed.

(** C8 as stated, for every id that does not exist, does not hold: an id
    beyond the range of the [Integer] column is the id of no row, and the
    update raises instead of reporting not-found. *)
Lemma update_of_missing_id_raises :
  ¬ (∀ task_id u now s,
       tasks s !! task_id = None →
       update_task NoFault task_id u now s = (Returned None, s)).
Proof.
  intros Hclaim.
  specialize (Hclaim 2147483648 (mkTaskUpdate None None (Some (Some "done")))
                60 demo_store).
  assert (update_task NoFault 2147483648 (mkTaskUpdate None None (Some (Some "done")))
            60 demo_store = (Raised, demo_store)) as Hraised by by vm_compute.
  rewrite Hraised in Hclaim. by specialize (Hclaim eq_refl).
Qed.

(** ** Deleting a task *)

(** C9, as the code has it.  [delete_task] on an existing id that is an
    [Integer] returns [True] and removes the task together with every
    conversation whose [task_id] is that id; all other tasks and the
    conversations of all other tasks stay as they are.  On an [Integer]
    id that does not exist it returns [False] and changes nothing.  On
    an id that is no [Integer] it raises and changes nothing. *)
Theorem delete_task_cascade task_id s :
  (¬ int32 task_id → delete_task task_id s = (Raised, s))
  ∧ (int32 task_id → tasks s !! task_id = None →
     delete_task task_id s = (Returned false, s))
  ∧ (int32 task_id → is_Some (tasks s !! task_id) →
     let s' := (delete_task task_id s).2 in
     (delete_task task_id s).1 = Returned true
     ∧ tasks s' !! task_id = None
     ∧ (∀ k, k ≠ task_id → tasks s' !! k = tasks s !! k)
     ∧ (∀ k c, conversations s' !! k = Some c ↔
               conversations s !! k = Some c ∧ c_task_id c ≠ task_id)
     ∧ conversations_of task_id s' = ∅).
Proof.
  unfold delete_task. split_and!.
  - intros Hid. by rewrite decide_False.
  - intros Hid ->. by rewrite decide_True.
  - intros Hid [t ->]. rewrite decide_True by done. simpl. split_and!.
    + done.
    + apply lookup_delete_eq.
    + intros k Hne. by apply lookup_delete_ne.
    + intros k c. by rewrite sql_where_lookup.
    + apply map_empty; intros k. unfold conversations_of; simpl.
      destruct (sql_where (belongs_to task_id) _ !! k) as [c|] eqn:Hin; [|done].
      apply sql_where_lookup in Hin as [Hin Hbel].
      apply sql_where_lookup in Hin as [_ Hnot]. by destruct Hnot.
Qed.

(** C9 as stated, for every id that does not exist, does not hold: for
    an id beyond the range of the [Integer] column, which is the id of no
    task, [delete_task] raises instead of returning [False]. *)
Lemma delete_of_missing_id_raises :
  ¬ (∀ task_id s,
       tasks s !! task_id = None → delete_task task_id s = (Returned false, s)).
Proof.
  intros Hclaim. specialize (Hclaim 2147483648 demo_store).
  assert (delete_task 2147483648 demo_store = (Raised, demo_store)) as Hraised
    by by vm_compute.
  rewrite Hraised in Hclaim. by specialize (Hclaim eq_refl).
Qed.

(** ** The external update against the lifecycle *)




(** ** A fault while a task is processed *)

(** After a claim the row is [processing] and owned by the claimant. *)
Lemma get_next_pending_task_result instance_id now s task_id t :
  (get_next_pending_task instance_id now s).1 = Some (task_id, t) →
  ∃ t0, tasks s !! task_id = Some t0 ∧ is_pending t0
        ∧ t = set_processing instance_id now t0
        ∧ (get_next_pending_task instance_id now s).2
          = mkStore (<[task_id := t]> (tasks s)) (conversations s).
Proof.
  intros Hres.
  destruct (get_next_pending_task_cases instance_id now s)
    as [[_ Heq]|(k & t0 & Hk & Hpend & _ & Heq)];
    rewrite Heq in Hres |- *; simplify_eq/=.
  by exists t0.
Qed.

(** No claim hands out a row that is not pending. *)
Lemma get_next_pending_task_not_pending instance_id now s task_id t r :
  tasks s !! task_id = Some t → ¬ is_pending t →
  (get_next_pending_task instance_id now s).1 = Some r → r.1 ≠ task_id.
Proof.
  intros Hk Hnp Hres. destruct r as [k t'].
  apply get_next_pending_task_result in Hres as (t0 & Hk0 & Hpend & _).
  simpl. intros ->. by simplify_eq.
Qed.







(** ** Mutual exclusion of claims *)

Lemma NoDup_snd_unique {A B} (l : list (A * B)) a1 a2 b :
  NoDup l.*2 → (a1, b) ∈ l → (a2, b) ∈ l → a1 = a2.
Proof.
  induction l as [|[a b'] l IH]; simpl; intros Hnd H1 H2.
  { by apply elem_of_nil in H1. }
  apply NoDup_cons in Hnd as [Hfresh Hnd].
  assert (∀ a', (a', b) ∈ l → b ≠ b') as Hother.
  { intros a' Hin <-. destruct Hfresh.
    by apply (list_elem_of_fmap_2 snd _ (a', b)). }
  apply elem_of_cons in H1 as [H1|H1]; apply elem_of_cons in H2 as [H2|H2].
  - congruence.
  - destruct (Hother _ H2). congruence.
  - destruct (Hother _ H1). congruence.
  - by apply IH.
Qed.

Section exclusion.
Context (instance_of : nat → string).

Lemma sys_inv_init s : sys_inv instance_of (sys_init s).
Proof.
  split_and!; simpl.
  - constructor.
  - done.
  - intros w task_id Hin. by apply elem_of_nil in Hin.
Qed.

(** The owner of a task resolves it: the row changes to a row that is
    not pending and keeps the owner; the worker polls again. *)
Lemma sys_inv_resolve σ w task_id (f : Task → Task) t :
  sys_inv instance_of σ → at_worker σ w = Owning task_id →
  tasks (db σ) !! task_id = Some t →
  ¬ is_pending (f t) → ¬ is_processing (f t) →
  t_processing_instance_id (f t) = t_processing_instance_id t →
  sys_inv instance_of (mkSystem (mkStore (<[task_id := f t]> (tasks (db σ)))
                             (conversations (db σ)))
                    (row_locks σ) (<[w := Polling]> (at_worker σ)) (claimed σ)).
Proof.
  intros (Hnd & Hown & Hcl) Hat Hk Hnp Hnr Howner.
  destruct (Hown _ _ Hat) as [Hin _].
  split_and!; simpl; [done|..].
  - intros w' k Hat'. destruct (decide (w' = w)) as [->|Hne].
    { by rewrite fn_lookup_insert in Hat'. }
    rewrite fn_lookup_insert_ne in Hat' by done.
    destruct (Hown _ _ Hat') as [Hin' Hrow]. split; [done|].
    rewrite lookup_insert_ne; [done|]. intros <-.
    by destruct Hne; apply (NoDup_snd_unique _ _ _ _ Hnd Hin' Hin).
  - intros w' k Hin'. destruct (decide (k = task_id)) as [->|Hne].
    + rewrite lookup_insert_eq.
      assert (w' = w) as -> by apply (NoDup_snd_unique _ _ _ _ Hnd Hin' Hin).
      destruct (Hcl _ _ Hin) as (t' & Hk' & _ & Ho).
      assert (t' = t) as -> by congruence.
      exists (f t). split_and!; [done..|congruence].
    + rewrite lookup_insert_ne by done. by apply Hcl.
Qed.

Lemma sys_inv_step a σ σ' :
  sys_inv instance_of σ → sys_step instance_of a σ = Some σ' → sys_inv instance_of σ'.
Proof.
  intros Hinv Hstep. pose proof Hinv as (Hnd & Hown & Hcl).
  destruct a as [w|w now|w st now|w now|w now]; cbn [sys_step] in Hstep.
  - (* SELECT *)
    destruct (at_worker σ w) eqn:Hat; try done.
    destruct (select_next_pending _ _) as [k|]; simplify_eq; [|done].
    split_and!; simpl; [done| |done].
    intros w' k' Hat'. destruct (decide (w' = w)) as [->|Hne].
    + by rewrite fn_lookup_insert in Hat'.
    + rewrite fn_lookup_insert_ne in Hat' by done. by apply Hown.
  - (* UPDATE and COMMIT *)
    destruct (at_worker σ w) as [|k|] eqn:Hat; try done.
    assert (∀ w', (∃ t, tasks (db σ) !! k = Some t ∧ is_pending t) →
                  (w', k) ∉ claimed σ) as Hfresh.
    { intros w' (t & Hk & Hpend) Hin.
      destruct (Hcl _ _ Hin) as (t' & Hk' & Hnp & _). by simplify_eq. }
    destruct (decide (0 < (update_to_processing k (instance_of w) now
                             (tasks (db σ))).2)%nat) as [Hpos|Hzero].
    + pose proof Hpos as Hhit. unfold update_to_processing in Hhit.
      apply rowcount_pos in Hhit as (k' & t & Hk & -> & Hpend).
      destruct (update_to_processing_hit k (instance_of w) now _ _ Hk Hpend)
        as [Hts _].
      destruct (update_to_processing _ _ _ _) as [ts' rowcount]; simpl in *.
      rewrite decide_True in Hstep by done. subst ts'.
      injection Hstep as <-.
      assert (∀ w', (w', k) ∉ claimed σ) as Hfresh' by (intros w'; eauto).
      split_and!; simpl.
      * apply NoDup_cons. split; [|done].
        intros ([w' k''] & ? & Hin)%list_elem_of_fmap; simplify_eq/=.
        by apply (Hfresh' w').
      * intros w' k0 Hat'. destruct (decide (w' = w)) as [->|Hne].
        { rewrite fn_lookup_insert in Hat'. simplify_eq.
          split; [left|]. rewrite lookup_insert_eq. by eexists. }
        rewrite fn_lookup_insert_ne in Hat' by done.
        destruct (Hown _ _ Hat') as [Hin Hrow]. split; [by right|].
        rewrite lookup_insert_ne; [done|]. intros <-. by apply (Hfresh' w').
      * intros w' k0 [Heq|Hin]%elem_of_cons.
        { simplify_eq. rewrite lookup_insert_eq. by eexists. }
        rewrite lookup_insert_ne; [by apply Hcl|].
        intros <-. by apply (Hfresh' w').
    + pose proof Hzero as Hts. unfold update_to_processing in Hts.
      apply (rowcount_zero _ (set_processing (instance_of w) now)) in Hts.
      fold (update_to_processing k (instance_of w) now (tasks (db σ))) in Hts.
      destruct (update_to_processing _ _ _ _) as [ts' rowcount]; simpl in *.
      rewrite decide_False in Hstep by done. subst ts'.
      injection Hstep as <-.
      split_and!; simpl; [done| |done].
      intros w' k' Hat'. destruct (decide (w' = w)) as [->|Hne].
      { by rewrite fn_lookup_insert in Hat'. }
      rewrite fn_lookup_insert_ne in Hat' by done. by apply Hown.
  - (* bulk update of the conversations *)
    destruct (at_worker σ w) as [| |k] eqn:Hat; try done. simplify_eq.
    rewrite update_conversations_by_task_unfold. by split_and!.
  - (* complete_task *)
    destruct (at_worker σ w) as [| |k] eqn:Hat; try done. simplify_eq.
    destruct (Hown _ _ Hat) as [_ (t & Hk & Hproc & Howner)].
    assert ((complete_task k (instance_of w) now (db σ)).1 = true) as Hok.
    { apply complete_task_true. by exists t. }
    rewrite (complete_task_hit _ _ _ _ t) by done.
    by apply sys_inv_resolve.
  - (* fail_task *)
    destruct (at_worker σ w) as [| |k] eqn:Hat; try done. simplify_eq.
    destruct (Hown _ _ Hat) as [_ (t & Hk & Hproc & Howner)].
    assert ((fail_task k (instance_of w) now (db σ)).1 = true) as Hok.
    { apply fail_task_true. by exists t. }
    rewrite (fail_task_hit _ _ _ _ t) by done.
    by apply sys_inv_resolve.
Qed.

Lemma sys_inv_run schedule σ σ' :
  sys_inv instance_of σ → sys_run instance_of schedule σ = Some σ' → sys_inv instance_of σ'.
Proof.
  revert σ. induction schedule as [|a schedule IH]; intros σ Hinv; simpl.
  { by intros [= <-]. }
  destruct (sys_step instance_of a σ) as [σ1|] eqn:Hstep; simpl; [|done].
  apply IH. by eapply sys_inv_step.
Qed.

(** A worker alone on the store: its SELECT and UPDATE do what
    [get_next_pending_task] does. *)
Lemma sys_claim_alone w now s :
  ∃ σ, sys_claim instance_of w now (sys_init s) = Some σ
       ∧ db σ = (get_next_pending_task (instance_of w) now s).2
       ∧ claimed σ
         = match (get_next_pending_task (instance_of w) now s).1 with
           | Some (task_id, _) => [(w, task_id)]
           | None => []
           end.
Proof.
  unfold sys_claim.
  cbn [sys_step sys_init at_worker row_locks db claimed].
  rewrite dom_empty_L, get_next_pending_task_unfold.
  destruct (select_next_pending ∅ (tasks s)) as [k|] eqn:Hsel;
    cbn [mbind option_bind sys_step at_worker row_locks db claimed].
  - apply select_next_pending_Some in Hsel as (t & Hk & Hpend & _).
    destruct (update_to_processing_hit k (instance_of w) now _ _ Hk Hpend)
      as [Hts Hpos].
    rewrite fn_lookup_insert. cbv zeta.
    destruct (update_to_processing _ _ _ _) as [ts' rc]; simpl in Hts, Hpos.
    cbn [fst snd]. rewrite !decide_True by done.
    eexists. split; [done|]. simpl. by rewrite Hts, lookup_insert_eq.
  - eexists. by split.
Qed.
End exclusion.

(** C1. Whatever the order in which the database executes the statements
    of the workers, no task is handed out twice by
    [get_next_pending_task]: two workers never both claim one task id, at
    no time do two workers hold the same task, every task handed out
    bears the [processing_instance_id] of the one worker it was handed to,
    and the worker holding a task finds it [processing] under its own id. *)
Theorem claim_mutual_exclusion instance_of schedule s σ :
  sys_run instance_of schedule (sys_init s) = Some σ →
  NoDup (claimed σ).*2
  ∧ (∀ w1 w2 task_id,
       (w1, task_id) ∈ claimed σ → (w2, task_id) ∈ claimed σ → w1 = w2)
  ∧ (∀ w1 w2 task_id,
       at_worker σ w1 = Owning task_id → at_worker σ w2 = Owning task_id →
       w1 = w2)
  ∧ (∀ w task_id, (w, task_id) ∈ claimed σ →
       ∃ t, tasks (db σ) !! task_id = Some t ∧ ¬ is_pending t
            ∧ t_processing_instance_id t = Some (instance_of w))
  ∧ (∀ w task_id, at_worker σ w = Owning task_id →
       ∃ t, tasks (db σ) !! task_id = Some t
            ∧ t_status t = Some "processing"
            ∧ t_processing_instance_id t = Some (instance_of w)).
Proof.
  intros Hrun.
  destruct (sys_inv_run instance_of schedule _ _ (sys_inv_init instance_of s) Hrun)
    as (Hnd & Hown & Hcl).
  split_and!; [done| | |done|].
  - intros w1 w2 k. by apply NoDup_snd_unique.
  - intros w1 w2 k [H1 _]%Hown [H2 _]%Hown. by eapply NoDup_snd_unique.
  - intros w k Hat. by destruct (Hown _ _ Hat).
Qed.

(** * Worked scenarios *)

Example demo_claims_in_creation_order :
  (λ r : option (Z * Task), fst <$> r)
    <$> (claim_repeatedly "X" [100; 101; 102; 103] demo_store).1
  = [Some 2; Some 3; Some 1; None].
Proof. by vm_compute. Qed.

(** The end-to-end scenario: the worker claims task 2, sets both of its
    conversations to [processed] and completes the task; the conversation
    of task 1 is not touched. *)
Example demo_end_to_end :
  let out := worker_iteration "X" quiet_env demo_store in
  out.1 = Processed 2 true
  ∧ tasks out.2 !! 2
    = Some (mkTask "import" (Some "nightly") (Some "completed") 10 50 (Some 50)
                   (Some "X"))
  ∧ c_status <$> conversations out.2 !! 7 = Some (Some "processed")
  ∧ c_status <$> conversations out.2 !! 8 = Some (Some "processed")
  ∧ c_status <$> conversations out.2 !! 9 = Some (Some "active").
Proof. by vm_compute. Qed.

(** The late fault: [complete_task] raises after the bulk update. *)
Example demo_late_fault :
  let out := worker_iteration "X" late_fault_env late_fault_store in
  out.1 = Processed 1 false
  ∧ t_status <$> tasks out.2 !! 1 = Some (Some "failed")
  ∧ c_status <$> conversations out.2 !! 7 = Some (Some "processed")
  ∧ c_status <$> conversations late_fault_store !! 7 = Some (Some "active").
Proof. by vm_compute. Qed.

Example demo_update_with_null :
  (update_task NoFault 2 (mkTaskUpdate None (Some None) None) 60 demo_store).1
  = Returned (Some (2, mkTask "import" None (Some "pending") 10 60 None None,
                    conversations_of 2 demo_store))
  ∧ (update_task NoFault 2 (mkTaskUpdate (Some None) None None) 60 demo_store)
    = (Raised, demo_store)
  ∧ (update_task NoFault 5 (mkTaskUpdate (Some (Some "x")) None None) 60 demo_store)
    = (Returned None, demo_store).
Proof. by vm_compute. Qed.

(** A status of 50 characters followed by spaces is stored without the
    spaces, and returned with them. *)
Example demo_update_with_spaces :
  ∃ r cs s',
    update_task NoFault 2
      (mkTaskUpdate None None
         (Some (Some "a-status-that-has-no-more-than-fifty-characters-in  ")))
      60 demo_store
    = (Returned (Some (2, r, cs)), s')
    ∧ t_status r = Some "a-status-that-has-no-more-than-fifty-characters-in  "
    ∧ t_status <$> tasks s' !! 2
      = Some (Some "a-status-that-has-no-more-than-fifty-characters-in").
Proof. do 3 eexists. split_and!; by vm_compute. Qed.

(** Sent a second time, such a status is written a second time. *)
Example demo_update_with_spaces_again :
  let u := mkTaskUpdate None None
             (Some (Some "a-status-that-has-no-more-than-fifty-characters-in  ")) in
  let s1 := (update_task NoFault 2 u 60 demo_store).2 in
  let s2 := (update_task NoFault 2 u 70 s1).2 in
  t_updated_at <$> tasks s1 !! 2 = Some 60
  ∧ t_updated_at <$> tasks s2 !! 2 = Some 70.
Proof. by vm_compute. Qed.

(** An id beyond the range of [Integer], and a status of 51 characters. *)
Example demo_update_refused :
  update_task NoFault 2147483648 (mkTaskUpdate None None (Some (Some "done"))) 60
    demo_store
  = (Raised, demo_store)
  ∧ update_task NoFault 2 (mkTaskUpdate None None (Some (Some long_status))) 60
      demo_store
    = (Raised, demo_store)
  ∧ delete_task 2147483648 demo_store = (Raised, demo_store)
  ∧ get_task 2147483648 demo_store = Raised.
Proof. by vm_compute. Qed.

(** The reload of [update_task] fails: the update is written. *)
Example demo_update_reload_fault :
  ∃ s', update_task FaultAfterCommit 2 (mkTaskUpdate None None (Some (Some "done")))
          60 demo_store
        = (Raised, s')
        ∧ t_status <$> tasks s' !! 2 = Some (Some "done").
Proof. eexists. split; by vm_compute. Qed.

(** The SELECT after the commit of the claim fails: the loop sleeps 10
    seconds, and task 2 stays [processing]. *)
Example demo_claim_reload_fault :
  let e := mkEnv (λ c, match c with CallClaimReload => true | _ => false end)
                 (λ _, 50) in
  let out := worker_iteration "X" e demo_store in
  out.1 = ErrorSleep 10
  ∧ tasks out.2 !! 2
    = Some (mkTask "import" (Some "nightly") (Some "processing") 10 50 None
                   (Some "X")).
Proof. by vm_compute. Qed.

Example race_claims : claimed race_final = [(0%nat, 2); (1%nat, 3)].
Proof. by vm_compute. Qed.

Lemma claim_mutual_exclusion_witness :
  sys_run race_ids race_schedule (sys_init demo_store) = Some race_final
  ∧ NoDup (claimed race_final).*2
  ∧ ∀ w1 w2 task_id,
      (w1, task_id) ∈ claimed race_final → (w2, task_id) ∈ claimed race_final →
      w1 = w2.
Proof.
  assert (sys_run race_ids race_schedule (sys_init demo_store) = Some race_final)
    as Hrun by (vm_compute; reflexivity).
  split; [exact Hrun|].
  destruct (claim_mutual_exclusion race_ids race_schedule demo_store race_final Hrun)
    as (Hnd & Hone & _).
  exact (conj Hnd Hone).
Defined.

Lemma terminal_state_immutable_witness :
  tasks done_store !! 2 = Some done_task
  ∧ (is_terminal done_task →
     ∀ ops, tasks (run_engine_ops ops done_store) !! 2 = Some done_task).
Proof.
  assert (tasks done_store !! 2 = Some done_task) as Hk by (vm_compute; reflexivity).
  split; [exact Hk|].
  exact (proj1 (terminal_state_immutable done_store 2 done_task Hk)).
Defined.



(** While worker 0 stands between its SELECT and its UPDATE, the claim of
    worker 1 skips the locked task 2 (created at 10, still pending) and
    hands out task 3 (created at 20). *)
Example race_skips_locked_row :
  ∃ σ σ', sys_run race_ids [DoSelect 0] (sys_init demo_store) = Some σ
          ∧ sys_claim race_ids 1 101 σ = Some σ'
          ∧ claimed σ' = [(1%nat, 3)]
          ∧ t_status <$> tasks (db σ) !! 2 = Some (Some "pending")
          ∧ t_created_at <$> tasks (db σ) !! 2 = Some 10
          ∧ t_created_at <$> tasks (db σ) !! 3 = Some 20.
Proof. do 2 eexists. by vm_compute. Qed.

(** C5 as stated, for the claims of concurrent workers, does not hold: a
    claim can hand out a task although an older task is pending. *)
Lemma claim_not_always_earliest :
  ¬ (∀ instance_of schedule s σ w now σ' task_id,
       sys_run instance_of schedule (sys_init s) = Some σ →
       sys_claim instance_of w now σ = Some σ' →
       claimed σ' = (w, task_id) :: claimed σ →
       ∃ t, tasks (db σ) !! task_id = Some t ∧ is_pending t
            ∧ ∀ k r, tasks (db σ) !! k = Some r → is_pending r →
                     t_created_at t ≤ t_created_at r).
Proof.
  intros Hclaim.
  destruct (Hclaim race_ids [DoSelect 0] demo_store
              (default (sys_init demo_store)
                 (sys_run race_ids [DoSelect 0] (sys_init demo_store)))
              1%nat 101
              (default (sys_init demo_store)
                 (sys_run race_ids [DoSelect 0; DoSelect 1; DoUpdateCommit 1 101]
                    (sys_init demo_store)))
              3)
    as (t & Hk & _ & Hmin).
  - by vm_compute.
  - by vm_compute.
  - by vm_compute.
  - vm_compute in Hk. injection Hk as <-.
    specialize (Hmin 2 (mkTask "import" (Some "nightly") (Some "pending")
                               10 10 None None)).
    assert (20 ≤ 10); [|lia].
    apply Hmin; by vm_compute.
Qed.

(** * Further properties *)

(** ** Creating tasks and conversations *)

Lemma stored_conversation_fits task_id now c :
  conversation_fits c →
  stored_conversation task_id now c = Some (new_conversation task_id now c).
Proof.
  intros [Hc Hs]. unfold stored_conversation.
  by rewrite pg_text_fits, pg_varchar_fits.
Qed.

Lemma stored_conversation_task_id task_id now c row :
  stored_conversation task_id now c = Some row → c_task_id row = task_id.
Proof.
  unfold stored_conversation. intros Hrow.
  destruct (pg_text _); simpl in Hrow; [|done].
  destruct (pg_varchar _ _); simpl in Hrow; [|done]. by simplify_eq.
Qed.

Lemma stored_task_fits task now :
  task_create_fits task →
  stored_task task now
  = Some (mkTask (tc_title task) (tc_description task) (Some "pending")
                 now now None None).
Proof.
  intros (Ht & Hd & _). unfold stored_task. rewrite pg_varchar_fits by done. simpl.
  destruct (tc_description task) as [x|]; simpl; [|done].
  by rewrite pg_text_fits by by apply Hd.
Qed.

Lemma insert_conversations_Some task_id now new_ids cs : ∀ i tbl tbl',
  insert_conversations task_id now new_ids i cs tbl = Some tbl' →
  (∀ j cc, cs !! j = Some cc →
           int32 (new_ids (i + j)%nat)
           ∧ ∃ row, stored_conversation task_id now cc = Some row
                    ∧ tbl' !! new_ids (i + j)%nat = Some row)
  ∧ (∀ k c, tbl !! k = Some c → tbl' !! k = Some c)
  ∧ (∀ k c, tbl' !! k = Some c →
            tbl !! k = Some c
            ∨ ∃ j cc, cs !! j = Some cc ∧ k = new_ids (i + j)%nat
                      ∧ stored_conversation task_id now cc = Some c)
  ∧ size tbl' = (size tbl + length cs)%nat.
Proof.
  induction cs as [|c0 cs IH]; intros i tbl tbl'; simpl.
  { intros [= <-]. split_and!; [done|done|by left|lia]. }
  case_decide as Hid; [|done].
  destruct (tbl !! new_ids i) eqn:Hfree; [done|].
  destruct (stored_conversation task_id now c0) as [row0|] eqn:Hrow0; [|done].
  simpl. intros Hins.
  destruct (IH _ _ _ Hins) as (Hnew & Hold & Hinv & Hsize).
  split_and!.
  - intros [|j] cc Hj; simpl in Hj.
    + simplify_eq. rewrite Nat.add_0_r. split; [done|].
      exists row0. split; [done|]. apply Hold. apply lookup_insert_eq.
    + replace (i + S j)%nat with (S i + j)%nat by lia. by apply Hnew.
  - intros k c Hk. apply Hold. rewrite lookup_insert_ne; [done|].
    intros <-. congruence.
  - intros k c Hk. destruct (Hinv _ _ Hk) as [Hk'|(j & cc & Hj & -> & Hrow)].
    + destruct (decide (k = new_ids i)) as [->|Hne].
      * rewrite lookup_insert_eq in Hk'. simplify_eq.
        right. exists 0%nat, c0. by rewrite Nat.add_0_r.
      * rewrite lookup_insert_ne in Hk' by done. by left.
    + right. exists (S j), cc.
      by replace (i + S j)%nat with (S i + j)%nat by lia.
  - rewrite Hsize, map_size_insert_None by done. lia.
Qed.

Lemma insert_conversations_is_Some task_id now new_ids cs : ∀ i tbl,
  Forall conversation_fits cs →
  (∀ j, (j < length cs)%nat →
        int32 (new_ids (i + j)%nat) ∧ tbl !! new_ids (i + j)%nat = None) →
  (∀ j1 j2, (j1 < length cs)%nat → (j2 < length cs)%nat →
            new_ids (i + j1)%nat = new_ids (i + j2)%nat → j1 = j2) →
  is_Some (insert_conversations task_id now new_ids i cs tbl).
Proof.
  induction cs as [|c0 cs IH]; intros i tbl Hfits Hfresh Hinj; simpl; [by eexists|].
  apply Forall_cons in Hfits as [Hfit0 Hfits].
  destruct (Hfresh 0%nat) as [Hid Hfree]; [simpl; lia|].
  rewrite Nat.add_0_r in Hid, Hfree.
  rewrite decide_True, Hfree, stored_conversation_fits by done. simpl.
  apply IH; [done|..].
  - intros j Hj. replace (S i + j)%nat with (i + S j)%nat by lia.
    destruct (Hfresh (S j)) as [Hidj Hfreej]; [simpl; lia|].
    split; [done|]. rewrite lookup_insert_ne; [done|].
    intros Heq. rewrite <- (Nat.add_0_r i) in Heq at 1.
    apply Hinj in Heq; simpl; lia.
  - intros j1 j2 Hj1 Hj2 Heq.
    replace (S i + j1)%nat with (i + S j1)%nat in Heq by lia.
    replace (S i + j2)%nat with (i + S j2)%nat in Heq by lia.
    apply Hinj in Heq; simpl; lia.
Qed.


Lemma session_conversations_lookup task_id now new_ids cs : ∀ i k c,
  session_conversations task_id now new_ids i cs !! k = Some c →
  ∃ j cc, cs !! j = Some cc ∧ k = new_ids (i + j)%nat
          ∧ c = new_conversation task_id now cc.
Proof.
  induction cs as [|c0 cs IH]; intros i k c; simpl; [by rewrite lookup_empty|].
  destruct (decide (k = new_ids i)) as [->|Hne].
  - rewrite lookup_insert_eq. intros [= <-]. exists 0%nat, c0.
    by rewrite Nat.add_0_r.
  - rewrite lookup_insert_ne by done. intros Hk.
    destruct (IH _ _ _ Hk) as (j & cc & Hj & -> & ->).
    exists (S j), cc. by replace (i + S j)%nat with (S i + j)%nat by lia.
Qed.

(** What [create_task] does when the database accepts every row. *)
Lemma create_task_unfold fault new_id new_ids task now s row cs convs' :
  fault ≠ FaultBeforeCommit → int32 new_id → tasks s !! new_id = None →
  stored_task task now = Some row → tc_conversations task = Some cs →
  insert_conversations new_id now new_ids 0 cs (conversations s) = Some convs' →
  let s' := mkStore (<[new_id := row]> (tasks s)) convs' in
  create_task fault new_id new_ids task now s
  = (if decide (fault = FaultAfterCommit) then Raised
     else Returned (new_id,
                    mkTask (tc_title task) (tc_description task) (Some "pending")
                           now now None None,
                    session_conversations new_id now new_ids 0 cs
                    ∪ conversations_of new_id s'),
     s').
Proof.
  intros Hfault Hid Hnew Hrow Hcs Hins s'. unfold create_task.
  rewrite decide_False by tauto. rewrite Hnew, Hrow, Hcs, Hins.
  by case_decide.
Qed.

(** [create_task] for a request whose values fit, with fresh ids. *)
Lemma create_task_fits new_id new_ids task cs now s :
  int32 new_id →
  tasks s !! new_id = None →
  tc_conversations task = Some cs →
  task_create_fits task →
  fresh_ids new_ids (length cs) s →
  let t := mkTask (tc_title task) (tc_description task) (Some "pending")
                  now now None None in
  ∃ convs',
    insert_conversations new_id now new_ids 0 cs (conversations s) = Some convs'
    ∧ (∀ j cc, cs !! j = Some cc →
         convs' !! new_ids j = Some (new_conversation new_id now cc))
    ∧ create_task NoFault new_id new_ids task now s
      = (Returned (new_id, t,
                   conversations_of new_id
                     (mkStore (<[new_id := t]> (tasks s)) convs')),
         mkStore (<[new_id := t]> (tasks s)) convs').
Proof.
  intros Hid Hnew Hcs Hfits [Hfresh Hinj] t.
  pose proof Hfits as (_ & _ & Hcfits). specialize (Hcfits cs Hcs).
  destruct (insert_conversations_is_Some new_id now new_ids cs 0 (conversations s))
    as [convs' Hins]; [done..|].
  destruct (insert_conversations_Some _ _ _ _ _ _ _ Hins) as (Hcreated & _).
  assert (∀ j cc, cs !! j = Some cc →
            convs' !! new_ids j = Some (new_conversation new_id now cc)) as Hrows.
  { intros j cc Hj. destruct (Hcreated j cc Hj) as (_ & row & Hrow & Hk).
    simpl in Hk. rewrite stored_conversation_fits in Hrow; [congruence|].
    eapply Forall_forall; [done|]. by eapply list_elem_of_lookup_2. }
  exists convs'. split_and!; [done..|].
  assert (session_conversations new_id now new_ids 0 cs
          ∪ conversations_of new_id (mkStore (<[new_id := t]> (tasks s)) convs')
          = conversations_of new_id (mkStore (<[new_id := t]> (tasks s)) convs'))
    as Hsession.
  { apply map_subseteq_union, map_subseteq_spec. intros k c Hk.
    apply session_conversations_lookup in Hk as (j & cc & Hj & -> & ->).
    apply sql_where_lookup. split; [by apply Hrows|done]. }
  rewrite (create_task_unfold _ _ _ _ _ _ t cs convs');
    [|done..|by apply stored_task_fits|done|done].
  rewrite decide_False by done. by rewrite Hsession.
Qed.

(** X1.  When the database answers, hands out ids that are [Integer]s
    and that the tables do not hold, and the title, the description and
    the conversations of the request are values that their columns store
    as they are, [create_task] returns the new task: [pending], without
    owner and [processed_at], stamped with [NOW()]; it adds one
    conversation per entry of the request, each belonging to the new task,
    with status [active] where the request sent none; no existing task
    or conversation is changed; and when no stored conversation pointed
    to the new id, the conversations returned with the task are exactly
    the ones created. *)
Theorem create_task_creates new_id new_ids task cs now s :
  int32 new_id →
  tasks s !! new_id = None →
  tc_conversations task = Some cs →
  task_create_fits task →
  fresh_ids new_ids (length cs) s →
  let t := mkTask (tc_title task) (tc_description task) (Some "pending")
                  now now None None in
  let s' := (create_task NoFault new_id new_ids task now s).2 in
  (create_task NoFault new_id new_ids task now s).1
    = Returned (new_id, t, conversations_of new_id s')
  ∧ tasks s' = <[new_id := t]> (tasks s)
  ∧ get_task new_id s' = Returned (Some (new_id, t, conversations_of new_id s'))
  ∧ (∀ j cc, cs !! j = Some cc →
       conversations s' !! new_ids j
       = Some (mkConversation new_id (cc_content cc)
                 (Some (default "active" (cc_status cc))) now now))
  ∧ (∀ k c, conversations s !! k = Some c → conversations s' !! k = Some c)
  ∧ size (conversations s') = (size (conversations s) + length cs)%nat
  ∧ (conversations_of new_id s = ∅ →
     size (conversations_of new_id s') = length cs).
Proof.
  intros Hid Hnew Hcs Hfits Hfresh t s'.
  destruct (create_task_fits new_id new_ids task cs now s Hid Hnew Hcs Hfits Hfresh)
    as (convs' & Hins & Hrows & Hcreate).
  fold t in Hcreate. destruct Hfresh as [Hfresh Hinj].
  destruct (insert_conversations_Some _ _ _ _ _ _ _ Hins)
    as (Hcreated & Hold & Hinv & Hsize).
  subst s'. rewrite Hcreate; cbn [fst snd tasks conversations].
  split_and!; try done.
  - unfold get_task; simpl. rewrite decide_True by done.
    by rewrite lookup_insert_eq.
  - intros Hnone.
    assert (NoDup (imap (λ j cc, (new_ids j, new_conversation new_id now cc)) cs).*1)
      as Hnd.
    { rewrite fmap_imap. apply NoDup_alt. intros j1 j2 id.
      rewrite !list_lookup_imap, !fmap_Some.
      intros (c1 & Hj1 & ->) (c2 & Hj2 & Heq); simpl in Heq.
      apply Hinj; [by eapply lookup_lt_Some..|done]. }
    assert (conversations_of new_id (mkStore (<[new_id := t]> (tasks s)) convs')
            = list_to_map (imap (λ j cc, (new_ids j, new_conversation new_id now cc)) cs))
      as ->.
    { apply map_eq; intros k. apply option_eq; intros c.
      unfold conversations_of; rewrite sql_where_lookup; simpl.
      rewrite <- elem_of_list_to_map by done.
      rewrite elem_of_lookup_imap. split.
      - intros [Hk Hbel]. destruct (Hinv _ _ Hk) as [Hk'|(j & cc & Hj & -> & Hrow)].
        + assert (conversations_of new_id s !! k = Some c) as Hin
            by by apply sql_where_lookup.
          rewrite Hnone in Hin. by rewrite lookup_empty in Hin.
        + exists j, cc. split; [|done]. simpl.
          pose proof (Hrows j cc Hj) as Hk'. simpl in Hk. congruence.
      - intros (j & cc & [= -> ->] & Hj). split; [by apply (Hrows j cc)|done]. }
    rewrite map_size_list_to_map by done. by rewrite length_imap.
Qed.


Lemma create_conversation_unfold fault new_id conversation task_id now s t c :
  fault ≠ FaultBeforeCommit → int32 new_id → int32 task_id →
  conversations s !! new_id = None → tasks s !! task_id = Some t →
  stored_conversation task_id now conversation = Some c →
  create_conversation fault new_id conversation task_id now s
  = (if decide (fault = FaultAfterCommit) then Raised else Returned (new_id, c),
     mkStore (tasks s) (<[new_id := c]> (conversations s))).
Proof.
  intros Hfault Hid Htid Hfree Ht Hc. unfold create_conversation.
  rewrite decide_False by tauto. rewrite Hfree, Ht, Hc. by case_decide.
Qed.

(** X3.  [create_conversation] raises, and writes nothing, when the task
    does not exist ([task_id] is a foreign key), when an id is no
    [Integer], when the database fails before the commit, and when a
    column refuses the content or the status.  For an existing task, an
    id the table does not hold, and a content and status that their
    columns store as they are, it adds exactly one conversation: it
    belongs to the task, has the content of the request and the requested
    status ([active] when the request sent none), shows up in
    [get_conversations_by_task], and the task's conversation count grows
    by one; every other row is as before.  The conversation is returned,
    unless the refresh that follows the commit fails. *)
Theorem create_conversation_checks_task fault new_id conversation task_id now s :
  (tasks s !! task_id = None ∨ ¬ int32 task_id ∨ ¬ int32 new_id
   ∨ fault = FaultBeforeCommit
   ∨ stored_conversation task_id now conversation = None →
   create_conversation fault new_id conversation task_id now s = (Raised, s))
  ∧ (fault ≠ FaultBeforeCommit → int32 task_id → int32 new_id →
     is_Some (tasks s !! task_id) → conversations s !! new_id = None →
     conversation_fits conversation →
     let c := mkConversation task_id (cc_content conversation)
                (Some (default "active" (cc_status conversation))) now now in
     let s' := (create_conversation fault new_id conversation task_id now s).2 in
     (create_conversation fault new_id conversation task_id now s).1
       = (if decide (fault = FaultAfterCommit) then Raised else Returned (new_id, c))
     ∧ tasks s' = tasks s
     ∧ conversations s' = <[new_id := c]> (conversations s)
     ∧ (new_id, c) ∈ get_conversations_by_task task_id s'
     ∧ conversation_count task_id s' = S (conversation_count task_id s)
     ∧ (∀ other, other ≠ task_id →
          conversations_of other s' = conversations_of other s)).
Proof.
  split.
  - unfold create_conversation. intros Hbad.
    case_decide as Hdec; [done|].
    destruct (conversations s !! new_id); [done|].
    destruct (tasks s !! task_id) eqn:Ht; [|done].
    destruct (stored_conversation _ _ _) eqn:Hc; [|done].
    destruct Hbad as [?|[?|[?|[?|?]]]]; try done; tauto.
  - intros Hfault Htid Hid [t Ht] Hfree Hfits.
    rewrite (create_conversation_unfold _ _ _ _ _ _ t
               (new_conversation task_id now conversation))
      by (try done; by apply stored_conversation_fits).
    cbn [fst snd].
    set (c := mkConversation _ _ _ _ _).
    change (new_conversation task_id now conversation) with c.
    assert (conversations_of task_id
              (mkStore (tasks s) (<[new_id := c]> (conversations s)))
            = <[new_id := c]> (conversations_of task_id s)) as Hof.
    { unfold conversations_of, sql_where; simpl.
      by rewrite map_filter_insert_True. }
    split_and!; try done.
    + unfold get_conversations_by_task. rewrite merge_sort_Permutation.
      apply elem_of_map_to_list. rewrite Hof. apply lookup_insert_eq.
    + rewrite !conversation_count_size, Hof.
      apply map_size_insert_None.
      unfold conversations_of, sql_where. apply map_lookup_filter_None. by left.
    + intros other Hne. unfold conversations_of, sql_where; simpl.
      rewrite map_filter_insert_not'; [done| |intros y Hy; congruence].
      simpl. unfold belongs_to. simpl. congruence.
Qed.

(** ** Listing tasks and conversations *)

Global Instance newer_first_trans : Transitive newer_first.
Proof. unfold newer_first. intros a b c. lia. Qed.
Global Instance newer_first_total : Total newer_first.
Proof. unfold newer_first. intros a b. lia. Qed.
Global Instance older_first_trans : Transitive older_first.
Proof. unfold older_first. intros a b c. lia. Qed.
Global Instance older_first_total : Total older_first.
Proof. unfold older_first. intros a b. lia. Qed.


Lemma get_tasks_unfold skip limit s :
  0 ≤ skip → 0 ≤ limit →
  get_tasks skip limit s
  = Returned (take (Z.to_nat limit) (drop (Z.to_nat skip) (task_rows s))).
Proof. intros. unfold get_tasks. rewrite decide_False; [done|lia]. Qed.

Lemma task_rows_elem s k t n :
  (k, t, n) ∈ task_rows s ↔ tasks s !! k = Some t ∧ n = conversation_count k s.
Proof.
  unfold task_rows. rewrite list_elem_of_fmap. split.
  - intros ([k' t'] & [= -> -> ->] & Hin).
    rewrite merge_sort_Permutation in Hin.
    by apply elem_of_map_to_list in Hin.
  - intros [Hk ->]. exists (k, t). split; [done|].
    rewrite merge_sort_Permutation. by apply elem_of_map_to_list.
Qed.

Lemma task_rows_length s : length (task_rows s) = size (tasks s).
Proof.
  unfold task_rows.
  by rewrite length_fmap, merge_sort_Permutation, length_map_to_list.
Qed.


Lemma task_rows_NoDup s : NoDup (task_rows s).*1.*1.
Proof.
  assert ((task_rows s).*1.*1 = (merge_sort newer_first (map_to_list (tasks s))).*1)
    as ->.
  { unfold task_rows. generalize (merge_sort newer_first (map_to_list (tasks s))).
    intros l. induction l as [|x l IH]; [done|]. csimpl. by f_equal. }
  rewrite merge_sort_Permutation. apply NoDup_fst_map_to_list.
Qed.







(** X5.  [get_conversations_by_task] returns exactly the conversations
    whose [task_id] is the given id, each once, oldest first; their
    number is the count that [get_tasks] reports for the task. *)
Theorem get_conversations_by_task_lists task_id s :
  (∀ k c, (k, c) ∈ get_conversations_by_task task_id s ↔
          conversations s !! k = Some c ∧ c_task_id c = task_id)
  ∧ NoDup (get_conversations_by_task task_id s).*1
  ∧ StronglySorted (λ a b, c_created_at a.2 ≤ c_created_at b.2)
      (get_conversations_by_task task_id s)
  ∧ length (get_conversations_by_task task_id s) = conversation_count task_id s.
Proof.
  unfold get_conversations_by_task. split_and!.
  - intros k c. rewrite merge_sort_Permutation, elem_of_map_to_list.
    exact (sql_where_lookup (belongs_to task_id) (conversations s) k c).
  - rewrite merge_sort_Permutation. apply NoDup_fst_map_to_list.
  - apply (StronglySorted_merge_sort older_first).
  - by rewrite merge_sort_Permutation, length_map_to_list, conversation_count_size.
Qed.

(** ** One iteration of the worker *)

Lemma worker_iteration_unfold instance_id e s :
  worker_iteration instance_id e s =
  if raises e CallClaim then (ErrorSleep 10, s)
  else
    let claim := get_next_pending_task instance_id (now_at e CallClaim) s in
    match claim.1 with
    | None => (IdleSleep 5, claim.2)
    | Some (task_id, _) =>
        let failing (s0 : Store) :=
          if raises e CallFail then (ErrorSleep 10, s0)
          else (Processed task_id false,
                (fail_task task_id instance_id (now_at e CallFail) s0).2) in
        if raises e CallClaimReload then (ErrorSleep 10, claim.2)
        else if raises e CallSleep then failing claim.2
        else if raises e CallBulkUpdate then failing claim.2
        else
          let s2 := (update_conversations_by_task task_id "processed"
                       (now_at e CallBulkUpdate) claim.2).2 in
          if raises e CallComplete then failing s2
          else (Processed task_id
                  (complete_task task_id instance_id (now_at e CallComplete) s2).1,
                (complete_task task_id instance_id (now_at e CallComplete) s2).2)
    end.
Proof.
  unfold worker_iteration, process_task.
  cbv [mbind W_bind mret W_ret await await_claim try_except].
  destruct (raises e CallClaim); [done|].
  destruct (get_next_pending_task _ _ _) as [[[task_id t]|] s1]; cbn [fst snd]; [|done].
  destruct (raises e CallClaimReload); [done|].
  destruct (raises e CallSleep).
  { destruct (raises e CallFail); [done|]. by destruct (fail_task _ _ _ _). }
  destruct (update_conversations_by_task _ _ _ _) as [n s2]; cbn [fst snd].
  destruct (raises e CallBulkUpdate).
  { destruct (raises e CallFail); [done|]. by destruct (fail_task _ _ _ _). }
  destruct (raises e CallComplete).
  { destruct (raises e CallFail); [done|]. by destruct (fail_task _ _ _ _). }
  destruct (complete_task _ _ _ _) as [[|] s3]; done.
Qed.

(** The store after an iteration is the store after some engine
    operations of the worker. *)
Lemma worker_iteration_engine instance_id e s :
  ∃ ops, (worker_iteration instance_id e s).2 = run_engine_ops ops s.
Proof.
  rewrite worker_iteration_unfold.
  destruct (raises e CallClaim); [by exists []|]. cbv zeta.
  set (n0 := now_at e CallClaim).
  destruct (get_next_pending_task instance_id n0 s).1 as [[task_id t]|] eqn:Hres.
  2: { by exists [OpClaim instance_id n0]. }
  destruct (raises e CallClaimReload); [by exists [OpClaim instance_id n0]|].
  destruct (raises e CallSleep).
  { destruct (raises e CallFail).
    - by exists [OpClaim instance_id n0].
    - by exists [OpClaim instance_id n0;
                 OpFail task_id instance_id (now_at e CallFail)]. }
  destruct (raises e CallBulkUpdate).
  { destruct (raises e CallFail).
    - by exists [OpClaim instance_id n0].
    - by exists [OpClaim instance_id n0;
                 OpFail task_id instance_id (now_at e CallFail)]. }
  destruct (raises e CallComplete).
  { destruct (raises e CallFail).
    - by exists [OpClaim instance_id n0;
                 OpBulkUpdate task_id "processed" (now_at e CallBulkUpdate)].
    - by exists [OpClaim instance_id n0;
                 OpBulkUpdate task_id "processed" (now_at e CallBulkUpdate);
                 OpFail task_id instance_id (now_at e CallFail)]. }
  by exists [OpClaim instance_id n0;
             OpBulkUpdate task_id "processed" (now_at e CallBulkUpdate);
             OpComplete task_id instance_id (now_at e CallComplete)].
Qed.

Lemma update_conversations_by_task_tasks task_id status now s :
  tasks (update_conversations_by_task task_id status now s).2 = tasks s.
Proof. by rewrite update_conversations_by_task_unfold. Qed.

Lemma complete_task_conversations task_id instance_id now s :
  conversations (complete_task task_id instance_id now s).2 = conversations s.
Proof. by rewrite complete_task_unfold. Qed.

Lemma fail_task_conversations task_id instance_id now s :
  conversations (fail_task task_id instance_id now s).2 = conversations s.
Proof. by rewrite fail_task_unfold. Qed.

Lemma get_next_pending_task_conversations instance_id now s :
  conversations (get_next_pending_task instance_id now s).2 = conversations s.
Proof.
  by destruct (get_next_pending_task_cases instance_id now s)
    as [[_ ->]|(k & t & _ & _ & _ & ->)].
Qed.

(** The owner of a processing task resolves it. *)
Lemma owner_completes task_id instance_id now s t :
  tasks s !! task_id = Some t → is_processing t →
  t_processing_instance_id t = Some instance_id →
  complete_task task_id instance_id now s
  = (true, mkStore (<[task_id := set_completed now t]> (tasks s)) (conversations s)).
Proof.
  intros Hk Hproc Hown.
  assert ((complete_task task_id instance_id now s).1 = true) as Hok.
  { apply complete_task_true. by exists t. }
  rewrite <- (complete_task_hit _ _ _ _ _ Hk Hok), <- Hok.
  by destruct (complete_task _ _ _ _).
Qed.

Lemma owner_fails task_id instance_id now s t :
  tasks s !! task_id = Some t → is_processing t →
  t_processing_instance_id t = Some instance_id →
  fail_task task_id instance_id now s
  = (true, mkStore (<[task_id := set_failed now t]> (tasks s)) (conversations s)).
Proof.
  intros Hk Hproc Hown.
  assert ((fail_task task_id instance_id now s).1 = true) as Hok.
  { apply fail_task_true. by exists t. }
  rewrite <- (fail_task_hit _ _ _ _ _ Hk Hok), <- Hok.
  by destruct (fail_task _ _ _ _).
Qed.


(** The rows an iteration leaves behind: at most the row of one task
    that was pending is replaced, and at most the conversations of that
    task are set to [processed]. *)
Lemma worker_iteration_writes instance_id e s :
  (worker_iteration instance_id e s).2 = s
  ∨ ∃ task_id t t',
      tasks s !! task_id = Some t ∧ is_pending t ∧ ¬ is_pending t'
      ∧ t_title t' = t_title t ∧ t_description t' = t_description t
      ∧ t_created_at t' = t_created_at t
      ∧ tasks (worker_iteration instance_id e s).2 = <[task_id := t']> (tasks s)
      ∧ (conversations (worker_iteration instance_id e s).2 = conversations s
         ∨ ∃ now,
             conversations (worker_iteration instance_id e s).2
             = (sql_update (belongs_to task_id)
                  (set_conversation_status "processed" now) (conversations s)).1).
Proof.
  rewrite worker_iteration_unfold.
  destruct (raises e CallClaim); [by left|]. cbv zeta.
  destruct (get_next_pending_task_cases instance_id (now_at e CallClaim) s)
    as [[Hno ->]|(task_id & t & Hk & Hpend & Hmin & ->)]; cbn [fst snd].
  { by left. }
  right. exists task_id, t.
  set (t1 := set_processing instance_id (now_at e CallClaim) t).
  set (s1 := mkStore (<[task_id := t1]> (tasks s)) (conversations s)).
  set (s2 := (update_conversations_by_task task_id "processed"
                (now_at e CallBulkUpdate) s1).2).
  assert (tasks s1 !! task_id = Some t1) as Hk1 by apply lookup_insert_eq.
  assert (tasks s2 = tasks s1) as Hts2.
  { subst s2. by rewrite update_conversations_by_task_tasks. }
  assert (tasks s2 !! task_id = Some t1) as Hk2 by by rewrite Hts2.
  assert (conversations s2
          = (sql_update (belongs_to task_id)
               (set_conversation_status "processed" (now_at e CallBulkUpdate))
               (conversations s)).1) as Hcs2 by done.
  destruct (raises e CallClaimReload).
  { cbn [snd]. exists t1. split_and!; try done. by left. }
  destruct (raises e CallSleep).
  { destruct (raises e CallFail); cbn [snd].
    - exists t1. split_and!; try done. by left.
    - rewrite (owner_fails _ _ _ _ t1) by done. cbn [snd].
      exists (set_failed (now_at e CallFail) t1). split_and!; try done.
      + simpl. apply insert_insert_eq.
      + by left. }
  destruct (raises e CallBulkUpdate).
  { destruct (raises e CallFail); cbn [snd].
    - exists t1. split_and!; try done. by left.
    - rewrite (owner_fails _ _ _ _ t1) by done. cbn [snd].
      exists (set_failed (now_at e CallFail) t1). split_and!; try done.
      + simpl. apply insert_insert_eq.
      + by left. }
  destruct (raises e CallComplete).
  { destruct (raises e CallFail); cbn [snd].
    - exists t1. split_and!; try done. right. by eexists.
    - rewrite (owner_fails _ _ _ _ t1) by done. cbn [snd].
      exists (set_failed (now_at e CallFail) t1). split_and!; try done.
      + simpl. rewrite ?Hts2. apply insert_insert_eq.
      + right. by eexists. }
  rewrite (owner_completes _ _ _ _ t1) by done. cbn [snd].
  exists (set_completed (now_at e CallComplete) t1). split_and!; try done.
  - simpl. rewrite ?Hts2. apply insert_insert_eq.
  - right. by eexists.
Qed.

Lemma worker_iteration_settled instance_id e s k t :
  tasks s !! k = Some t → ¬ is_pending t →
  tasks (worker_iteration instance_id e s).2 !! k = Some t.
Proof.
  intros Hk Hnp.
  destruct (worker_iteration_writes instance_id e s)
    as [->|(task_id & t0 & t' & Hk0 & Hpend & _ & _ & _ & _ & -> & _)]; [done|].
  rewrite lookup_insert_ne; [done|]. intros <-. by simplify_eq.
Qed.

(** X7.  One iteration of the worker, whatever raises in it, changes at
    most one task, and only a task that was pending; it adds and removes
    no task and no conversation, and never changes a title, a
    description, a content or a [created_at]; a conversation changes only
    by becoming [processed], and only if it belongs to the task that the
    iteration changed. *)
Theorem worker_iteration_frame instance_id e s :
  let s' := (worker_iteration instance_id e s).2 in
  (∀ k t, tasks s !! k = Some t → ¬ is_pending t → tasks s' !! k = Some t)
  ∧ (∀ k1 k2, tasks s' !! k1 ≠ tasks s !! k1 → tasks s' !! k2 ≠ tasks s !! k2 →
              k1 = k2)
  ∧ (∀ k t, tasks s !! k = Some t →
       ∃ t', tasks s' !! k = Some t' ∧ t_title t' = t_title t
             ∧ t_description t' = t_description t
             ∧ t_created_at t' = t_created_at t)
  ∧ (∀ k, tasks s !! k = None → tasks s' !! k = None)
  ∧ (∀ k c, conversations s !! k = Some c →
       ∃ c', conversations s' !! k = Some c' ∧ c_task_id c' = c_task_id c
             ∧ c_content c' = c_content c ∧ c_created_at c' = c_created_at c
             ∧ (c' = c
                ∨ c_status c' = Some "processed"
                  ∧ tasks s' !! c_task_id c ≠ tasks s !! c_task_id c))
  ∧ (∀ k, conversations s !! k = None → conversations s' !! k = None).
Proof.
  intros s'. subst s'.
  destruct (worker_iteration_writes instance_id e s)
    as [->|(task_id & t & t' & Hk & Hpend & Hnp & Ht & Hd & Hc & -> & Hconv)].
  { split_and!; try done.
    - intros k t Hk. by exists t.
    - intros k c Hk. exists c. split_and!; try done. by left. }
  assert (<[task_id := t']> (tasks s) !! task_id ≠ tasks s !! task_id) as Hchanged.
  { rewrite lookup_insert_eq, Hk. intros [= ->]. done. }
  split_and!.
  - intros k t0 Hk0 Hnp0. rewrite lookup_insert_ne; [done|]. intros <-.
    by simplify_eq.
  - intros k1 k2 H1 H2.
    destruct (decide (k1 = task_id)) as [->|Hne1];
      [|by rewrite lookup_insert_ne in H1].
    destruct (decide (k2 = task_id)) as [->|Hne2];
      [done|by rewrite lookup_insert_ne in H2].
  - intros k t0 Hk0. destruct (decide (k = task_id)) as [->|Hne].
    + rewrite lookup_insert_eq. simplify_eq. by exists t'.
    + rewrite lookup_insert_ne by done. by exists t0.
  - intros k Hk0. rewrite lookup_insert_ne; [done|]. intros <-. congruence.
  - intros k c Hc0. destruct Hconv as [->|[now ->]].
    { exists c. split_and!; try done. by left. }
    rewrite sql_update_lookup, Hc0; simpl.
    case_decide as Hbel.
    + eexists. split; [done|]. split_and!; try done.
      right. split; [done|]. unfold belongs_to in Hbel. by rewrite Hbel.
    + exists c. split_and!; try done. by left.
  - intros k Hc0. destruct Hconv as [->|[now ->]]; [done|].
    by rewrite sql_update_lookup, Hc0.
Qed.

Lemma run_engine_op_spares instance_id task_id op s t :
  tasks s !! task_id = Some t → is_processing t →
  t_processing_instance_id t = Some instance_id →
  spares instance_id task_id op →
  tasks (run_engine_op op s) !! task_id = Some t.
Proof.
  intros Hk Hproc Hown Hspare.
  assert (¬ is_pending t) as Hnp.
  { unfold is_pending, is_processing in *. rewrite Hproc. by intros [=]. }
  destruct op as [iid now|tid iid now|tid iid now|tid st now];
    cbn [run_engine_op spares] in *.
  - destruct (get_next_pending_task_cases iid now s)
      as [[_ ->]|(k & t0 & Hk0 & Hpend & _ & ->)]; simpl; [done|].
    rewrite lookup_insert_ne; [done|]. intros ->. by simplify_eq.
  - rewrite complete_task_unfold; cbn [fst snd tasks].
    rewrite sql_update_lookup, Hk; simpl.
    case_decide as Hguard; [|done].
    destruct Hguard as (-> & Hown' & _). destruct Hspare. split; congruence.
  - rewrite fail_task_unfold; cbn [fst snd tasks].
    rewrite sql_update_lookup, Hk; simpl.
    case_decide as Hguard; [|done].
    destruct Hguard as (-> & Hown' & _). destruct Hspare. split; congruence.
  - by rewrite update_conversations_by_task_tasks.
Qed.

(** X8.  There is no lease on a claim.  A task that is [processing]
    under an instance id keeps its row, in every column, through any
    claim operations, any bulk updates and any [complete_task] or
    [fail_task] that is not made for this task with this instance id;
    through any iterations of any workers, those of its owner included;
    and no claim hands it out. *)
Theorem processing_task_has_no_lease instance_id task_id s t :
  tasks s !! task_id = Some t →
  is_processing t →
  t_processing_instance_id t = Some instance_id →
  (∀ ops, Forall (spares instance_id task_id) ops →
          tasks (run_engine_ops ops s) !! task_id = Some t)
  ∧ (∀ workers : list (string * Env),
       tasks (foldl (λ s w, (worker_iteration w.1 w.2 s).2) s workers) !! task_id
       = Some t)
  ∧ (∀ other now r, (get_next_pending_task other now s).1 = Some r →
                    r.1 ≠ task_id).
Proof.
  intros Hk Hproc Hown.
  assert (¬ is_pending t) as Hnp.
  { unfold is_pending, is_processing in *. rewrite Hproc. by intros [=]. }
  split_and!.
  - intros ops. revert s Hk. induction ops as [|op ops IH]; intros s Hk Hall; [done|].
    apply Forall_cons in Hall as [Hop Hall]. simpl. apply IH; [|done].
    by apply (run_engine_op_spares instance_id).
  - intros workers. revert s Hk.
    induction workers as [|w workers IH]; intros s Hk; [done|].
    simpl. apply IH.
    by apply worker_iteration_settled.
  - intros other now r. by apply (get_next_pending_task_not_pending _ _ _ _ t).
Qed.

(** ** The worker loop *)

Lemma worker_loop_cons instance_id e envs s :
  worker_loop instance_id (e :: envs) s
  = ((worker_iteration instance_id e s).1
       :: (worker_loop instance_id envs (worker_iteration instance_id e s).2).1,
     (worker_loop instance_id envs (worker_iteration instance_id e s).2).2).
Proof.
  simpl. destruct (worker_iteration _ _ _) as [t s']; simpl.
  by destruct (worker_loop _ _ _).
Qed.

(** An iteration in which nothing raises: idle, or the oldest pending
    task is claimed, its conversations are processed and it is completed. *)
Lemma worker_iteration_quiet instance_id e s :
  quiet e →
  ((∀ k t, tasks s !! k = Some t → ¬ is_pending t)
   ∧ worker_iteration instance_id e s = (IdleSleep 5, s))
  ∨ ∃ task_id t,
      tasks s !! task_id = Some t ∧ is_pending t
      ∧ (∀ k r, tasks s !! k = Some r → is_pending r →
                t_created_at t ≤ t_created_at r)
      ∧ worker_iteration instance_id e s
        = (Processed task_id true,
           mkStore
             (<[task_id := set_completed (now_at e CallComplete)
                             (set_processing instance_id (now_at e CallClaim) t)]>
                (tasks s))
             (sql_update (belongs_to task_id)
                (set_conversation_status "processed" (now_at e CallBulkUpdate))
                (conversations s)).1).
Proof.
  intros Hquiet. rewrite worker_iteration_unfold, !Hquiet. cbv zeta.
  destruct (get_next_pending_task_cases instance_id (now_at e CallClaim) s)
    as [[Hno ->]|(task_id & t & Hk & Hpend & Hmin & ->)]; cbn [fst snd].
  { by left. }
  right. exists task_id, t. split_and!; try done.
  set (t1 := set_processing instance_id (now_at e CallClaim) t).
  rewrite (owner_completes _ _ _ _ t1); cbn [fst snd]; try done.
  - rewrite update_conversations_by_task_unfold; cbn [snd tasks conversations].
    by rewrite insert_insert_eq.
  - rewrite update_conversations_by_task_tasks. apply lookup_insert_eq.
Qed.

Lemma pending_tasks_replace s task_id t' cs :
  ¬ is_pending t' →
  pending_tasks (mkStore (<[task_id := t']> (tasks s)) cs)
  = delete task_id (pending_tasks s).
Proof.
  intros Hnp. apply map_eq; intros k.
  destruct (decide (k = task_id)) as [->|Hne].
  - rewrite lookup_delete_eq.
    destruct (pending_tasks _ !! task_id) as [t0|] eqn:Hin; [|done].
    apply pending_tasks_lookup in Hin as [Hk Hpend]; simpl in Hk.
    rewrite lookup_insert_eq in Hk. by simplify_eq.
  - rewrite lookup_delete_ne by done. apply option_eq; intros t0.
    rewrite !pending_tasks_lookup; simpl. by rewrite lookup_insert_ne.
Qed.

(** X9.  A worker whose calls never raise, run for at least as many
    iterations as there are pending tasks, reports the pending tasks as
    processed in the order of [created_at] and then sleeps 5 in every
    further iteration; at the end every task that was pending is
    [completed] under the worker's id with [processed_at] set, every
    conversation of such a task is [processed], and every other task and
    conversation is as it was. *)
Theorem worker_loop_drains instance_id envs : ∀ s,
  Forall quiet envs →
  (size (pending_tasks s) ≤ length envs)%nat →
  (∃ rows,
     rows ≡ₚ map_to_list (pending_tasks s)
     ∧ StronglySorted created_before rows
     ∧ (worker_loop instance_id envs s).1
       = (((λ r : Z * Task, Processed r.1 true) <$> rows)
            ++ replicate (length envs - length rows) (IdleSleep 5))%list)
  ∧ (∀ k t, tasks s !! k = Some t → is_pending t →
       ∃ t', tasks (worker_loop instance_id envs s).2 !! k = Some t'
             ∧ t_status t' = Some "completed"
             ∧ t_processing_instance_id t' = Some instance_id
             ∧ is_Some (t_processed_at t'))
  ∧ (∀ k t, tasks s !! k = Some t → ¬ is_pending t →
       tasks (worker_loop instance_id envs s).2 !! k = Some t)
  ∧ (∀ k, tasks s !! k = None →
       tasks (worker_loop instance_id envs s).2 !! k = None)
  ∧ (∀ k c t, conversations s !! k = Some c →
       tasks s !! c_task_id c = Some t → is_pending t →
       ∃ c', conversations (worker_loop instance_id envs s).2 !! k = Some c'
             ∧ c_status c' = Some "processed" ∧ c_content c' = c_content c
             ∧ c_task_id c' = c_task_id c)
  ∧ (∀ k c, conversations s !! k = Some c →
       (∀ t, tasks s !! c_task_id c = Some t → ¬ is_pending t) →
       conversations (worker_loop instance_id envs s).2 !! k = Some c).
Proof.
  induction envs as [|e envs IH]; intros s Hquiet Hsize.
  { simpl in *. assert (pending_tasks s = ∅) as Hnone.
    { apply map_size_empty_iff. lia. }
    split_and!; try done.
    - exists []. rewrite Hnone, map_to_list_empty. split_and!; [done|constructor|done].
    - intros k t Hk Hpend.
      assert (pending_tasks s !! k = Some t) as Hin by by apply pending_tasks_lookup.
      rewrite Hnone in Hin. by rewrite lookup_empty in Hin.
    - intros k c t Hc Hk Hpend.
      assert (pending_tasks s !! c_task_id c = Some t) as Hin
        by by apply pending_tasks_lookup.
      rewrite Hnone in Hin. by rewrite lookup_empty in Hin. }
  apply Forall_cons in Hquiet as [He Hquiet].
  rewrite worker_loop_cons; cbn [fst snd].
  destruct (worker_iteration_quiet instance_id e s He)
    as [[Hno ->]|(task_id & t & Hk & Hpend & Hmin & ->)]; cbn [fst snd].
  { assert (pending_tasks s = ∅) as Hnone by by apply pending_tasks_empty.
    destruct (IH s Hquiet) as ((rows & Hperm & Hsorted & Hticks) & Hrest).
    { rewrite Hnone, map_size_empty. lia. }
    split; [|done].
    rewrite Hnone, map_to_list_empty in Hperm.
    apply Permutation_nil_r in Hperm as ->.
    exists []. rewrite Hnone, map_to_list_empty.
    split_and!; [done|constructor|].
    rewrite Hticks. simpl. by rewrite Nat.sub_0_r. }
  set (t' := set_completed _ _).
  set (cs' := (sql_update _ _ _).1).
  set (s1 := mkStore (<[task_id := t']> (tasks s)) cs').
  assert (¬ is_pending t') as Hnp' by done.
  assert (pending_tasks s !! task_id = Some t) as Hin
    by by apply pending_tasks_lookup.
  assert (pending_tasks s1 = delete task_id (pending_tasks s)) as Hpend1
    by by apply pending_tasks_replace.
  destruct (IH s1 Hquiet)
    as ((rows & Hperm & Hsorted & Hticks) & Hdone & Hkept & Habsent & Hconv & Hckept).
  { rewrite Hpend1, map_size_delete, Hin. simpl in Hsize. lia. }
  assert (tasks (worker_loop instance_id envs s1).2 !! task_id = Some t') as Hmine.
  { apply Hkept; [apply lookup_insert_eq|done]. }
  split_and!.
  - exists ((task_id, t) :: rows). split_and!.
    + rewrite <- (map_to_list_delete _ _ _ Hin). constructor.
      by rewrite Hperm, Hpend1.
    + constructor; [done|]. apply Forall_forall. intros [k r] Hr.
      rewrite Hperm, Hpend1 in Hr.
      apply elem_of_map_to_list, lookup_delete_Some in Hr as [_ Hr].
      apply pending_tasks_lookup in Hr as [Hr Hrp].
      unfold created_before; simpl. by eapply Hmin.
    + by rewrite Hticks.
  - intros k r Hr Hrp. destruct (decide (k = task_id)) as [->|Hne].
    + exists t'. split_and!; [done..|by eexists].
    + apply (Hdone k r); [|done]. subst s1; simpl. by rewrite lookup_insert_ne.
  - intros k r Hr Hrp. apply Hkept; [|done].
    subst s1; simpl. rewrite lookup_insert_ne; [done|]. intros <-. by simplify_eq.
  - intros k Hr. apply Habsent. subst s1; simpl.
    rewrite lookup_insert_ne; [done|]. intros <-. congruence.
  - intros k c r Hc Hr Hrp.
    assert (conversations s1 !! k
            = Some (if decide (belongs_to task_id k c)
                    then set_conversation_status "processed"
                           (now_at e CallBulkUpdate) c
                    else c)) as Hc1.
    { subst s1 cs'; cbn [conversations]. by rewrite sql_update_lookup, Hc. }
    case_decide as Hbel.
    + unfold belongs_to in Hbel.
      exists (set_conversation_status "processed" (now_at e CallBulkUpdate) c).
      split; [|done].
      apply Hckept; [done|]. simpl. rewrite Hbel.
      intros r' Hr'. subst s1; simpl in Hr'. rewrite lookup_insert_eq in Hr'.
      by simplify_eq.
    + unfold belongs_to in Hbel.
      apply (Hconv k c r); [done| |done].
      subst s1; simpl. by rewrite lookup_insert_ne.
  - intros k c Hc Hall.
    assert (c_task_id c ≠ task_id) as Hne.
    { intros Heq. rewrite Heq in Hall. by destruct (Hall _ Hk). }
    apply Hckept.
    + subst s1 cs'; cbn [conversations]. rewrite sql_update_lookup, Hc; simpl.
      by rewrite decide_False.
    + intros r Hr. subst s1; simpl in Hr.
      rewrite lookup_insert_ne in Hr by done. by apply Hall.
Qed.


(** ** Referential integrity *)

Lemma no_orphans_lookup s :
  no_orphans s ↔
  ∀ k c, conversations s !! k = Some c → is_Some (tasks s !! c_task_id c).
Proof. unfold no_orphans. by rewrite map_Forall_lookup. Qed.

Lemma run_engine_op_conversation op s k c' :
  conversations (run_engine_op op s) !! k = Some c' →
  ∃ c, conversations s !! k = Some c ∧ c_task_id c' = c_task_id c.
Proof.
  destruct op as [iid now|tid iid now|tid iid now|tid st now]; cbn [run_engine_op].
  - rewrite get_next_pending_task_conversations. by exists c'.
  - rewrite complete_task_conversations. by exists c'.
  - rewrite fail_task_conversations. by exists c'.
  - rewrite update_conversations_by_task_lookup.
    intros (c & Hc & ->)%fmap_Some. exists c. split; [done|]. by case_decide.
Qed.

Lemma run_engine_op_no_orphans op s :
  no_orphans s → no_orphans (run_engine_op op s).
Proof.
  rewrite !no_orphans_lookup. intros Hs k c' Hc'.
  apply run_engine_op_conversation in Hc' as (c & Hc & ->).
  destruct (Hs _ _ Hc) as [t Ht].
  destruct (run_engine_op_task op s _ _ Ht) as (t' & Ht' & _). by eexists.
Qed.

Lemma run_engine_ops_no_orphans ops s :
  no_orphans s → no_orphans (run_engine_ops ops s).
Proof.
  revert s. induction ops as [|op ops IH]; intros s Hs; [done|].
  simpl. by apply IH, run_engine_op_no_orphans.
Qed.

Lemma run_store_call_no_orphans call s :
  no_orphans s → no_orphans (run_store_call call s).
Proof.
  intros Hs. pose proof (proj1 (no_orphans_lookup s) Hs) as Hfk.
  destruct call as [fault new_id ids task now|fault tid u now|tid
                   |fault new_id conv tid now|fault cid u now|op|iid e];
    cbn [run_store_call].
  - (* create_task *)
    unfold create_task. case_decide; [done|].
    destruct (tasks s !! new_id) eqn:Hnew; [done|].
    destruct (stored_task task now) as [row|]; [|done].
    destruct (tc_conversations task) as [cs|]; [|done].
    destruct (insert_conversations _ _ _ _ _ _) as [convs'|] eqn:Hins; [|done].
    assert (no_orphans (mkStore (<[new_id := row]> (tasks s)) convs')) as Hs'.
    { apply no_orphans_lookup; simpl. intros k c Hc.
      destruct (insert_conversations_Some _ _ _ _ _ _ _ Hins) as (_ & _ & Hinv & _).
      destruct (Hinv _ _ Hc) as [Hold|(j & cc & _ & _ & Hrow)].
      - destruct (Hfk _ _ Hold) as [t Ht].
        destruct (decide (c_task_id c = new_id)) as [Heq|Hne].
        { rewrite Heq in Ht. congruence. }
        rewrite lookup_insert_ne by done. by eexists.
      - rewrite (stored_conversation_task_id _ _ _ _ Hrow), lookup_insert_eq.
        by eexists. }
    by case_decide.
  - (* update_task *)
    unfold update_task. case_decide; [done|].
    destruct (tasks s !! tid) as [t|] eqn:Ht; [|done].
    destruct (flush_task _ _ _) as [t'|]; [|done].
    assert (no_orphans (mkStore (<[tid := t']> (tasks s)) (conversations s))) as Hs'.
    { apply no_orphans_lookup; simpl. intros k c Hc.
      destruct (decide (c_task_id c = tid)) as [Heq|Hne].
      - rewrite Heq, lookup_insert_eq. by eexists.
      - rewrite lookup_insert_ne by done. by eapply Hfk. }
    by case_decide.
  - (* delete_task *)
    unfold delete_task. case_decide; [|done].
    destruct (tasks s !! tid) as [t|] eqn:Ht; [|done]. simpl.
    apply no_orphans_lookup; simpl. intros k c Hc.
    apply sql_where_lookup in Hc as [Hc Hnot].
    rewrite lookup_delete_ne; [by eapply Hfk|].
    intros Heq. by destruct Hnot.
  - (* create_conversation *)
    unfold create_conversation. case_decide; [done|].
    destruct (conversations s !! new_id) eqn:Hnew; [done|].
    destruct (tasks s !! tid) as [t|] eqn:Ht; [|done].
    destruct (stored_conversation tid now conv) as [row|] eqn:Hrow; [|done].
    assert (no_orphans (mkStore (tasks s) (<[new_id := row]> (conversations s))))
      as Hs'.
    { apply no_orphans_lookup; simpl. intros k c Hc.
      destruct (decide (k = new_id)) as [->|Hne].
      - rewrite lookup_insert_eq in Hc. simplify_eq.
        rewrite (stored_conversation_task_id _ _ _ _ Hrow). by eexists.
      - rewrite lookup_insert_ne in Hc by done. by eapply Hfk. }
    by case_decide.
  - (* update_conversation *)
    unfold update_conversation. case_decide; [done|].
    destruct (conversations s !! cid) as [c0|] eqn:Hc0; [|done].
    pose proof (flush_conversation_cases now u c0) as Hcases.
    destruct (flush_conversation _ _ _) as [c1|]; [|done].
    destruct Hcases as (_ & _ & Htid & _).
    assert (no_orphans (mkStore (tasks s) (<[cid := c1]> (conversations s)))) as Hs'.
    { apply no_orphans_lookup; simpl. intros k c Hc.
      destruct (decide (k = cid)) as [->|Hne].
      - rewrite lookup_insert_eq in Hc. simplify_eq. rewrite Htid. by eapply Hfk.
      - rewrite lookup_insert_ne in Hc by done. by eapply Hfk. }
    by case_decide.
  - by apply run_engine_op_no_orphans.
  - destruct (worker_iteration_engine iid e s) as [ops ->].
    by apply run_engine_ops_no_orphans.
Qed.

(** X10.  No call leaves a conversation without its task: if every
    conversation belongs to a stored task, this is still so after any
    sequence of [create_task], [update_task], [delete_task],
    [create_conversation], [update_conversation], engine operations and
    worker iterations, whatever raises in them and wherever the database
    fails. *)
Theorem no_orphans_invariant calls s :
  no_orphans s → no_orphans (run_store_calls calls s).
Proof.
  revert s. induction calls as [|call calls IH]; intros s Hs; [done|].
  simpl. by apply IH, run_store_call_no_orphans.
Qed.

(** ** The endpoints *)


Lemma respond_task_Ok r body :
  respond_task r = Ok200 body ↔ task_response r = Some body.
Proof. unfold respond_task. destruct (task_response r); naive_solver. Qed.

Lemma respond_task_500 r :
  respond_task r = ServerError500 ↔ t_status r.1.2 = None.
Proof.
  unfold respond_task, task_response.
  destruct (t_status r.1.2); simpl; naive_solver.
Qed.

Lemma conversations_of_after_delete task_id k s :
  k ≠ task_id →
  conversations_of k
    (mkStore (delete task_id (tasks s))
       (sql_where (λ k c, ¬ belongs_to task_id k c) (conversations s)))
  = conversations_of k s.
Proof.
  intros Hne. apply map_eq; intros i. apply option_eq; intros c.
  unfold conversations_of; simpl. rewrite !sql_where_lookup.
  unfold belongs_to. split.
  - by intros [[Hc _] Hbel].
  - intros [Hc Hbel]. split_and!; [done| |done]. congruence.
Qed.

Lemma get_task_unfold task_id s :
  int32 task_id →
  get_task task_id s
  = Returned ((λ t, (task_id, t, conversations_of task_id s)) <$> tasks s !! task_id).
Proof. intros Hid. unfold get_task. by rewrite decide_True. Qed.

Lemma get_task_endpoint_found task_id s t :
  int32 task_id → tasks s !! task_id = Some t →
  main.get_task task_id s = respond_task (task_id, t, conversations_of task_id s).
Proof. intros Hid Hk. unfold main.get_task. by rewrite get_task_unfold, Hk. Qed.

Lemma get_task_endpoint_missing task_id s :
  int32 task_id → tasks s !! task_id = None →
  main.get_task task_id s = NotFound404 "Task not found".
Proof. intros Hid Hk. unfold main.get_task. by rewrite get_task_unfold, Hk. Qed.


Lemma task_list_entry_None row :
  task_list_entry row = None ↔ t_status row.1.2 = None.
Proof. unfold task_list_entry. destruct (t_status row.1.2); naive_solver. Qed.

Lemma get_tasks_endpoint_500 skip limit s rows :
  get_tasks skip limit s = Returned rows →
  main.get_tasks skip limit s = ServerError500 ↔
  ∃ row, row ∈ rows ∧ t_status row.1.2 = None.
Proof.
  intros Hrows. unfold main.get_tasks. rewrite Hrows.
  destruct (mapM task_list_entry rows) as [body|] eqn:Hmap.
  - split; [done|]. intros (row & Hin & Hnull).
    assert (mapM task_list_entry rows = None); [|congruence].
    apply mapM_None, Exists_exists. exists row.
    split; [done|]. by apply task_list_entry_None.
  - split; [|done]. intros _.
    apply mapM_None, Exists_exists in Hmap as (row & Hin & Hnone).
    exists row. split; [done|]. by apply task_list_entry_None.
Qed.


(** X13.  A status of [null] sent to [PUT /tasks/{task_id}] for an
    existing task, together with no title and description or with ones
    that their columns store as they are, is written to the task although
    the endpoint answers 500, because the response model has no place for
    it.  From then on [GET /tasks/{task_id}] answers 500, and so does
    every [GET /tasks/] whose page holds the task; and no claim hands the
    task out. *)
Theorem null_status_is_written task_id title description now s t :
  int32 task_id →
  tasks s !! task_id = Some t →
  task_update_fits (mkTaskUpdate title description (Some None)) →
  let out := main.update_task NoFault task_id
               (mkTaskUpdate title description (Some None)) now s in
  out.1 = ServerError500
  ∧ (∃ t', tasks out.2 !! task_id = Some t' ∧ t_status t' = None)
  ∧ main.get_task task_id out.2 = ServerError500
  ∧ (∀ limit, (size (tasks s) ≤ Z.to_nat limit)%nat → 0 ≤ limit →
       main.get_tasks 0 limit out.2 = ServerError500)
  ∧ (∀ instance_id now' r,
       (get_next_pending_task instance_id now' out.2).1 = Some r → r.1 ≠ task_id).
Proof.
  intros Hid Hk Hfits.
  assert (∃ t', t_status t' = None
                ∧ main.update_task NoFault task_id
                    (mkTaskUpdate title description (Some None)) now s
                  = (ServerError500,
                     mkStore (<[task_id := t']> (tasks s)) (conversations s)))
    as (t' & Hst & Hupd).
  { destruct (flush_task_fits now _ t Hfits) as (t' & Hflush & Hr & _ & _ & Hs & _).
    simpl in Hs. exists t'. split; [done|].
    unfold main.update_task. rewrite update_task_unfold, Hk, Hflush by done.
    rewrite decide_False by done. by cbn. }
  intros out. subst out. rewrite Hupd; cbn [fst snd].
  set (s' := mkStore _ _).
  assert (tasks s' !! task_id = Some t') as Hk' by apply lookup_insert_eq.
  split_and!.
  - done.
  - by exists t'.
  - rewrite (get_task_endpoint_found _ _ t') by done. by apply respond_task_500.
  - intros limit Hsize Hlimit.
    assert (size (tasks s') = size (tasks s)) as Hsame.
    { subst s'; simpl. rewrite <- (insert_delete_eq (tasks s)).
      rewrite map_size_insert_None by apply lookup_delete_eq.
      rewrite <- (insert_delete_id (tasks s) task_id t) at 2 by done.
      by rewrite map_size_insert_None by apply lookup_delete_eq. }
    eapply get_tasks_endpoint_500; [apply get_tasks_unfold; lia|].
    exists (task_id, t', conversation_count task_id s'). split; [|done].
    simpl. rewrite drop_0, take_ge by (rewrite task_rows_length; lia).
    by apply task_rows_elem.
  - intros instance_id now' r.
    apply (get_next_pending_task_not_pending _ _ _ _ t'); [done|].
    unfold is_pending. by rewrite Hst.
Qed.

(** X14.  After [DELETE /tasks/{task_id}] has answered 200, every
    endpoint that takes this task id answers 404, and [GET] of any other
    task answers what it answered before.  The id of the task is an
    [Integer]. *)
Theorem delete_then_not_found task_id s :
  int32 task_id →
  is_Some (tasks s !! task_id) →
  let out := main.delete_task task_id s in
  out.1 = Ok200 "Task deleted successfully"
  ∧ main.get_task task_id out.2 = NotFound404 "Task not found"
  ∧ main.get_conversations task_id out.2 = NotFound404 "Task not found"
  ∧ (∀ fault u now, fault ≠ FaultBeforeCommit →
       main.update_task fault task_id u now out.2
       = (NotFound404 "Task not found", out.2))
  ∧ main.delete_task task_id out.2 = (NotFound404 "Task not found", out.2)
  ∧ (∀ k, k ≠ task_id →
       main.get_task k out.2 = main.get_task k s
       ∧ main.get_conversations k out.2 = main.get_conversations k s).
Proof.
  intros Hid [t Hk] out. subst out.
  set (s' := mkStore (delete task_id (tasks s))
               (sql_where (λ k c, ¬ belongs_to task_id k c) (conversations s))).
  assert (main.delete_task task_id s = (Ok200 "Task deleted successfully", s'))
    as ->.
  { unfold main.delete_task, delete_task. by rewrite decide_True, Hk. }
  cbn [fst snd].
  assert (tasks s' !! task_id = None) as Hgone by apply lookup_delete_eq.
  split_and!.
  - done.
  - by apply get_task_endpoint_missing.
  - unfold main.get_conversations. by rewrite get_task_unfold, Hgone.
  - intros fault u now Hfault. unfold main.update_task.
    by rewrite update_task_unfold, Hgone.
  - unfold main.delete_task, delete_task. by rewrite decide_True, Hgone.
  - intros k Hne.
    assert (tasks s' !! k = tasks s !! k) as Hsame by by apply lookup_delete_ne.
    assert (conversations_of k s' = conversations_of k s) as Hconv
      by by apply conversations_of_after_delete.
    unfold main.get_task, main.get_conversations, get_task,
      get_conversations_by_task.
    by rewrite Hsame, Hconv.
Qed.

(** X15.  From request to result.  When no task is pending, a task
    created through [POST /tasks/] (the database answering, the ids it
    hands out being [Integer]s that the tables do not hold, and the
    values of the request being ones that their columns store as they
    are) is the task the next iteration of a worker processes (nothing
    raising): the iteration reports it as processed, and
    [GET /tasks/{task_id}] then answers 200 with status [completed],
    [processed_at] set, the title of the request, and every conversation
    of the request with status [processed] and its content. *)
Theorem created_task_is_processed new_id new_ids task cs now instance_id e s :
  int32 new_id →
  tasks s !! new_id = None →
  tc_conversations task = Some cs →
  task_create_fits task →
  fresh_ids new_ids (length cs) s →
  (∀ k t, tasks s !! k = Some t → ¬ is_pending t) →
  quiet e →
  let created := main.create_task NoFault task new_id new_ids now s in
  let out := worker_iteration instance_id e created.2 in
  (∃ body, created.1 = Ok200 body ∧ r_id body = new_id
           ∧ r_status body = "pending" ∧ r_processed_at body = None)
  ∧ out.1 = Processed new_id true
  ∧ ∃ body,
      main.get_task new_id out.2 = Ok200 body
      ∧ r_status body = "completed"
      ∧ r_processed_at body = Some (now_at e CallComplete)
      ∧ r_title body = tc_title task
      ∧ r_description body = tc_description task
      ∧ ∀ j cc, cs !! j = Some cc →
          ∃ c, r_conversations body !! new_ids j = Some c
               ∧ c_status c = Some "processed"
               ∧ c_content c = cc_content cc.
Proof.
  intros Hid Hnew Hcs Hfits Hfresh Hnone Hquiet created out.
  set (t := mkTask (tc_title task) (tc_description task) (Some "pending")
                   now now None None).
  destruct (create_task_fits new_id new_ids task cs now s Hid Hnew Hcs Hfits Hfresh)
    as (convs' & _ & Hcreated & Hret).
  fold t in Hret.
  set (s1 := mkStore (<[new_id := t]> (tasks s)) convs') in *.
  assert (created
          = (Ok200 (mkTaskResponse new_id (tc_title task) (tc_description task)
                      "pending" now now None (conversations_of new_id s1)), s1))
    as Hcreate.
  { subst created. unfold main.create_task. by rewrite Hret. }
  subst out. rewrite Hcreate; cbn [fst snd].
  split; [by eexists|].
  assert (tasks s1 !! new_id = Some t) as Hk1 by apply lookup_insert_eq.
  destruct (worker_iteration_quiet instance_id e s1 Hquiet)
    as [[Hno _]|(task_id & t0 & Hk0 & Hpend0 & _ & ->)].
  { by destruct (Hno _ _ Hk1). }
  assert (task_id = new_id) as ->.
  { destruct (decide (task_id = new_id)) as [|Hne]; [done|].
    subst s1; simpl in Hk0. rewrite lookup_insert_ne in Hk0 by done.
    by destruct (Hnone _ _ Hk0). }
  assert (t0 = t) as -> by congruence.
  cbn [fst snd]. split; [done|].
  rewrite (get_task_endpoint_found _ _
             (set_completed (now_at e CallComplete)
                (set_processing instance_id (now_at e CallClaim) t)))
    by (try done; cbn [tasks]; apply lookup_insert_eq).
  eexists. split; [reflexivity|]. simpl. split_and!; try done.
  intros j cc Hj. unfold conversations_of; cbn [conversations].
  exists (set_conversation_status "processed" (now_at e CallBulkUpdate)
            (new_conversation new_id now cc)).
  split; [|done].
  apply sql_where_lookup. split; [|done].
  pose proof (Hcreated j cc Hj) as Hc.
  rewrite map_lookup_imap, Hc; simpl. by rewrite decide_True.
Qed.

(** ** Repeating an update *)

Lemma supplied_or_kept_exact {A} (column : A → option A) field old new :
  supplied_or_kept column field old new →
  (∀ v, field = Some v → column v = Some new → new = v) →
  default old field = new ∧ default new field = new.
Proof.
  destruct field as [v|]; simpl; [|by intros ->].
  intros [Hcol|[-> ->]] Hexact; [|done].
  by rewrite (Hexact v eq_refl Hcol).
Qed.

Lemma pg_text_Some v x : pg_text v = Some x → x = v.
Proof. unfold pg_text. destruct (has_nul v); congruence. Qed.

Lemma not_truncated_Some n v x : not_truncated n v → pg_varchar n v = Some x → x = v.
Proof. intros [Hv|Hv] Hx; congruence. Qed.

Lemma pg_not_null_exact column v new :
  (∀ x y, v = Some x → column x = Some y → y = x) →
  pg_not_null column v = Some new → new = v.
Proof.
  intros Hexact. destruct v as [x|]; simpl; [|done].
  destruct (column x) as [y|] eqn:Hy; simpl; [|done].
  intros [= <-]. by rewrite (Hexact x y eq_refl Hy).
Qed.

Lemma pg_nullable_exact column v new :
  (∀ x y, v = Some x → column x = Some y → y = x) →
  pg_nullable column v = Some new → new = v.
Proof.
  intros Hexact. destruct v as [x|]; simpl; [|congruence].
  destruct (column x) as [y|] eqn:Hy; simpl; [|done].
  intros [= <-]. by rewrite (Hexact x y eq_refl Hy).
Qed.

(** The row that the flush of an update has written holds the supplied
    values, when [String(n)] has shortened none of them; a second flush
    of the same update finds nothing to write. *)
Lemma flush_task_again now u t t' :
  (∀ x, u_title u = Some (Some x) → not_truncated 255 x) →
  (∀ x, u_status u = Some (Some x) → not_truncated 50 x) →
  flush_task now t (apply_task_update u t) = Some t' →
  apply_task_update u t = task_attrs t' ∧ apply_task_update u t' = task_attrs t'.
Proof.
  intros Htitle Hstatus Hflush.
  pose proof (flush_task_cases now u t) as Hcases. rewrite Hflush in Hcases.
  destruct Hcases as (Ht & Hd & Hs & _).
  apply supplied_or_kept_exact in Ht as [Ht1 Ht2], Hd as [Hd1 Hd2], Hs as [Hs1 Hs2].
  - unfold apply_task_update, task_attrs. by rewrite Ht1, Ht2, Hd1, Hd2, Hs1, Hs2.
  - intros v Hv. apply pg_nullable_exact. intros x y -> Hy.
    by apply (not_truncated_Some 50); [apply Hstatus|].
  - intros v Hv. apply pg_nullable_exact. intros x y _. apply pg_text_Some.
  - intros v Hv. apply pg_not_null_exact. intros x y -> Hy.
    by apply (not_truncated_Some 255); [apply Htitle|].
Qed.

Lemma flush_conversation_again now u c c' :
  (∀ x, u_conv_status u = Some (Some x) → not_truncated 50 x) →
  flush_conversation now c (apply_conversation_update u c) = Some c' →
  apply_conversation_update u c' = conversation_attrs c'.
Proof.
  intros Hstatus Hflush.
  pose proof (flush_conversation_cases now u c) as Hcases. rewrite Hflush in Hcases.
  destruct Hcases as (Hc & Hs & _).
  apply supplied_or_kept_exact in Hc as [_ Hc2], Hs as [_ Hs2].
  - unfold apply_conversation_update, conversation_attrs. by rewrite Hc2, Hs2.
  - intros v Hv. apply pg_nullable_exact. intros x y -> Hy.
    by apply (not_truncated_Some 50); [apply Hstatus|].
  - intros v Hv. apply pg_not_null_exact. intros x y _. apply pg_text_Some.
Qed.

(** Whether a flush is refused does not depend on the time. *)
Lemma flush_task_refused_at now now' t a :
  flush_task now t a = None → flush_task now' t a = None.
Proof.
  unfold flush_task. case_decide; [done|].
  destruct (if decide (a_title a = Some (t_title t)) then _ else _); simpl; [|done].
  destruct (flush_column _ (t_description t) _); simpl; [|done].
  by destruct (flush_column _ (t_status t) _).
Qed.

Lemma flush_conversation_refused_at now now' c a :
  flush_conversation now c a = None → flush_conversation now' c a = None.
Proof.
  unfold flush_conversation. case_decide; [done|].
  destruct (if decide (a_content a = Some (c_content c)) then _ else _); simpl; [|done].
  by destruct (flush_column _ (c_status c) _).
Qed.

Lemma reloaded_task_attrs t : reloaded_task (task_attrs t) t = t.
Proof. by destruct t. Qed.

Lemma flush_task_same now t : flush_task now t (task_attrs t) = Some t.
Proof. unfold flush_task. by rewrite decide_True. Qed.

Lemma flush_conversation_same now c :
  flush_conversation now c (conversation_attrs c) = Some c.
Proof. unfold flush_conversation. by rewrite decide_True. Qed.

(** X16.  Sending the same update a second time changes nothing, not
    even [updated_at]: [update_task] and [update_conversation] then
    return what they returned the first time and leave the store as the
    first call left it, be it that both calls raise.  This is so for an
    update of which [String(n)] shortens no value; a title or status
    with spaces beyond the width of its column is stored without them,
    differs from what is stored whenever it is sent, and is written
    again. *)
Theorem update_is_idempotent now now' s :
  (∀ task_id u,
     (∀ x, u_title u = Some (Some x) → not_truncated 255 x) →
     (∀ x, u_status u = Some (Some x) → not_truncated 50 x) →
     update_task NoFault task_id u now' (update_task NoFault task_id u now s).2
     = update_task NoFault task_id u now s)
  ∧ (∀ conversation_id u,
     (∀ x, u_conv_status u = Some (Some x) → not_truncated 50 x) →
     update_conversation NoFault conversation_id u now'
       (update_conversation NoFault conversation_id u now s).2
     = update_conversation NoFault conversation_id u now s).
Proof.
  split.
  - intros task_id u Htitle Hstatus.
    destruct (decide (int32 task_id)) as [Hid|Hid].
    2: { unfold update_task. by rewrite !decide_True by by right. }
    rewrite (update_task_unfold NoFault task_id u now s) by done.
    destruct (tasks s !! task_id) as [t|] eqn:Hk; cbn [snd].
    2: { by rewrite update_task_unfold, Hk. }
    destruct (flush_task now t (apply_task_update u t)) as [t'|] eqn:Hflush;
      cbn [snd].
    2: { by rewrite update_task_unfold, Hk,
              (flush_task_refused_at now now' _ _ Hflush). }
    destruct (flush_task_again now u t t' Htitle Hstatus Hflush) as [Ha Ha'].
    rewrite update_task_unfold by done. cbn [tasks conversations].
    rewrite lookup_insert_eq, Ha, Ha', flush_task_same.
    by rewrite !decide_False, insert_insert_eq by done.
  - intros conversation_id u Hstatus.
    destruct (decide (int32 conversation_id)) as [Hid|Hid].
    2: { unfold update_conversation. by rewrite !decide_True by by right. }
    rewrite (update_conversation_unfold NoFault conversation_id u now s) by done.
    destruct (conversations s !! conversation_id) as [c|] eqn:Hk; cbn [snd].
    2: { by rewrite update_conversation_unfold, Hk. }
    destruct (flush_conversation now c (apply_conversation_update u c)) as [c'|]
      eqn:Hflush; cbn [snd].
    2: { by rewrite update_conversation_unfold, Hk,
              (flush_conversation_refused_at now now' _ _ Hflush). }
    pose proof (flush_conversation_again now u c c' Hstatus Hflush) as Ha'.
    rewrite update_conversation_unfold by done. cbn [tasks conversations].
    rewrite lookup_insert_eq, Ha', flush_conversation_same.
    by rewrite !decide_False, insert_insert_eq by done.
Qed.

(** ** Between SELECT and UPDATE *)

Lemma complete_task_keeps_pending task_id instance_id now s k t :
  tasks s !! k = Some t → is_pending t →
  tasks (complete_task task_id instance_id now s).2 !! k = Some t.
Proof.
  intros Hk Hpend. rewrite complete_task_unfold; cbn [snd tasks].
  rewrite sql_update_lookup, Hk; simpl.
  case_decide as Hguard; [|done]. destruct Hguard as (_ & _ & Hproc).
  unfold is_pending, is_processing in *. congruence.
Qed.

Lemma fail_task_keeps_pending task_id instance_id now s k t :
  tasks s !! k = Some t → is_pending t →
  tasks (fail_task task_id instance_id now s).2 !! k = Some t.
Proof.
  intros Hk Hpend. rewrite fail_task_unfold; cbn [snd tasks].
  rewrite sql_update_lookup, Hk; simpl.
  case_decide as Hguard; [|done]. destruct Hguard as (_ & _ & Hproc).
  unfold is_pending, is_processing in *. congruence.
Qed.

Lemma release_lookup w locks k w' :
  release w locks !! k = Some w' ↔ locks !! k = Some w' ∧ w' ≠ w.
Proof. unfold release. by rewrite map_lookup_filter_Some. Qed.

Lemma selection_inv_step instance_of a σ σ' :
  selection_inv σ → sys_step instance_of a σ = Some σ' → selection_inv σ'.
Proof.
  intros Hinv Hstep.
  destruct a as [w|w now|w st now|w now|w now]; cbn [sys_step] in Hstep.
  - destruct (at_worker σ w) eqn:Hat; try done.
    destruct (select_next_pending _ _) as [k|] eqn:Hsel; simplify_eq; [|done].
    apply select_next_pending_Some in Hsel as (t & Hk & Hpend & Hfree & _).
    intros w' k' Hat'; cbn [at_worker row_locks db tasks] in *.
    destruct (decide (w' = w)) as [->|Hne].
    + rewrite fn_lookup_insert in Hat'. simplify_eq.
      rewrite lookup_insert_eq. split; [done|]. by exists t.
    + rewrite fn_lookup_insert_ne in Hat' by done.
      destruct (Hinv _ _ Hat') as [Hlock Hrow]. split; [|done].
      rewrite lookup_insert_ne; [done|]. intros <-.
      apply Hfree, elem_of_dom. by eexists.
  - destruct (at_worker σ w) as [|k|] eqn:Hat; try done.
    destruct (Hinv _ _ Hat) as [Hlock (t & Hk & Hpend)].
    destruct (update_to_processing_hit k (instance_of w) now _ _ Hk Hpend)
      as [Hts Hpos].
    destruct (update_to_processing _ _ _ _) as [ts' rowcount]; simpl in Hts, Hpos.
    rewrite decide_True in Hstep by done. subst ts'. injection Hstep as <-.
    intros w' k' Hat'; cbn [at_worker row_locks db tasks] in *.
    destruct (decide (w' = w)) as [->|Hne].
    { by rewrite fn_lookup_insert in Hat'. }
    rewrite fn_lookup_insert_ne in Hat' by done.
    destruct (Hinv _ _ Hat') as [Hlock' Hrow]. split.
    + by apply release_lookup.
    + rewrite lookup_insert_ne; [done|]. intros <-. congruence.
  - destruct (at_worker σ w) as [| |k] eqn:Hat; try done. simplify_eq.
    intros w' k' Hat'; cbn [at_worker row_locks db tasks] in *.
    rewrite update_conversations_by_task_tasks. by apply Hinv.
  - destruct (at_worker σ w) as [| |k] eqn:Hat; try done. simplify_eq.
    intros w' k' Hat'; cbn [at_worker row_locks db tasks] in *.
    destruct (decide (w' = w)) as [->|Hne].
    { by rewrite fn_lookup_insert in Hat'. }
    rewrite fn_lookup_insert_ne in Hat' by done.
    destruct (Hinv _ _ Hat') as [Hlock' (t & Hk & Hpend)]. split; [done|].
    exists t. split; [|done]. by apply complete_task_keeps_pending.
  - destruct (at_worker σ w) as [| |k] eqn:Hat; try done. simplify_eq.
    intros w' k' Hat'; cbn [at_worker row_locks db tasks] in *.
    destruct (decide (w' = w)) as [->|Hne].
    { by rewrite fn_lookup_insert in Hat'. }
    rewrite fn_lookup_insert_ne in Hat' by done.
    destruct (Hinv _ _ Hat') as [Hlock' (t & Hk & Hpend)]. split; [done|].
    exists t. split; [|done]. by apply fail_task_keeps_pending.
Qed.

Lemma selection_inv_run instance_of schedule σ σ' :
  selection_inv σ → sys_run instance_of schedule σ = Some σ' → selection_inv σ'.
Proof.
  revert σ. induction schedule as [|a schedule IH]; intros σ Hinv; simpl.
  { by intros [= <-]. }
  destruct (sys_step instance_of a σ) as [σ1|] eqn:Hstep; simpl; [|done].
  apply IH. by eapply selection_inv_step.
Qed.

(** X17.  Among concurrent workers the race for a task is decided by the
    SELECT.  In every state the workers can reach, a worker that has
    selected a row holds its lock and the row is still pending; no two
    workers have selected the same row; and the UPDATE of such a worker
    finds [rowcount > 0], so that its claim returns the task. *)
Theorem selected_row_is_claimed instance_of schedule s σ :
  sys_run instance_of schedule (sys_init s) = Some σ →
  (∀ w task_id, at_worker σ w = Selected task_id →
     row_locks σ !! task_id = Some w
     ∧ ∃ t, tasks (db σ) !! task_id = Some t ∧ is_pending t)
  ∧ (∀ w1 w2 task_id,
       at_worker σ w1 = Selected task_id → at_worker σ w2 = Selected task_id →
       w1 = w2)
  ∧ (∀ w task_id now, at_worker σ w = Selected task_id →
       ∃ σ', sys_step instance_of (DoUpdateCommit w now) σ = Some σ'
             ∧ at_worker σ' w = Owning task_id
             ∧ claimed σ' = (w, task_id) :: claimed σ).
Proof.
  intros Hrun.
  assert (selection_inv σ) as Hinv.
  { eapply selection_inv_run; [|done]. by intros w k Hat. }
  split_and!.
  - done.
  - intros w1 w2 k [H1 _]%Hinv [H2 _]%Hinv. congruence.
  - intros w k now Hat. destruct (Hinv _ _ Hat) as [_ (t & Hk & Hpend)].
    cbn [sys_step]. rewrite Hat.
    destruct (update_to_processing_hit k (instance_of w) now _ _ Hk Hpend)
      as [Hts Hpos].
    destruct (update_to_processing _ _ _ _) as [ts' rowcount]; simpl in Hts, Hpos.
    rewrite decide_True by done. eexists. split; [done|]. simpl.
    by rewrite fn_lookup_insert.
Qed.

(** * Further scenarios *)

(** The reload of [create_task] fails: the task and its conversations
    are written. *)
Example demo_create_reload_fault :
  let out := create_task FaultAfterCommit 50 demo_new_ids demo_request 60 demo_store in
  out.1 = Raised
  ∧ t_title <$> tasks out.2 !! 50 = Some "audit"
  ∧ c_content <$> conversations out.2 !! 100 = Some "first"
  ∧ c_content <$> conversations out.2 !! 101 = Some "second".
Proof. by vm_compute. Qed.

(** A conversation with a status of 51 characters: nothing of the
    request is written. *)
Example demo_create_refused :
  create_task NoFault 50 demo_new_ids
    (mkTaskCreate "audit" None
       (Some [mkConversationCreate "first" None;
              mkConversationCreate "second" (Some long_status)]))
    60 demo_store
  = (Raised, demo_store).
Proof. by vm_compute. Qed.


Lemma create_task_creates_witness :
  int32 50
  ∧ tasks demo_store !! 50 = None
  ∧ task_create_fits demo_request
  ∧ fresh_ids demo_new_ids 2 demo_store
  ∧ (create_task NoFault 50 demo_new_ids demo_request 60 demo_store).1
    = Returned (50, mkTask "audit" None (Some "pending") 60 60 None None,
                conversations_of 50
                  (create_task NoFault 50 demo_new_ids demo_request 60 demo_store).2)
  ∧ size (conversations_of 50
            (create_task NoFault 50 demo_new_ids demo_request 60 demo_store).2)
    = 2%nat.
Proof.
  assert (int32 50) as Hid by (unfold int32; lia).
  assert (tasks demo_store !! 50 = None) as Hnew by (vm_compute; reflexivity).
  assert (task_create_fits demo_request) as Hfits.
  { split_and!.
    - split; [reflexivity|simpl; lia].
    - intros x [=].
    - intros cs [= <-].
      repeat constructor; simpl; try reflexivity; lia. }
  assert (fresh_ids demo_new_ids 2 demo_store) as Hfresh.
  { split.
    - intros [|[|j]] Hj; [split; [unfold int32, demo_new_ids; lia|by vm_compute]..|lia].
    - unfold demo_new_ids. intros j1 j2 _ _. lia. }
  destruct (create_task_creates 50 demo_new_ids demo_request _ 60 demo_store
              Hid Hnew eq_refl Hfits Hfresh) as (Hret & _ & _ & _ & _ & _ & Hsize).
  refine (conj Hid (conj Hnew (conj Hfits (conj Hfresh (conj Hret _))))).
  apply Hsize. by vm_compute.
Defined.

Lemma processing_task_has_no_lease_witness :
  tasks stranded_store !! 2
  = Some (mkTask "import" (Some "nightly") (Some "processing") 10 50 None (Some "X"))
  ∧ ∀ workers : list (string * Env),
      tasks (foldl (λ s w, (worker_iteration w.1 w.2 s).2) stranded_store workers)
        !! 2
      = Some (mkTask "import" (Some "nightly") (Some "processing") 10 50 None
                     (Some "X")).
Proof.
  assert (tasks stranded_store !! 2
          = Some (mkTask "import" (Some "nightly") (Some "processing") 10 50 None
                         (Some "X"))) as Hk by (vm_compute; reflexivity).
  split; [exact Hk|].
  exact (proj1 (proj2 (processing_task_has_no_lease "X" 2 stranded_store _
                         Hk eq_refl eq_refl))).
Defined.

Lemma worker_loop_drains_witness :
  Forall quiet [quiet_env; quiet_env; quiet_env; quiet_env]
  ∧ (size (pending_tasks demo_store) ≤ 4)%nat
  ∧ ∀ k t, tasks demo_store !! k = Some t → ¬ is_pending t →
      tasks (worker_loop "X" [quiet_env; quiet_env; quiet_env; quiet_env]
               demo_store).2 !! k = Some t.
Proof.
  assert (Forall quiet [quiet_env; quiet_env; quiet_env; quiet_env]) as Hquiet.
  { repeat constructor. }
  assert (size (pending_tasks demo_store) ≤ 4)%nat as Hsize.
  { vm_compute. lia. }
  split; [exact Hquiet|]. split; [exact Hsize|].
  exact (proj1 (proj2 (proj2 (worker_loop_drains "X" _ demo_store Hquiet Hsize)))).
Defined.

Lemma no_orphans_invariant_witness :
  no_orphans demo_store
  ∧ no_orphans
      (run_store_calls
         [DoCreateTask FaultAfterCommit 50 demo_new_ids demo_request 60;
          DoWorkerIteration "X" stranding_env;
          DoDeleteTask 2;
          DoCreateConversation NoFault 200 (mkConversationCreate "late" None) 2 70]
         demo_store).
Proof.
  assert (no_orphans demo_store) as Hs.
  { unfold no_orphans.
    match goal with |- ?P => apply (bool_decide_unpack P) end. by vm_compute. }
  split; [exact Hs|]. by apply no_orphans_invariant.
Defined.

Lemma null_status_is_written_witness :
  int32 2
  ∧ tasks demo_store !! 2
    = Some (mkTask "import" (Some "nightly") (Some "pending") 10 10 None None)
  ∧ task_update_fits (mkTaskUpdate None None (Some None))
  ∧ (main.update_task NoFault 2 (mkTaskUpdate None None (Some None)) 60 demo_store).1
    = ServerError500
  ∧ main.get_task 2
      (main.update_task NoFault 2 (mkTaskUpdate None None (Some None)) 60
         demo_store).2
    = ServerError500.
Proof.
  assert (int32 2) as Hid by (unfold int32; lia).
  assert (tasks demo_store !! 2
          = Some (mkTask "import" (Some "nightly") (Some "pending") 10 10 None None))
    as Hk by (vm_compute; reflexivity).
  assert (task_update_fits (mkTaskUpdate None None (Some None))) as Hfits.
  { split_and!; simpl; intros x [=]. }
  destruct (null_status_is_written 2 None None 60 demo_store _ Hid Hk Hfits)
    as (Hans & _ & Hget & _).
  exact (conj Hid (conj Hk (conj Hfits (conj Hans Hget)))).
Defined.

Lemma delete_then_not_found_witness :
  int32 2
  ∧ is_Some (tasks demo_store !! 2)
  ∧ main.get_task 2 (main.delete_task 2 demo_store).2
    = NotFound404 "Task not found".
Proof.
  assert (int32 2) as Hid by (unfold int32; lia).
  assert (is_Some (tasks demo_store !! 2)) as Hk by (vm_compute; by eexists).
  refine (conj Hid (conj Hk _)).
  exact (proj1 (proj2 (delete_then_not_found 2 demo_store Hid Hk))).
Defined.

Lemma created_task_is_processed_witness :
  int32 50
  ∧ tasks drained_store !! 50 = None
  ∧ task_create_fits demo_request
  ∧ fresh_ids demo_new_ids 2 drained_store
  ∧ (worker_iteration "Y" quiet_env
       (main.create_task NoFault demo_request 50 demo_new_ids 60 drained_store).2).1
    = Processed 50 true.
Proof.
  assert (int32 50) as Hid by (unfold int32; lia).
  assert (tasks drained_store !! 50 = None) as Hnew by (vm_compute; reflexivity).
  assert (task_create_fits demo_request) as Hfits.
  { split_and!.
    - split; [reflexivity|simpl; lia].
    - intros x [=].
    - intros cs [= <-].
      repeat constructor; simpl; try reflexivity; lia. }
  assert (fresh_ids demo_new_ids 2 drained_store) as Hfresh.
  { split.
    - intros [|[|j]] Hj; [split; [unfold int32, demo_new_ids; lia|by vm_compute]..|lia].
    - unfold demo_new_ids. intros j1 j2 _ _. lia. }
  refine (conj Hid (conj Hnew (conj Hfits (conj Hfresh _)))).
  refine (proj1 (proj2 (created_task_is_processed 50 demo_new_ids demo_request _
                          60 "Y" quiet_env drained_store Hid Hnew eq_refl Hfits
                          Hfresh _ _))).
  - apply (map_Forall_lookup (λ _ t, ¬ is_pending t)).
    match goal with |- ?P => apply (bool_decide_unpack P) end. by vm_compute.
  - by intros c.
Defined.

Lemma selected_row_is_claimed_witness :
  sys_run race_ids [DoSelect 0; DoSelect 1] (sys_init demo_store)
  = Some (default (sys_init demo_store)
            (sys_run race_ids [DoSelect 0; DoSelect 1] (sys_init demo_store)))
  ∧ ∀ w1 w2 task_id,
      at_worker (default (sys_init demo_store)
                   (sys_run race_ids [DoSelect 0; DoSelect 1] (sys_init demo_store)))
        w1 = Selected task_id →
      at_worker (default (sys_init demo_store)
                   (sys_run race_ids [DoSelect 0; DoSelect 1] (sys_init demo_store)))
        w2 = Selected task_id →
      w1 = w2.
Proof.
  assert (sys_run race_ids [DoSelect 0; DoSelect 1] (sys_init demo_store)
          = Some (default (sys_init demo_store)
                    (sys_run race_ids [DoSelect 0; DoSelect 1] (sys_init demo_store))))
    as Hrun by (vm_compute; reflexivity).
  split; [exact Hrun|].
  exact (proj1 (proj2 (selected_row_is_claimed race_ids _ demo_store _ Hrun))).
Defined.

